(** * Job Forge: listing query, job lifecycle and favorites

    A shallow embedding of the server-side core of the job board:

    - the relational store declared in [prisma/schema.prisma] (tables as
      finite maps from primary key to row, with the unique and foreign-key
      constraints the schema declares checked by the store operations);
    - the listing query [getData] of [components/general/JobListings.tsx]
      and the query-parameter handling of the home page;
    - the server actions [createJob], [saveJobPost], [unSaveJobPost],
      [editJobPost], [deleteJobPost] of [lib/actions];
    - the payment webhook [POST].

    Strings are sequences of 8-bit code units, [Int] columns and page
    numbers are integers ([Z]), [DateTime] columns are integers
    (milliseconds).  Calls to external services (identity provider, bot
    protection, payment processor, task queue, clock, uuid generator) are
    modelled on their return: what they answer is an input of the action,
    what they are told is appended to a log in the world state. *)

From Stdlib Require Import ZArith Lia Ascii String.
From stdpp Require Import base decidable option list strings pretty gmap fin_maps sorting.

Local Open Scope string_scope.
Local Open Scope Z_scope.

(** ** Data model (prisma/schema.prisma) *)

Inductive JobPostStatus := DRAFT | ACTIVE | EXPIRE.
Inductive UserType := COMPANY | JOB_SEEKER.

#[global] Instance JobPostStatus_eq_dec : EqDecision JobPostStatus.
Proof. solve_decision. Defined.
#[global] Instance UserType_eq_dec : EqDecision UserType.
Proof. solve_decision. Defined.

Module User.
Record t := mk {
    id : string;
    name : option string;
    email : option string;
    emailVerified : option Z;
    image : option string;
    stripeCustomerId : option string;
    onBoardingCompleted : bool;
    userType : option UserType
}.
End User.

Module Company.
Record t := mk {
    id : string;
    name : string;
    location : string;
    about : string;
    logo : string;
    website : string;
    xAccount : option string;
    userId : string;
    createdAt : Z;
    updatedAt : Z
}.
End Company.

Module JobPost.
Record t := mk {
    id : string;
    jobTitle : string;
    employmentType : string;
    location : string;
    salaryFrom : Z;
    salaryTo : Z;
    jobDescription : string;
    listingDuration : Z;
    benefits : list string;
    status : JobPostStatus;
    createdAt : Z;
    updatedAt : Z;
    companyId : string
}.
End JobPost.

Module SavedJobPost.
Record t := mk {
    id : string;
    jobPostId : string;
    userId : string;
    createdAt : Z;
    updatedAt : Z
}.
End SavedJobPost.

#[global] Instance User_eq_dec : EqDecision User.t.
Proof. solve_decision. Defined.
#[global] Instance Company_eq_dec : EqDecision Company.t.
Proof. solve_decision. Defined.
#[global] Instance JobPost_eq_dec : EqDecision JobPost.t.
Proof. solve_decision. Defined.
#[global] Instance SavedJobPost_eq_dec : EqDecision SavedJobPost.t.
Proof. solve_decision. Defined.

(** The store.  The tables of the identity adapter (accounts, sessions,
    verification tokens) and the job-seeker profiles are never read or
    written by the operations below and are left out. *)
Record Db := mkDb {
  users : gmap string User.t;
  companies : gmap string Company.t;
  jobPosts : gmap string JobPost.t;
  savedJobPosts : gmap string SavedJobPost.t
}.

(** The exceptions of the embedding: those the code throws itself and
    those with which the validator and the store refuse a call. *)
Inductive Exn :=
  | Error (message : string)            (* throw new Error(message) *)
  | ZodError                            (* schema.parse rejected the input *)
  | ValidationError                     (* the client refused the arguments *)
  | RecordNotFound                      (* the where clause matched no row *)
  | UniqueConstraint (fields : list string)
  | ForeignKeyConstraint
  | RelationViolation                   (* a required relation would break *)
  | ValueOutOfRange                     (* a number does not fit its column *)
  | InconsistentResult                  (* a required relation has no row *)
  | SyntaxError.                        (* JSON.parse rejected the text *)

#[global] Instance Exn_eq_dec : EqDecision Exn.
Proof. solve_decision. Defined.

(** Rows of a table in a fixed enumeration order. *)
Definition rows {V} (m : gmap string V) : list V := (map_to_list m).*2.

(** The constraints of the schema, each a decidable condition on the
    tables: a row is stored under its [@id]; the [@unique] columns and the
    [@@unique] pair do not repeat; every [@relation] column points at a
    stored row. *)
Record db_wf (d : Db) : Prop := {
  wf_user_key : map_Forall (λ k u, User.id u = k) (users d);
  wf_company_key : map_Forall (λ k c, Company.id c = k) (companies d);
  wf_job_key : map_Forall (λ k j, JobPost.id j = k) (jobPosts d);
  wf_saved_key : map_Forall (λ k s, SavedJobPost.id s = k) (savedJobPosts d);
  (* User.stripeCustomerId @unique *)
  wf_stripe_unique :
    map_Forall (λ k1 u1, map_Forall (λ k2 u2,
        is_Some (User.stripeCustomerId u1) →
        User.stripeCustomerId u1 = User.stripeCustomerId u2 → k1 = k2)
      (users d)) (users d);
  (* Company.userId @unique *)
  wf_company_user_unique :
    map_Forall (λ k1 c1, map_Forall (λ k2 c2,
        Company.userId c1 = Company.userId c2 → k1 = k2)
      (companies d)) (companies d);
  (* SavedJobPost @@unique([userId, jobPostId]) *)
  wf_saved_unique :
    map_Forall (λ k1 s1, map_Forall (λ k2 s2,
        SavedJobPost.userId s1 = SavedJobPost.userId s2 →
        SavedJobPost.jobPostId s1 = SavedJobPost.jobPostId s2 → k1 = k2)
      (savedJobPosts d)) (savedJobPosts d);
  (* foreign keys *)
  wf_company_user :
    map_Forall (λ _ c, is_Some (users d !! Company.userId c)) (companies d);
  wf_job_company :
    map_Forall (λ _ j, is_Some (companies d !! JobPost.companyId j))
               (jobPosts d);
  wf_saved_job :
    map_Forall (λ _ s, is_Some (jobPosts d !! SavedJobPost.jobPostId s))
               (savedJobPosts d);
  wf_saved_user :
    map_Forall (λ _ s, is_Some (users d !! SavedJobPost.userId s))
               (savedJobPosts d)
}.

(** ** Store queries used by the listing (the ORM's [findMany] and [count]) *)

(** The [where] object of a job-post query: an absent key is no condition. *)
Module JobPostWhereInput.
Record t := mk {
  status : option JobPostStatus;
  employmentType_in : option (list string);
  location : option string
}.
End JobPostWhereInput.

Definition job_matches (w : JobPostWhereInput.t) (j : JobPost.t) : bool :=
  match JobPostWhereInput.status w with
  | Some s => bool_decide (JobPost.status j = s)
  | None => true
  end
  && match JobPostWhereInput.employmentType_in w with
     | Some ts => bool_decide (JobPost.employmentType j ∈ ts)
     | None => true
     end
  && match JobPostWhereInput.location w with
     | Some l => bool_decide (JobPost.location j = l)
     | None => true
     end.

(** [orderBy: { createdAt: "desc" }] *)
Definition newer_first (a b : JobPost.t) : Prop :=
  JobPost.createdAt b ≤ JobPost.createdAt a.

#[global] Instance newer_first_dec : RelDecision newer_first.
Proof. intros a b. unfold newer_first. apply _. Defined.

#[global] Instance newer_first_total : Total newer_first.
Proof. intros a b. unfold newer_first. lia. Qed.

#[global] Instance newer_first_trans : Transitive newer_first.
Proof. intros a b c. unfold newer_first. lia. Qed.

(** The rows a [where] object selects, newest first. *)
Definition matching (w : JobPostWhereInput.t) (d : Db) : list JobPost.t :=
  merge_sort newer_first (filter (λ j, job_matches w j = true) (rows (jobPosts d))).

(** The [select] of the listing: the card fields and, through the
    [Company] relation, four fields of the owning company. *)
Module CompanyCard.
Record t := mk {
  name : string;
  logo : string;
  location : string;
  about : string
}.
End CompanyCard.

Module JobCard.
Record t := mk {
  jobTitle : string;
  id : string;
  salaryFrom : Z;
  salaryTo : Z;
  employmentType : string;
  location : string;
  createdAt : Z;
  Company : option CompanyCard.t
}.
End JobCard.

Definition select_company (c : Company.t) : CompanyCard.t :=
  CompanyCard.mk (Company.name c) (Company.logo c) (Company.location c)
                 (Company.about c).

Definition select_card (d : Db) (j : JobPost.t) : JobCard.t :=
  JobCard.mk (JobPost.jobTitle j) (JobPost.id j) (JobPost.salaryFrom j)
             (JobPost.salaryTo j) (JobPost.employmentType j)
             (JobPost.location j) (JobPost.createdAt j)
             (select_company <$> companies d !! JobPost.companyId j).

(** [take]/[skip] window over the ordered rows.  A negative [skip] is
    refused by the client; a negative [take] scans from the end. *)
Definition window {A} (take_ skip : Z) (l : list A) : list A :=
  if bool_decide (0 ≤ take_)
  then take (Z.to_nat take_) (drop (Z.to_nat skip) l)
  else reverse (take (Z.to_nat (- take_)) (drop (Z.to_nat skip) (reverse l))).

Definition jobPost_findMany (w : JobPostWhereInput.t) (take_ skip : Z) (d : Db)
  : Exn + list JobCard.t :=
  if bool_decide (skip < 0) then inl ValidationError
  else inr (select_card d <$> window take_ skip (matching w d)).

Definition jobPost_count (w : JobPostWhereInput.t) (d : Db) : nat :=
  length (filter (λ j, job_matches w j = true) (rows (jobPosts d))).

(** The rows with status ACTIVE, whatever their type and location. *)
Definition active_count (d : Db) : Z :=
  Z.of_nat (length (filter (λ j, JobPost.status j = ACTIVE) (rows (jobPosts d)))).

(** ** Listing query (components/general/JobListings.tsx) *)

(** A JavaScript number as far as the listing produces one: an integer,
    or what a division by zero leaves. *)
Inductive number := Num (z : Z) | Infinity | NaN.

(** The least integer not below the quotient [n / d], for [d ≠ 0]. *)
Definition ceil_quot (n d : Z) : Z := - ((- n) `div` d).

(** [Math.ceil(n / d)] for an integer [n ≥ 0] and an integer [d]. *)
Definition Math_ceil_div (n d : Z) : number :=
  if bool_decide (d = 0) then (if bool_decide (n = 0) then NaN else Infinity)
  else Num (ceil_quot n d).

Module ListingPage.
Record t := mk {
  jobs : list JobCard.t;
  totalPages : number
}.
End ListingPage.

(** The [where] object [getData] builds from its filters. *)
Definition listing_where (jobTypes : list string) (location : string)
  : JobPostWhereInput.t :=
  JobPostWhereInput.mk
    (Some ACTIVE)
    (if bool_decide (0 < length jobTypes)%nat then Some jobTypes else None)
    (if bool_decide (location ≠ "") && bool_decide (location ≠ "worldwide")
     then Some location else None).

Definition getData (page pageSize : Z) (jobTypes : list string)
    (location : string) (d : Db) : Exn + ListingPage.t :=
  let skip := (page - 1) * pageSize in
  let where_ := listing_where jobTypes location in
  match jobPost_findMany where_ pageSize skip d with
  | inl e => inl e
  | inr data =>
      let totalCount :=
        jobPost_count (JobPostWhereInput.mk (Some ACTIVE) None None) d in
      inr (ListingPage.mk data (Math_ceil_div (Z.of_nat totalCount) pageSize))
  end.

(** ** Query parameters of the home page (component [Home]) *)

(** [s.split(",")]: the pieces between the separators; the empty string
    splits into one empty piece. *)
Fixpoint split (sep : ascii) (s : string) : list string :=
  match s with
  | EmptyString => [EmptyString]
  | String c s' =>
      if bool_decide (c = sep) then EmptyString :: split sep s'
      else match split sep s' with
           | h :: t => String c h :: t
           | [] => [String c EmptyString]
           end
  end.

(** [jobTypes?.split(",") || []]: an array is truthy, so [[]] is used
    only when the parameter is absent. *)
Definition jobTypesSplit (jobTypes : option string) : list string :=
  match jobTypes with
  | Some s => split "," s
  | None => []
  end.

(** [location || ""] *)
Definition locationmod (location : option string) : string :=
  match location with
  | Some s => s
  | None => ""
  end.

(** The listing the home page renders for a page number: [JobListingsContent]
    calls [getData] with the page size 2. *)
Definition Home_listing (currentPage : Z) (jobTypes location : option string)
    (d : Db) : Exn + ListingPage.t :=
  getData currentPage 2 (jobTypesSplit jobTypes) (locationmod location) d.

(** ** World state and the action monad *)

(** A message submitted to the task queue: [{ name, data: { jobId,
    expirationDays? } }]. *)
Module InngestEvent.
Record t := mk {
  name : string;
  jobId : string;
  expirationDays : option Z
}.
End InngestEvent.

(** The arguments of [stripe.checkout.sessions.create] that vary. *)
Module CheckoutRequest.
Record t := mk {
  customer : string;
  product_name : string;
  product_description : string;
  unit_amount : Z;
  metadata_jobId : string
}.
End CheckoutRequest.

Record World := mkWorld {
  db : Db;
  inngest_sent : list InngestEvent.t;
  stripe_customers : list (option string * option string);
  stripe_sessions : list CheckoutRequest.t;
  revalidated : list string
}.

(** How a request ends: the handler returns, [redirect] leaves it, or an
    exception escapes.  Writes made before the end stay: no statement
    runs inside a transaction. *)
Inductive Result (A : Type) :=
  | Ok (a : A)
  | Redirect (url : string)
  | Throw (e : Exn).
Arguments Ok {A} a.
Arguments Redirect {A} url.
Arguments Throw {A} e.

Definition M (A : Type) : Type := World → Result A * World.

Definition ret {A} (a : A) : M A := λ w, (Ok a, w).

Definition bind {A B} (m : M A) (k : A → M B) : M B :=
  λ w, match m w with
       | (Ok a, w') => k a w'
       | (Redirect u, w') => (Redirect u, w')
       | (Throw e, w') => (Throw e, w')
       end.

Notation "'let*' x ':=' m 'in' k" := (bind m (λ x, k))
  (at level 10, x pattern, m at level 100, k at level 200).
Notation "m1 ';;' m2" := (bind m1 (λ _, m2))
  (at level 100, m2 at level 200, right associativity).

Definition throw {A} (e : Exn) : M A := λ w, (Throw e, w).
Definition redirect {A} (url : string) : M A := λ w, (Redirect url, w).

Definition set_db (d : Db) (w : World) : World :=
  mkWorld d (inngest_sent w) (stripe_customers w) (stripe_sessions w)
          (revalidated w).

(** A read of the store. *)
Definition query {A} (q : Db → A) : M A := λ w, (Ok (q (db w)), w).

(** A statement of the store: it is refused, or answers and leaves a new
    store. *)
Definition statement {A} (op : Db → Exn + (A * Db)) : M A :=
  λ w, match op (db w) with
       | inl e => (Throw e, w)
       | inr (a, d') => (Ok a, set_db d' w)
       end.

(** [await inngest.send(e)], the service accepting the message. *)
Definition inngest_send (e : InngestEvent.t) : M unit :=
  λ w, (Ok tt, mkWorld (db w) (inngest_sent w ++ [e]) (stripe_customers w)
                       (stripe_sessions w) (revalidated w)).

(** [await inngest.send(e)] in general: the service accepts the message,
    or the call rejects with [failure] and nothing is sent. *)
Definition inngest_send_or (failure : option Exn) (e : InngestEvent.t)
  : M unit :=
  match failure with
  | None => inngest_send e
  | Some err => throw err
  end.

Definition revalidatePath (path : string) : M unit :=
  λ w, (Ok tt, mkWorld (db w) (inngest_sent w) (stripe_customers w)
                       (stripe_sessions w) (revalidated w ++ [path])).

(** What the services outside the store answer during one request. *)
Module SessionUser.
Record t := mk {
  id : string;
  name : option string;
  email : option string
}.
End SessionUser.

Record Env := mkEnv {
  session : option SessionUser.t;   (* auth(): the signed-in user, if any *)
  denied : bool;                    (* aj.protect(req).isDenied() *)
  now : Z;                          (* the clock behind now() and @updatedAt *)
  uuid : string;                    (* the id the store draws for a new row *)
  customer_id : string;             (* the id of a customer Stripe creates *)
  checkout_url : string             (* the url of a checkout session *)
}.

(** lib/auth.tsx *)
Definition reqUser (env : Env) : M SessionUser.t :=
  match session env with
  | Some user => ret user
  | None => redirect "/login"
  end.

(** [if (decision.isDenied()) throw new Error("Forbidden")] *)
Definition protect (env : Env) : M unit :=
  if denied env then throw (Error "Forbidden") else ret tt.

Definition stripe_customers_create (env : Env) (email name : option string)
  : M string :=
  λ w, (Ok (customer_id env),
        mkWorld (db w) (inngest_sent w) (stripe_customers w ++ [(email, name)])
                (stripe_sessions w) (revalidated w)).

Definition stripe_checkout_sessions_create (env : Env) (r : CheckoutRequest.t)
  : M string :=
  λ w, (Ok (checkout_url env),
        mkWorld (db w) (inngest_sent w) (stripe_customers w)
                (stripe_sessions w ++ [r]) (revalidated w)).

(** ** Store statements used by the actions and the webhook *)

Definition set_users (t : gmap string User.t) (d : Db) : Db :=
  mkDb t (companies d) (jobPosts d) (savedJobPosts d).
Definition set_jobPosts (t : gmap string JobPost.t) (d : Db) : Db :=
  mkDb (users d) (companies d) t (savedJobPosts d).
Definition set_savedJobPosts (t : gmap string SavedJobPost.t) (d : Db) : Db :=
  mkDb (users d) (companies d) (jobPosts d) t.

(** [prisma.company.findUnique({ where: { userId } })] *)
Definition company_findUnique_userId (userId : string) (d : Db)
  : option Company.t :=
  snd <$> list_find (λ c, Company.userId c = userId) (rows (companies d)).

(** [prisma.user.findUnique({ where: { stripeCustomerId } })] *)
Definition user_findUnique_stripeCustomerId (customer : string) (d : Db)
  : option User.t :=
  snd <$> list_find (λ u, User.stripeCustomerId u = Some customer)
                    (rows (users d)).

Definition with_stripeCustomerId (c : string) (u : User.t) : User.t :=
  User.mk (User.id u) (User.name u) (User.email u) (User.emailVerified u)
          (User.image u) (Some c) (User.onBoardingCompleted u)
          (User.userType u).

(** [prisma.user.update({ where: { id }, data: { stripeCustomerId } })] *)
Definition user_update_stripeCustomerId (id customer : string) (d : Db)
  : Exn + (User.t * Db) :=
  match users d !! id with
  | None => inl RecordNotFound
  | Some u =>
      match list_find (λ u', User.stripeCustomerId u' = Some customer
                             ∧ User.id u' ≠ User.id u) (rows (users d)) with
      | Some _ => inl (UniqueConstraint ["stripeCustomerId"])
      | None =>
          let u' := with_stripeCustomerId customer u in
          inr (u', set_users (<[id := u']> (users d)) d)
      end
  end.

(** The relation filter [Company: { userId }] of a job-post [where]. *)
Definition Company_userId_is (userId : string) (d : Db) (j : JobPost.t) : bool :=
  match companies d !! JobPost.companyId j with
  | Some c => bool_decide (Company.userId c = userId)
  | None => false
  end.

(** The filter [companyId: v] of a job-post [where]; the ORM drops a key
    whose value is [undefined] ([None]). *)
Definition companyId_is (v : option string) (d : Db) (j : JobPost.t) : bool :=
  match v with
  | Some c => bool_decide (JobPost.companyId j = c)
  | None => true
  end.

(** [@updatedAt] *)
Definition touch (now_ : Z) (j : JobPost.t) : JobPost.t :=
  JobPost.mk (JobPost.id j) (JobPost.jobTitle j) (JobPost.employmentType j)
             (JobPost.location j) (JobPost.salaryFrom j) (JobPost.salaryTo j)
             (JobPost.jobDescription j) (JobPost.listingDuration j)
             (JobPost.benefits j) (JobPost.status j) (JobPost.createdAt j)
             now_ (JobPost.companyId j).

(** The values of an [Int] column: 32-bit signed integers.  The store
    refuses a statement that writes another number to such a column. *)
Definition Int_fits (z : Z) : bool :=
  bool_decide (-2147483648 ≤ z ≤ 2147483647).

(** The numbers a row holds in its [Int] columns. *)
Definition JobPost_ints (j : JobPost.t) : list Z :=
  [JobPost.salaryFrom j; JobPost.salaryTo j; JobPost.listingDuration j].

(** The [data] object of an update: the columns it sets, read as the
    new row in terms of the old one, and the numbers it gives to [Int]
    columns. *)
Module JobPostUpdateInput.
Record t := mk {
  apply : JobPost.t → JobPost.t;
  ints : list Z
}.
End JobPostUpdateInput.

Coercion JobPostUpdateInput.apply : JobPostUpdateInput.t >-> Funclass.

(** [prisma.jobPost.update({ where: { id, ...extra }, data })]: the row
    with that id, if it also passes the other conditions, is located
    first; the write is refused when a number of the data object does
    not fit its column. *)
Definition jobPost_update (id : string) (extra : Db → JobPost.t → bool)
    (data : JobPostUpdateInput.t) (now_ : Z) (d : Db)
  : Exn + (JobPost.t * Db) :=
  match jobPosts d !! id with
  | Some j =>
      if extra d j
      then if forallb Int_fits (JobPostUpdateInput.ints data)
           then let j' := touch now_ (data j) in
                inr (j', set_jobPosts (<[id := j']> (jobPosts d)) d)
           else inl ValueOutOfRange
      else inl RecordNotFound
  | None => inl RecordNotFound
  end.

(** [prisma.jobPost.delete({ where: { id, ...extra } })].  The relation
    from [SavedJobPost] declares no [onDelete], so a referenced row is
    kept and the statement refused. *)
Definition jobPost_delete (id : string) (extra : Db → JobPost.t → bool) (d : Db)
  : Exn + (JobPost.t * Db) :=
  match jobPosts d !! id with
  | Some j =>
      if extra d j
      then match list_find (λ s, SavedJobPost.jobPostId s = id)
                           (rows (savedJobPosts d)) with
           | Some _ => inl ForeignKeyConstraint
           | None => inr (j, set_jobPosts (delete id (jobPosts d)) d)
           end
      else inl RecordNotFound
  | None => inl RecordNotFound
  end.

(** [prisma.jobPost.create({ data })]: [id], [status], [createdAt] and
    [updatedAt] take their schema defaults; a number that does not fit
    its [Int] column is refused before any constraint is looked at. *)
Definition jobPost_create (id : string) (now_ : Z)
    (data : string → JobPostStatus → Z → Z → JobPost.t) (d : Db)
  : Exn + (JobPost.t * Db) :=
  let j := data id DRAFT now_ now_ in
  if forallb Int_fits (JobPost_ints j)
  then
    match jobPosts d !! id with
    | Some _ => inl (UniqueConstraint ["id"])
    | None =>
        match companies d !! JobPost.companyId j with
        | None => inl ForeignKeyConstraint
        | Some _ => inr (j, set_jobPosts (<[id := j]> (jobPosts d)) d)
        end
    end
  else inl ValueOutOfRange.

(** [prisma.savedJobPost.create({ data: { jobPostId, userId } })] *)
Definition savedJobPost_create (id : string) (now_ : Z) (jobPostId userId : string)
    (d : Db) : Exn + (SavedJobPost.t * Db) :=
  let s := SavedJobPost.mk id jobPostId userId now_ now_ in
  match savedJobPosts d !! id with
  | Some _ => inl (UniqueConstraint ["id"])
  | None =>
      match list_find (λ s', SavedJobPost.userId s' = userId
                             ∧ SavedJobPost.jobPostId s' = jobPostId)
                      (rows (savedJobPosts d)) with
      | Some _ => inl (UniqueConstraint ["userId"; "jobPostId"])
      | None =>
          match jobPosts d !! jobPostId, users d !! userId with
          | Some _, Some _ =>
              inr (s, set_savedJobPosts (<[id := s]> (savedJobPosts d)) d)
          | _, _ => inl ForeignKeyConstraint
          end
      end
  end.

(** [prisma.savedJobPost.delete({ where: { id, userId } })] *)
Definition savedJobPost_delete (id userId : string) (d : Db)
  : Exn + (SavedJobPost.t * Db) :=
  match savedJobPosts d !! id with
  | Some s =>
      if bool_decide (SavedJobPost.userId s = userId)
      then inr (s, set_savedJobPosts (delete id (savedJobPosts d)) d)
      else inl RecordNotFound
  | None => inl RecordNotFound
  end.

(** ** Input validation (lib/zodSchemas) *)

(** [z.infer<typeof jobSchema>] *)
Module JobInput.
Record t := mk {
  jobTitle : string;
  employmentType : string;
  location : string;
  salaryFrom : Z;
  salaryTo : Z;
  jobDescription : string;
  listingDuration : Z;
  benefits : list string;
  companyName : string;
  companyLocation : string;
  companyAbout : string;
  companyLogo : string;
  companyWebsite : string;
  companyXAccount : option string
}.
End JobInput.

(** One tier of [jobListingPricing]. *)
Module PricingTier.
Record t := mk {
  days : Z;
  price : Z;
  description : string
}.
End PricingTier.

Definition min_length (n : nat) (s : string) : bool :=
  bool_decide (n ≤ String.length s)%nat.

Section Actions.

(** The pricing table of [lib/jobListingPricing] and the test behind
    [z.string().url()]: the actions are stated for any table and any
    test. *)
Variable jobListingPricing : list PricingTier.t.
Variable is_url : string → bool.

(** [jobSchema.parse(data)] *)
Definition jobSchema_valid (v : JobInput.t) : bool :=
  min_length 2 (JobInput.jobTitle v)
  && min_length 1 (JobInput.employmentType v)
  && min_length 1 (JobInput.location v)
  && bool_decide (1 ≤ JobInput.salaryFrom v)
  && bool_decide (1 ≤ JobInput.salaryTo v)
  && min_length 1 (JobInput.jobDescription v)
  && bool_decide (1 ≤ JobInput.listingDuration v)
  && forallb (min_length 1) (JobInput.benefits v)
  && min_length 2 (JobInput.companyName v)
  && min_length 1 (JobInput.companyLocation v)
  && min_length 10 (JobInput.companyAbout v)
  && min_length 1 (JobInput.companyLogo v)
  && is_url (JobInput.companyWebsite v).

Definition jobSchema_parse (data : JobInput.t) : M JobInput.t :=
  if jobSchema_valid data then ret data else throw ZodError.

(** ** Server actions (lib/actions) *)

(** The [data] object of [createJob]'s insert. *)
Definition create_data (companyId : string) (v : JobInput.t)
    (id : string) (status : JobPostStatus) (createdAt updatedAt : Z)
  : JobPost.t :=
  JobPost.mk id (JobInput.jobTitle v) (JobInput.employmentType v)
             (JobInput.location v) (JobInput.salaryFrom v)
             (JobInput.salaryTo v) (JobInput.jobDescription v)
             (JobInput.listingDuration v) (JobInput.benefits v)
             status createdAt updatedAt companyId.

(** [a || undefined] on an optional string. *)
Definition or_undefined (a : option string) : option string :=
  match a with
  | Some EmptyString => None
  | _ => a
  end.

(** [!s] on an optional string. *)
Definition falsy (a : option string) : bool :=
  match a with
  | None | Some EmptyString => true
  | Some _ => false
  end.

Definition createJob (env : Env) (data : JobInput.t) : M unit :=
  let* user := reqUser env in
  let* validatedData := jobSchema_parse data in
  let* company := query (company_findUnique_userId (SessionUser.id user)) in
  match company with
  | None => redirect "/"
  | Some company =>
      if bool_decide (Company.id company = "") then redirect "/" else
      let* company_user := query (λ d, users d !! Company.userId company) in
      match company_user with
      | None => throw InconsistentResult
      | Some company_user =>
          let* stripeCustomerId :=
            if falsy (User.stripeCustomerId company_user)
            then
              let* customer := stripe_customers_create env
                                 (SessionUser.email user)
                                 (or_undefined (SessionUser.name user)) in
              statement (user_update_stripeCustomerId
                           (SessionUser.id user) customer);;
              ret customer
            else ret (default "" (User.stripeCustomerId company_user)) in
          let* jobPost := statement (jobPost_create (uuid env) (now env)
                            (create_data (Company.id company) validatedData)) in
          inngest_send (InngestEvent.mk "job/created" (JobPost.id jobPost)
                          (Some (JobInput.listingDuration validatedData)));;
          match find (λ tier, bool_decide (PricingTier.days tier
                                 = JobInput.listingDuration validatedData))
                     jobListingPricing with
          | None => throw (Error "Invalid listing duration selected")
          | Some pricingTier =>
              let* url := stripe_checkout_sessions_create env
                (CheckoutRequest.mk
                   stripeCustomerId
                   ("Job Posting - " +:+ pretty (PricingTier.days pricingTier)
                      +:+ " Days")
                   (PricingTier.description pricingTier)
                   (PricingTier.price pricingTier * 100)
                   (JobPost.id jobPost)) in
              redirect url
          end
      end
  end.

Definition saveJobPost (env : Env) (jobId : string) : M unit :=
  let* user := reqUser env in
  protect env;;
  statement (savedJobPost_create (uuid env) (now env) jobId
               (SessionUser.id user));;
  revalidatePath ("/job/" +:+ jobId).

Definition unSaveJobPost (env : Env) (savedJobPostId : string) : M unit :=
  let* user := reqUser env in
  protect env;;
  let* data := statement (savedJobPost_delete savedJobPostId
                            (SessionUser.id user)) in
  revalidatePath ("/job/" +:+ SavedJobPost.jobPostId data).

(** The [data] object of [editJobPost]'s update. *)
Definition edit_data (v : JobInput.t) : JobPostUpdateInput.t :=
  JobPostUpdateInput.mk
    (λ j, JobPost.mk (JobPost.id j) (JobInput.jobTitle v)
            (JobInput.employmentType v) (JobInput.location v)
            (JobInput.salaryFrom v) (JobInput.salaryTo v)
            (JobInput.jobDescription v) (JobInput.listingDuration v)
            (JobInput.benefits v) (JobPost.status j) (JobPost.createdAt j)
            (JobPost.updatedAt j) (JobPost.companyId j))
    [JobInput.salaryFrom v; JobInput.salaryTo v; JobInput.listingDuration v].

Definition editJobPost (env : Env) (data : JobInput.t) (jobId : string)
  : M unit :=
  let* user := reqUser env in
  protect env;;
  let* validateData := jobSchema_parse data in
  statement (jobPost_update jobId (Company_userId_is (SessionUser.id user))
               (edit_data validateData) (now env));;
  redirect "/my-jobs".

(** [deleteJobPost], where [failure] is what [inngest.send] rejects
    with, if it rejects: the message is sent after the row is deleted. *)
Definition deleteJobPost_sending (failure : option Exn) (env : Env)
    (jobId : string) : M unit :=
  let* session := reqUser env in
  protect env;;
  statement (jobPost_delete jobId (Company_userId_is (SessionUser.id session)));;
  inngest_send_or failure
    (InngestEvent.mk "job/cancel.expiration" jobId None);;
  redirect "/my-jobs".

(** [deleteJobPost] while the message service accepts what it is sent. *)
Definition deleteJobPost (env : Env) (jobId : string) : M unit :=
  deleteJobPost_sending None env jobId.

End Actions.

(** ** Payment webhook (route handler [POST]) *)

(** The fields of a verified event the handler reads: its type and, of
    the checkout session it carries, the customer and [metadata?.jobId]. *)
Module StripeEvent.
Record t := mk {
  type : string;
  customer : string;
  metadata_jobId : option string
}.
End StripeEvent.

Module Response.
Record t := mk {
  body : option string;
  status : Z
}.
End Response.

Definition with_status (s : JobPostStatus) (j : JobPost.t) : JobPost.t :=
  JobPost.mk (JobPost.id j) (JobPost.jobTitle j) (JobPost.employmentType j)
             (JobPost.location j) (JobPost.salaryFrom j) (JobPost.salaryTo j)
             (JobPost.jobDescription j) (JobPost.listingDuration j)
             (JobPost.benefits j) s (JobPost.createdAt j)
             (JobPost.updatedAt j) (JobPost.companyId j).

(** [prisma.user.findUnique({ where: { stripeCustomerId }, select:
    { Company: { select: { id } } } })]: [None] when no user has that
    customer id; otherwise the user's company id, if the user has one. *)
Definition user_company_id (customer : string) (d : Db)
  : option (option string) :=
  (λ u, Company.id <$> company_findUnique_userId (User.id u) d)
    <$> user_findUnique_stripeCustomerId customer d.

Section Webhook.

(** [stripe.webhooks.constructEvent(body, sig, secret)] called at the
    time [now_]: the event, when the signature verifies.  No tolerance is
    passed, so the library's own applies and a signature that verified
    once is refused once its timestamp is too old. *)
Variable constructEvent : Z → string → option string → option StripeEvent.t.

Definition POST (now_ : Z) (body : string) (sig : option string)
  : M Response.t :=
  match constructEvent now_ body sig with
  | None => ret (Response.mk (Some "Webhook Error") 400)
  | Some event =>
      if bool_decide (StripeEvent.type event = "checkout.session.completed")
      then
        let customerId := StripeEvent.customer event in
        match StripeEvent.metadata_jobId event with
        | None | Some EmptyString =>
            ret (Response.mk (Some "no job id found") 400)
        | Some jobId =>
            let* company := query (user_company_id customerId) in
            match company with
            | None =>
                ret (Response.mk (Some "no company found for the user") 400)
            | Some company_Company_id =>
                statement (jobPost_update jobId
                             (companyId_is company_Company_id)
                             (JobPostUpdateInput.mk (with_status ACTIVE) [])
                             now_);;
                ret (Response.mk None 200)
            end
        end
      else ret (Response.mk None 200)
  end.

End Webhook.


(** ** Vocabulary of the statements below *)

(** The numbers of an input fit the [Int] columns they are stored in. *)
Definition fits_Int_columns (v : JobInput.t) : Prop :=
  forallb Int_fits [JobInput.salaryFrom v; JobInput.salaryTo v;
                    JobInput.listingDuration v] = true.

(** The job post [jobId] exists and belongs to a company of user
    [userId]. *)
Definition owns (d : Db) (userId jobId : string) : Prop :=
  ∃ j c, jobPosts d !! jobId = Some j
         ∧ companies d !! JobPost.companyId j = Some c
         ∧ Company.userId c = userId.

(** User [userId] has a saved record for job [jobPostId]. *)
Definition saved (d : Db) (userId jobPostId : string) : Prop :=
  ∃ k s, savedJobPosts d !! k = Some s
         ∧ SavedJobPost.userId s = userId
         ∧ SavedJobPost.jobPostId s = jobPostId.

(** The saved records of one user. *)
Definition saved_set (d : Db) (userId : string) : gmap string SavedJobPost.t :=
  filter (λ kv, SavedJobPost.userId kv.2 = userId) (savedJobPosts d).

(** No user carries the customer id [c]. *)
Definition customer_unused (d : Db) (c : string) : Prop :=
  ∀ k u, users d !! k = Some u → User.stripeCustomerId u ≠ Some c.

(** The row [createJob] inserts for company [companyId], and the message
    it submits for it. *)
Definition created_row (env : Env) (companyId : string) (v : JobInput.t)
  : JobPost.t :=
  create_data companyId v (uuid env) DRAFT (now env) (now env).

Definition created_event (env : Env) (v : JobInput.t) : InngestEvent.t :=
  InngestEvent.mk "job/created" (uuid env) (Some (JobInput.listingDuration v)).

(** The world once the row is inserted and the message submitted. *)
Definition job_created (env : Env) (companyId : string) (v : JobInput.t)
    (w : World) : World :=
  mkWorld (set_jobPosts (<[uuid env := created_row env companyId v]>
                           (jobPosts (db w))) (db w))
          (inngest_sent w ++ [created_event env v])
          (stripe_customers w) (stripe_sessions w) (revalidated w).

(** The checkout session [createJob] asks for, and the world once it is
    asked for. *)
Definition checkout_request (customer : string) (tier : PricingTier.t)
    (jobId : string) : CheckoutRequest.t :=
  CheckoutRequest.mk customer
    ("Job Posting - " +:+ pretty (PricingTier.days tier) +:+ " Days")
    (PricingTier.description tier) (PricingTier.price tier * 100) jobId.

Definition checkout_requested (r : CheckoutRequest.t) (w : World) : World :=
  mkWorld (db w) (inngest_sent w) (stripe_customers w)
          (stripe_sessions w ++ [r]) (revalidated w).

(** The tier [createJob] looks up for a validated input. *)
Definition pricing_tier (pricing : list PricingTier.t) (v : JobInput.t)
  : option PricingTier.t :=
  find (λ tier, bool_decide (PricingTier.days tier = JobInput.listingDuration v))
       pricing.

(** ** Sample data

    A small store used to run the definitions: two company owners, a
    user without a company, and three job posts. *)

Module Sample.

Definition ann : User.t :=
  User.mk "u-ann" (Some "Ann") (Some "ann@acme.test") None None
          (Some "cus_ann") true (Some COMPANY).
Definition bob : User.t :=
  User.mk "u-bob" (Some "Bob") (Some "bob@bolt.test") None None
          None true (Some COMPANY).
Definition eve : User.t :=
  User.mk "u-eve" (Some "Eve") (Some "eve@mail.test") None None
          (Some "cus_eve") true (Some JOB_SEEKER).

Definition acme : Company.t :=
  Company.mk "c-acme" "Acme" "Berlin" "Acme builds anvils." "acme.png"
             "https://acme.test" None "u-ann" 1 1.
Definition bolt : Company.t :=
  Company.mk "c-bolt" "Bolt" "Paris" "Bolt builds bolts." "bolt.png"
             "https://bolt.test" (Some "@bolt") "u-bob" 2 2.

Definition dev : JobPost.t :=
  JobPost.mk "j-dev" "Developer" "full-time" "Berlin" 50000 70000
             "Write code" 30 ["health"] ACTIVE 10 10 "c-acme".
Definition ops : JobPost.t :=
  JobPost.mk "j-ops" "Operator" "part-time" "Paris" 30000 40000
             "Run things" 60 [] ACTIVE 20 20 "c-bolt".
Definition qa : JobPost.t :=
  JobPost.mk "j-qa" "Tester" "full-time" "Paris" 40000 50000
             "Break things" 30 [] DRAFT 30 30 "c-acme".

Definition store : Db :=
  mkDb (<["u-ann" := ann]> (<["u-bob" := bob]> (<["u-eve" := eve]> ∅)))
       (<["c-acme" := acme]> (<["c-bolt" := bolt]> ∅))
       (<["j-dev" := dev]> (<["j-ops" := ops]> (<["j-qa" := qa]> ∅)))
       ∅.

Definition world : World := mkWorld store [] [] [] [].

Definition dev_card : JobCard.t := select_card store dev.
Definition ops_card : JobCard.t := select_card store ops.

(** One active full-time job and nothing else. *)
Definition one_job : Db :=
  mkDb (<["u-ann" := ann]> ∅) (<["c-acme" := acme]> ∅) (<["j-dev" := dev]> ∅) ∅.

(** A test for [z.string().url()] good enough for the samples. *)
Definition is_url (s : string) : bool :=
  String.prefix "https://" s || String.prefix "http://" s.

Definition pricing : list PricingTier.t :=
  [PricingTier.mk 30 99 "Standard listing";
   PricingTier.mk 60 179 "Extended listing";
   PricingTier.mk 90 249 "Maximum exposure"].

Definition input : JobInput.t :=
  JobInput.mk "Engineer" "contract" "Lisbon" 60000 80000 "Build things" 30
              ["remote"; "equity"] "Acme" "Berlin" "Acme builds anvils."
              "acme.png" "https://acme.test" None.

(** The same input with a duration no tier offers. *)
Definition odd_input : JobInput.t :=
  JobInput.mk "Engineer" "contract" "Lisbon" 60000 80000 "Build things" 45
              ["remote"; "equity"] "Acme" "Berlin" "Acme builds anvils."
              "acme.png" "https://acme.test" None.

(** The odd input with a duration beyond the 32-bit integers. *)
Definition huge_input : JobInput.t :=
  JobInput.mk "Engineer" "contract" "Lisbon" 60000 80000 "Build things"
              3000000000 ["remote"; "equity"] "Acme" "Berlin"
              "Acme builds anvils." "acme.png" "https://acme.test" None.

Definition ann_session : SessionUser.t :=
  SessionUser.mk "u-ann" (Some "Ann") (Some "ann@acme.test").
Definition bob_session : SessionUser.t :=
  SessionUser.mk "u-bob" (Some "Bob") (Some "bob@bolt.test").
Definition eve_session : SessionUser.t :=
  SessionUser.mk "u-eve" (Some "Eve") (Some "eve@mail.test").

Definition ann_env : Env :=
  mkEnv (Some ann_session) false 500 "j-new" "cus_new" "https://pay.test/1".
Definition bob_env : Env :=
  mkEnv (Some bob_session) false 600 "j-new" "cus_bob" "https://pay.test/2".
Definition eve_env : Env :=
  mkEnv (Some eve_session) false 700 "s-new" "cus_new" "https://pay.test/3".
Definition eve_env' : Env :=
  mkEnv (Some eve_session) false 800 "s-next" "cus_new" "https://pay.test/4".

(** A verifier that accepts the signature "sig-ok", made at time 900,
    until it is more than 300 old, and reads the body as a completed
    checkout of customer [body] for job [jobId]. *)
Definition constructEvent (jobId : option string) (now_ : Z) (body : string)
    (sig : option string) : option StripeEvent.t :=
  if bool_decide (sig = Some "sig-ok") && bool_decide (now_ - 900 ≤ 300)
  then Some (StripeEvent.mk "checkout.session.completed" body jobId)
  else None.

End Sample.

(** * The views and handlers around the core

    The pages that read the store, the client-side handlers that build
    the listing's query, and the remaining server action [createCompany].
    A page ends by rendering, by [notFound()], by [redirect()] or with an
    exception. *)

Inductive View (A : Type) :=
  | Shown (a : A)
  | NotFound
  | Redirected (url : string)
  | Failed (e : Exn).
Arguments Shown {A} a.
Arguments NotFound {A}.
Arguments Redirected {A} url.
Arguments Failed {A} e.

(** ** Pagination control (components/general/MainPagination) *)

(** The integers on which the arithmetic of JavaScript numbers is
    exact ([Number.isSafeInteger]). *)
Definition safe_integer (z : Z) : Prop := - 2 ^ 53 < z < 2 ^ 53.

(** [generatePaginationItems]: page numbers, with [None] for an
    ellipsis.  The loops [for (i = a; i <= b; i++)] are [seqZ].  The
    code computes on JavaScript numbers; on safe integers its sums and
    differences are the ones taken here. *)
Definition generatePaginationItems (currentPage totalPages : Z)
  : list (option Z) :=
  if bool_decide (totalPages ≤ 5) then Some <$> seqZ 1 totalPages
  else if bool_decide (currentPage ≤ 3)
  then (Some <$> seqZ 1 3) ++ [None; Some totalPages]
  else if bool_decide (totalPages - 2 ≤ currentPage)
  then [Some 1; None] ++ (Some <$> seqZ (totalPages - 2) 3)
  else [Some 1; None; Some (currentPage - 1); Some currentPage;
        Some (currentPage + 1); None; Some totalPages].

(** The page the Previous and the Next button navigate to, if any. *)
Definition PaginationPrevious (currentPage : Z) : option Z :=
  if bool_decide (1 < currentPage) then Some (currentPage - 1) else None.

Definition PaginationNext (currentPage totalPages : Z) : option Z :=
  if bool_decide (currentPage < totalPages) then Some (currentPage + 1)
  else None.

(** The page numbers among the items. *)
Definition shown_pages (items : list (option Z)) : list Z := omap id items.

(** ** Relative posting dates (lib/formatTime) *)

Definition day_ms : Z := 1000 * 60 * 60 * 24.

(** [formatTime(date)] at the time [now_], both in milliseconds.  The
    difference of two valid dates is below 2^27 days, where the floor of
    the floating-point quotient is the floor of the exact one. *)
Definition formatTime (now_ date : Z) : string :=
  let diffInDays := (now_ - date) `div` day_ms in
  if bool_decide (diffInDays = 0) then "Posted Today"
  else if bool_decide (diffInDays = 1) then "Posted 1 Day ago"
  else "Posted " +:+ pretty diffInDays +:+ " days ago".

(** ** Benefit selection (components/general/BenefitsSelector) *)

(** [toggleBenefit(benefitId)] on the field value [field.value]: the new
    value passed to [field.onChange]. *)
Definition toggleBenefit (field_value : option (list string))
    (benefitId : string) : list string :=
  let currentBenefits := default [] field_value in
  if bool_decide (benefitId ∈ currentBenefits)
  then filter (λ id, id ≠ benefitId) currentBenefits
  else currentBenefits ++ [benefitId].

(** ** Query strings

    A query string is the list of its name/value pairs, in order: what
    [URLSearchParams] parses it to and serialises it from. *)

Definition URLSearchParams_get (name : string) (p : list (string * string))
  : option string :=
  snd <$> find (λ kv, bool_decide (kv.1 = name)) p.

Definition URLSearchParams_delete (name : string) (p : list (string * string))
  : list (string * string) :=
  filter (λ kv, kv.1 ≠ name) p.

(** [set]: the first pair of that name takes the value and the others
    go; without such a pair one is appended. *)
Fixpoint URLSearchParams_set (name value : string) (p : list (string * string))
  : list (string * string) :=
  match p with
  | [] => [(name, value)]
  | (k, v) :: p' =>
      if bool_decide (k = name)
      then (name, value) :: URLSearchParams_delete name p'
      else (k, v) :: URLSearchParams_set name value p'
  end.

(** ** Listing filters (components/general/JobFillters) *)

(** [new Set(array)]: the elements in order of first occurrence. *)
Fixpoint Set_from (l : list string) : list string :=
  match l with
  | [] => []
  | x :: l' => x :: filter (λ y, y ≠ x) (Set_from l')
  end.

Definition Set_add (x : string) (s : list string) : list string :=
  if bool_decide (x ∈ s) then s else s ++ [x].

Definition Set_delete (x : string) (s : list string) : list string :=
  filter (λ y, y ≠ x) s.

(** [array.join(sep)] *)
Fixpoint join (sep : string) (l : list string) : string :=
  match l with
  | [] => ""
  | [x] => x
  | x :: l' => x +:+ sep +:+ join sep l'
  end.

(** [searchParams.get("jobTypes")?.split(",") || []] *)
Definition currentJobTypes (searchParams : list (string * string))
  : list string :=
  match URLSearchParams_get "jobTypes" searchParams with
  | Some s => split "," s
  | None => []
  end.

(** [searchParams.get("location") || ""] *)
Definition currentLocation (searchParams : list (string * string)) : string :=
  default "" (URLSearchParams_get "location" searchParams).

(** [createQueryString(name, value)]: the query the handlers navigate
    to. *)
Definition createQueryString (searchParams : list (string * string))
    (name value : string) : list (string * string) :=
  if bool_decide (value ≠ "") then URLSearchParams_set name value searchParams
  else URLSearchParams_delete name searchParams.

Definition handleJobTypeChange (searchParams : list (string * string))
    (jobType : string) (checked : bool) : list (string * string) :=
  let current := Set_from (currentJobTypes searchParams) in
  let current := if checked then Set_add jobType current
                 else Set_delete jobType current in
  let newValue := join "," current in
  createQueryString searchParams "jobTypes" newValue.

Definition handleLocationChange (searchParams : list (string * string))
    (location : string) : list (string * string) :=
  createQueryString searchParams "location" location.

(** [handlePageChange(page)] of the pagination control. *)
Definition handlePageChange (searchParams : list (string * string))
    (page : Z) : list (string * string) :=
  URLSearchParams_set "page" (pretty page) searchParams.

(** A string without the separator of the [jobTypes] parameter. *)
Definition comma_free (s : string) : Prop :=
  ","%char ∉ list_ascii_of_string s.

(** ** Store queries of the pages *)

(** [prisma.jobPost.findUnique({ where: { id, ...extra } })] *)
Definition jobPost_findUnique (id : string) (extra : Db → JobPost.t → bool)
    (d : Db) : option JobPost.t :=
  match jobPosts d !! id with
  | Some j => if extra d j then Some j else None
  | None => None
  end.

(** The filter [status: s] of a job-post [where]. *)
Definition status_is (s : JobPostStatus) (d : Db) (j : JobPost.t) : bool :=
  bool_decide (JobPost.status j = s).

(** [prisma.savedJobPost.findUnique({ where: { userId_jobPostId: { userId,
    jobPostId } } })] *)
Definition savedJobPost_findUnique_userId_jobPostId (userId jobPostId : string)
    (d : Db) : option SavedJobPost.t :=
  snd <$> list_find (λ s, SavedJobPost.userId s = userId
                          ∧ SavedJobPost.jobPostId s = jobPostId)
                    (rows (savedJobPosts d)).

(** ** Job detail page (app/(mainLayout)/job/[jobId]/page.tsx) *)

Module JobDetail.
Record t := mk {
  jobTitle : string;
  jobDescription : string;
  location : string;
  employmentType : string;
  benefits : list string;
  createdAt : Z;
  listingDuration : Z;
  Company : option CompanyCard.t
}.
End JobDetail.

Definition select_detail (d : Db) (j : JobPost.t) : JobDetail.t :=
  JobDetail.mk (JobPost.jobTitle j) (JobPost.jobDescription j)
               (JobPost.location j) (JobPost.employmentType j)
               (JobPost.benefits j) (JobPost.createdAt j)
               (JobPost.listingDuration j)
               (select_company <$> companies d !! JobPost.companyId j).

(** [getJob(jobId, userId)]: the job, if it is ACTIVE, and the id of the
    user's saved record for it, if there is a user and a record. *)
Definition getJob (jobId : string) (userId : option string) (d : Db)
  : View (JobDetail.t * option string) :=
  let jobData := select_detail d <$> jobPost_findUnique jobId (status_is ACTIVE) d in
  let savedJob :=
    if falsy userId then None
    else SavedJobPost.id <$>
           savedJobPost_findUnique_userId_jobPostId (default "" userId) jobId d in
  match jobData with
  | None => NotFound
  | Some jobData => Shown (jobData, savedJob)
  end.

(** What the page puts in place of the save button. *)
Inductive SaveControl :=
  | LoginLink                              (* a link to /login *)
  | UnsaveForm (savedJobPostId : string)   (* unSaveJobPost.bind(null, id) *)
  | SaveForm (jobId : string).             (* saveJobPost.bind(null, jobId) *)

Section JobPage.

(** Whether [JSON.parse] accepts a text. *)
Variable JSON_parses : string → bool.

(** The page is rendered as a whole: the save control, and the
    description through [JSON.parse(data.jobDescription)], which throws
    on a text that is no JSON document. *)
Definition JobIdPage (env : Env) (jobId : string) (d : Db)
  : View (JobDetail.t * SaveControl) :=
  if denied env then Failed (Error "forbidden")
  else
    match getJob jobId (SessionUser.id <$> session env) d with
    | Shown (data, savedJob) =>
        if JSON_parses (JobDetail.jobDescription data)
        then
          Shown (data,
                 match session env with
                 | Some _ =>
                     match savedJob with
                     | Some id => UnsaveForm id
                     | None => SaveForm jobId
                     end
                 | None => LoginLink
                 end)
        else Failed SyntaxError
    | NotFound => NotFound
    | Redirected url => Redirected url
    | Failed e => Failed e
    end.

End JobPage.

(** Submitting the form of the save button (following the link, for a
    visitor). *)
Definition submit (env : Env) (c : SaveControl) : M unit :=
  match c with
  | LoginLink => redirect "/login"
  | UnsaveForm savedJobPostId => unSaveJobPost env savedJobPostId
  | SaveForm jobId => saveJobPost env jobId
  end.

(** ** My jobs page (app/(mainLayout)/my-jobs/page.tsx) *)

Module MyJob.
Record t := mk {
  id : string;
  jobTitle : string;
  status : JobPostStatus;
  createdAt : Z;
  Company : option (string * string)     (* name, logo *)
}.
End MyJob.

Definition select_my_job (d : Db) (j : JobPost.t) : MyJob.t :=
  MyJob.mk (JobPost.id j) (JobPost.jobTitle j) (JobPost.status j)
           (JobPost.createdAt j)
           ((λ c, (Company.name c, Company.logo c))
              <$> companies d !! JobPost.companyId j).

Definition getJobs (userId : string) (d : Db) : list MyJob.t :=
  select_my_job d <$>
    merge_sort newer_first
      (filter (λ j, Company_userId_is userId d j = true) (rows (jobPosts d))).

(** ** Favorites page (app/(mainLayout)/favorites/page.tsx) *)

(** [getFavorites(userId)]: for each saved record of the user, the card
    of its job (the [JobPost] relation; [None] only if the job row is
    missing, which the foreign key excludes).  No order is asked for. *)
Definition getFavorites (userId : string) (d : Db) : list (option JobCard.t) :=
  (λ s, select_card d <$> jobPosts d !! SavedJobPost.jobPostId s)
    <$> filter (λ s, SavedJobPost.userId s = userId) (rows (savedJobPosts d)).

(** ** Edit page (component [EditPage]) *)

Module CompanyForm.
Record t := mk {
  about : string;
  name : string;
  location : string;
  website : string;
  xAccount : option string;
  logo : string
}.
End CompanyForm.

Definition select_company_form (c : Company.t) : CompanyForm.t :=
  CompanyForm.mk (Company.about c) (Company.name c) (Company.location c)
                 (Company.website c) (Company.xAccount c) (Company.logo c).

Module EditData.
Record t := mk {
  benefits : list string;
  id : string;
  jobTitle : string;
  jobDescription : string;
  salaryFrom : Z;
  salaryTo : Z;
  location : string;
  employmentType : string;
  listingDuration : Z;
  Company : option CompanyForm.t
}.
End EditData.

Definition select_edit (d : Db) (j : JobPost.t) : EditData.t :=
  EditData.mk (JobPost.benefits j) (JobPost.id j) (JobPost.jobTitle j)
              (JobPost.jobDescription j) (JobPost.salaryFrom j)
              (JobPost.salaryTo j) (JobPost.location j)
              (JobPost.employmentType j) (JobPost.listingDuration j)
              (select_company_form <$> companies d !! JobPost.companyId j).

(** [getData(jobId, userId)] of the edit page. *)
Definition EditPage_getData (jobId userId : string) (d : Db) : View EditData.t :=
  match jobPost_findUnique jobId (Company_userId_is userId) d with
  | Some j => Shown (select_edit d j)
  | None => NotFound
  end.

Definition EditPage (env : Env) (jobId : string) (d : Db) : View EditData.t :=
  match session env with
  | None => Redirected "/login"
  | Some session => EditPage_getData jobId (SessionUser.id session) d
  end.

(** ** Post-job page (app/(mainLayout)/post-job/page.tsx) *)

Definition getCompanyData (userId : string) (d : Db) : View CompanyForm.t :=
  match company_findUnique_userId userId d with
  | Some c => Shown (select_company_form c)
  | None => Redirected "/"
  end.

Definition PostJobPage (env : Env) (d : Db) : View CompanyForm.t :=
  match session env with
  | None => Redirected "/login"
  | Some session => getCompanyData (SessionUser.id session) d
  end.

(** ** Onboarding (component [OnBoardingPage] and [createCompany]) *)

(** [checkOnboardingstatus(userId)]: the selected field of the user row,
    if there is one, unless onboarding is complete. *)
Definition checkOnboardingstatus (userId : string) (d : Db)
  : View (option bool) :=
  match users d !! userId with
  | Some u =>
      if User.onBoardingCompleted u then Redirected "/"
      else Shown (Some (User.onBoardingCompleted u))
  | None => Shown None
  end.

Definition OnBoardingPage (env : Env) (d : Db) : View unit :=
  match session env with
  | None => Redirected "/login"
  | Some session =>
      match checkOnboardingstatus (SessionUser.id session) d with
      | Shown _ => Shown tt
      | NotFound => NotFound
      | Redirected url => Redirected url
      | Failed e => Failed e
      end
  end.

(** [z.infer<typeof companySchema>] *)
Module CompanyInput.
Record t := mk {
  name : string;
  location : string;
  about : string;
  logo : string;
  website : string;
  xAccount : option string
}.
End CompanyInput.

(** [prisma.user.update({ where: { id }, data: { onBoardingCompleted:
    true, userType: "COMPANY", Company: { create: data } } })]: one
    statement.  The user's [Company] is a one-to-one relation the company
    row requires: when the user has a company already, the nested create
    would leave that row without its user and the store's client refuses
    the statement before any insert; otherwise the row is inserted under
    a new id. *)
Definition user_update_create_Company (id companyId : string) (now_ : Z)
    (data : CompanyInput.t) (d : Db) : Exn + (User.t * Db) :=
  match users d !! id with
  | None => inl RecordNotFound
  | Some u =>
      match list_find (λ c, Company.userId c = id) (rows (companies d)) with
      | Some _ => inl RelationViolation
      | None =>
          match companies d !! companyId with
          | Some _ => inl (UniqueConstraint ["id"])
          | None =>
              let u' := User.mk (User.id u) (User.name u) (User.email u)
                          (User.emailVerified u) (User.image u)
                          (User.stripeCustomerId u) true (Some COMPANY) in
              let c := Company.mk companyId (CompanyInput.name data)
                         (CompanyInput.location data) (CompanyInput.about data)
                         (CompanyInput.logo data) (CompanyInput.website data)
                         (CompanyInput.xAccount data) id now_ now_ in
              inr (u', mkDb (<[id := u']> (users d))
                            (<[companyId := c]> (companies d))
                            (jobPosts d) (savedJobPosts d))
          end
      end
  end.

Section Onboarding.

Variable is_url : string → bool.

(** [companySchema.parse(data)] *)
Definition companySchema_valid (v : CompanyInput.t) : bool :=
  min_length 2 (CompanyInput.name v)
  && min_length 1 (CompanyInput.location v)
  && min_length 10 (CompanyInput.about v)
  && min_length 1 (CompanyInput.logo v)
  && is_url (CompanyInput.website v).

Definition companySchema_parse (data : CompanyInput.t) : M CompanyInput.t :=
  if companySchema_valid data then ret data else throw ZodError.

Definition createCompany (env : Env) (data : CompanyInput.t) : M unit :=
  let* session := reqUser env in
  protect env;;
  let* validateData := companySchema_parse data in
  statement (user_update_create_Company (SessionUser.id session) (uuid env)
               (now env) validateData);;
  redirect "/".

End Onboarding.

(** ** The listing with its pagination (JobListingsContent, MainPagination) *)

(** A page link of the control: its number and whether it is
    highlighted ([isActive={page === currentPage}]). *)
Module PaginationLink.
Record t := mk {
  page : Z;
  isActive : bool
}.
End PaginationLink.

(** What [MainPagination] renders: the page the Previous button
    navigates to, if it navigates, the items ([None] for an ellipsis),
    and the page the Next button navigates to, if it navigates. *)
Module Pagination.
Record t := mk {
  previous : option Z;
  items : list (option PaginationLink.t);
  next : option Z
}.
End Pagination.

Definition MainPagination (currentPage totalPages : Z) : Pagination.t :=
  Pagination.mk
    (PaginationPrevious currentPage)
    ((λ page : option Z,
        match page with
        | None => None
        | Some page =>
            Some (PaginationLink.mk page (bool_decide (page = currentPage)))
        end) <$> generatePaginationItems currentPage totalPages)
    (PaginationNext currentPage totalPages).

(** What [JobListingsContent] renders: the empty state, or the cards
    with the pagination control.  The control is modelled for an integer
    [totalPages]; the page size 2 of the component yields no other.  The
    component is modelled for an integer [currentPage], as the links and
    buttons of the control produce it; a query written by hand can make
    the home page pass a number that is no integer, which is outside
    this definition. *)
Inductive ListingView :=
  | EmptyState
  | Listing (jobs : list JobCard.t) (pagination : option Pagination.t).

Definition JobListingsContent (currentPage : Z) (jobTypes : list string)
    (location : string) (d : Db) : Exn + ListingView :=
  match getData currentPage 2 jobTypes location d with
  | inl e => inl e
  | inr r =>
      if bool_decide (length (ListingPage.jobs r) = 0%nat) then inr EmptyState
      else inr (Listing (ListingPage.jobs r)
                  match ListingPage.totalPages r with
                  | Num totalPages =>
                      Some (MainPagination currentPage totalPages)
                  | _ => None
                  end)
  end.

(** ** Vocabulary of the statements below *)

(** A request keeps the constraints of the schema: however it ends, a
    store that met them before meets them after. *)
Definition keeps_constraints {A} (m : M A) : Prop :=
  ∀ w, db_wf (db w) → db_wf (db (m w).2).

(** ** More sample data *)

Module Sample2.

(** Eve has saved the developer job and the draft. *)
Definition eve_dev : SavedJobPost.t :=
  SavedJobPost.mk "s-1" "j-dev" "u-eve" 40 40.
Definition eve_qa : SavedJobPost.t :=
  SavedJobPost.mk "s-2" "j-qa" "u-eve" 41 41.

Definition store : Db :=
  mkDb (users Sample.store) (companies Sample.store) (jobPosts Sample.store)
       (<["s-1" := eve_dev]> (<["s-2" := eve_qa]> ∅)).

Definition world : World := mkWorld store [] [] [] [].

Definition company_input : CompanyInput.t :=
  CompanyInput.mk "Eve Ltd" "Oslo" "Eve Ltd makes apples." "eve.png"
                  "https://eve.test" None.

Definition eve_onboarding : Env :=
  mkEnv (Some Sample.eve_session) false 900 "c-eve" "cus_x" "https://pay.test/9".

(** The sample store once the draft is paid for: three ACTIVE jobs. *)
Definition busy_store : Db :=
  mkDb (users Sample.store) (companies Sample.store)
       (<["j-qa" := with_status ACTIVE Sample.qa]> (jobPosts Sample.store))
       ∅.

(** A test for [JSON.parse] good enough for the samples: it accepts
    three documents. *)
Definition JSON_parses (s : string) : bool :=
  bool_decide (s ∈ ["{}"; "[]"; "null"]).

(** A job whose description is a JSON document, and the sample store
    with it. *)
Definition doc : JobPost.t :=
  JobPost.mk "j-doc" "Writer" "contract" "Berlin" 20000 30000
             "{}" 30 [] ACTIVE 40 40 "c-acme".

Definition doc_store : Db :=
  mkDb (users Sample.store) (companies Sample.store)
       (<["j-doc" := doc]> (jobPosts Sample.store)) ∅.

Definition doc_world : World := mkWorld doc_store [] [] [] [].

(** Bob's next request, with fresh ids. *)
Definition bob_next : Env :=
  mkEnv (Some Sample.bob_session) false 650 "j-next" "cus_other"
        "https://pay.test/5".

End Sample2.

(** * Properties of the listing query *)

(** Settles a decidable statement about concrete data by running its
    decision procedure. *)
Ltac by_evaluation :=
  match goal with
  | |- ?P =>
      let H := fresh in
      assert (H : bool_decide P) by (vm_compute; exact I);
      exact (bool_decide_unpack _ H)
  end.

Section listing_facts.

Implicit Types (d : Db) (w : JobPostWhereInput.t) (j : JobPost.t).
Implicit Types (T : list string) (L : string).

Lemma elem_of_matching w d j :
  j ∈ matching w d ↔ job_matches w j = true ∧ j ∈ rows (jobPosts d).
Proof.
  unfold matching. rewrite merge_sort_Permutation.
  by rewrite list_elem_of_filter.
Qed.

Lemma length_matching w d : length (matching w d) = jobPost_count w d.
Proof.
  unfold matching, jobPost_count.
  apply Permutation_length, merge_sort_Permutation.
Qed.

Lemma matching_sorted w d : StronglySorted newer_first (matching w d).
Proof. unfold matching. apply StronglySorted_merge_sort; apply _. Qed.

Lemma StronglySorted_sublist {A} (R : relation A) (l1 l2 : list A) :
  l1 `sublist_of` l2 → StronglySorted R l2 → StronglySorted R l1.
Proof.
  induction 1 as [|x l1 l2 Hsub IH|x l1 l2 Hsub IH]; intros Hs.
  - constructor.
  - apply StronglySorted_inv in Hs as [Hs Hall]. constructor; [by apply IH|].
    apply Forall_forall. intros y Hy.
    eapply Forall_forall in Hall; [done|]. by eapply elem_of_sublist.
  - apply StronglySorted_inv in Hs as [Hs _]. by apply IH.
Qed.

(** The window with a non-negative [take] is a slice. *)
Lemma window_slice {A} (t s : Z) (l : list A) :
  0 ≤ t → window t s l = take (Z.to_nat t) (drop (Z.to_nat s) l).
Proof. intros Ht. unfold window. by rewrite bool_decide_eq_true_2. Qed.

Lemma window_sublist {A} (t s : Z) (l : list A) :
  0 ≤ t → window t s l `sublist_of` l.
Proof.
  intros Ht. rewrite window_slice by done.
  etrans; [apply sublist_take | apply sublist_drop].
Qed.

(** The [where] object of the listing, read as a condition on a row. *)
Lemma listing_where_spec T L j :
  job_matches (listing_where T L) j = true ↔
    JobPost.status j = ACTIVE
    ∧ (T = [] ∨ JobPost.employmentType j ∈ T)
    ∧ (L = "" ∨ L = "worldwide" ∨ JobPost.location j = L).
Proof.
  unfold job_matches, listing_where; simpl.
  rewrite !andb_true_iff, bool_decide_eq_true.
  assert (Htypes :
    match (if bool_decide (0 < length T)%nat then Some T else None) with
    | Some ts => bool_decide (JobPost.employmentType j ∈ ts)
    | None => true
    end = true ↔ T = [] ∨ JobPost.employmentType j ∈ T).
  { destruct T as [|t T'].
    - simpl. split; auto.
    - rewrite bool_decide_eq_true_2 by (simpl; lia).
      rewrite bool_decide_eq_true. split; [auto | by intros [?|?]]. }
  assert (Hloc :
    match (if bool_decide (L ≠ "") && bool_decide (L ≠ "worldwide")
           then Some L else None) with
    | Some l => bool_decide (JobPost.location j = l)
    | None => true
    end = true ↔ L = "" ∨ L = "worldwide" ∨ JobPost.location j = L).
  { destruct (decide (L = "")) as [->|Hne]; [simpl; split; auto|].
    destruct (decide (L = "worldwide")) as [->|Hnw]; [simpl; split; auto|].
    rewrite !bool_decide_eq_true_2 by done. simpl.
    rewrite bool_decide_eq_true. split; [auto | by intros [?|[?|?]]]. }
  rewrite Htypes, Hloc. tauto.
Qed.

(** What [getData] returns whenever the store accepts the page query. *)
Lemma getData_inr page pageSize T L d :
  0 ≤ (page - 1) * pageSize →
  getData page pageSize T L d =
    inr (ListingPage.mk
           (select_card d <$> window pageSize ((page - 1) * pageSize)
                                (matching (listing_where T L) d))
           (Math_ceil_div
              (Z.of_nat (jobPost_count
                           (JobPostWhereInput.mk (Some ACTIVE) None None) d))
              pageSize)).
Proof.
  intros Hskip. unfold getData, jobPost_findMany.
  by rewrite bool_decide_eq_false_2 by lia.
Qed.

Lemma getData_inv page pageSize T L d r :
  getData page pageSize T L d = inr r →
  ListingPage.jobs r =
    select_card d <$> window pageSize ((page - 1) * pageSize)
                        (matching (listing_where T L) d)
  ∧ ListingPage.totalPages r =
      Math_ceil_div
        (Z.of_nat (jobPost_count
                     (JobPostWhereInput.mk (Some ACTIVE) None None) d))
        pageSize.
Proof.
  unfold getData, jobPost_findMany. case_bool_decide; [done|].
  intros [= <-]. done.
Qed.

End listing_facts.

Lemma ceil_quot_spec (n d : Z) :
  0 < d → d * (ceil_quot n d - 1) < n ≤ d * ceil_quot n d.
Proof.
  intros Hd. unfold ceil_quot.
  pose proof (Z.div_mod (- n) d ltac:(lia)) as Hdm.
  pose proof (Z.mod_pos_bound (- n) d Hd) as Hb.
  nia.
Qed.

Lemma ceil_quot_mono (n m d : Z) :
  0 < d → n ≤ m → ceil_quot n d ≤ ceil_quot m d.
Proof.
  intros Hd Hnm. unfold ceil_quot.
  assert ((- m) `div` d ≤ (- n) `div` d) by (apply Z.div_le_mono; lia). lia.
Qed.

Lemma window_elem_of {A} (t s : Z) (l : list A) (x : A) :
  x ∈ window t s l → x ∈ l.
Proof.
  unfold window. case_bool_decide.
  - intros Hx. eapply elem_of_sublist; [done|].
    etrans; [apply sublist_take | apply sublist_drop].
  - rewrite elem_of_reverse. intros Hx. apply elem_of_reverse.
    eapply elem_of_sublist; [done|].
    etrans; [apply sublist_take | apply sublist_drop].
Qed.

Lemma count_active d :
  Z.of_nat (jobPost_count (JobPostWhereInput.mk (Some ACTIVE) None None) d)
  = active_count d.
Proof.
  unfold jobPost_count, active_count. f_equal. f_equal.
  apply list_filter_iff. intros j. unfold job_matches; simpl.
  rewrite !andb_true_r. apply bool_decide_eq_true.
Qed.

Lemma count_filtered_le_active T L d :
  Z.of_nat (jobPost_count (listing_where T L) d) ≤ active_count d.
Proof.
  unfold jobPost_count, active_count. apply inj_le.
  induction (rows (jobPosts d)) as [|j l IH]; [done|].
  rewrite !filter_cons.
  destruct (decide (job_matches (listing_where T L) j = true)) as [Hm|Hm].
  - apply listing_where_spec in Hm as [Hs _].
    rewrite decide_True by done. simpl. lia.
  - case_decide; simpl; lia.
Qed.

(** Every card of the listing comes from a stored row that passes the
    [where] object of the listing. *)
Lemma getData_cards page pageSize T L d r card :
  getData page pageSize T L d = inr r →
  card ∈ ListingPage.jobs r →
  ∃ j, j ∈ rows (jobPosts d) ∧ card = select_card d j
       ∧ job_matches (listing_where T L) j = true.
Proof.
  intros [Hjobs _]%getData_inv Hcard. rewrite Hjobs in Hcard.
  apply list_elem_of_fmap in Hcard as (j & -> & Hj).
  apply window_elem_of, elem_of_matching in Hj as [Hm Hrow].
  by exists j.
Qed.

(** C4.  Every card the listing returns is the card of a stored row whose
    status is ACTIVE; when the set [T] of employment types is not empty the
    card's type is a member of [T]; when the location [L] is neither empty
    nor "worldwide" the card's location is [L]; and when [L] is empty or
    "worldwide" the [where] object has no location key: a row is selected
    exactly on its status and type. *)
Theorem getData_filters page pageSize T L d r :
  getData page pageSize T L d = inr r →
  (∀ card, card ∈ ListingPage.jobs r →
     ∃ j, j ∈ rows (jobPosts d) ∧ card = select_card d j
          ∧ JobPost.status j = ACTIVE
          ∧ (T ≠ [] → JobCard.employmentType card ∈ T)
          ∧ (L ≠ "" → L ≠ "worldwide" → JobCard.location card = L))
  ∧ (L = "" ∨ L = "worldwide" →
       JobPostWhereInput.location (listing_where T L) = None
       ∧ ∀ j, job_matches (listing_where T L) j = true ↔
              JobPost.status j = ACTIVE
              ∧ (T = [] ∨ JobPost.employmentType j ∈ T)).
Proof.
  intros Hr. split.
  - intros card Hcard.
    destruct (getData_cards _ _ _ _ _ _ _ Hr Hcard) as (j & Hrow & -> & Hm).
    apply listing_where_spec in Hm as (Hs & Ht & Hl).
    exists j. simpl. split_and!; [done..| |].
    + intros HT. by destruct Ht.
    + intros H1 H2. by destruct Hl as [?|[?|?]].
  - intros HL. split.
    + unfold listing_where; simpl. by destruct HL as [-> | ->].
    + intros j. rewrite listing_where_spec. tauto.
Qed.

Lemma getData_filters_witness :
  ∃ j, j ∈ rows (jobPosts Sample.store)
       ∧ Sample.dev_card = select_card Sample.store j
       ∧ JobPost.status j = ACTIVE
       ∧ JobCard.employmentType Sample.dev_card ∈ ["full-time"; "contract"]
       ∧ JobCard.location Sample.dev_card = "Berlin".
Proof.
  destruct (getData_filters 1 2 ["full-time"; "contract"] "Berlin" Sample.store
              (ListingPage.mk [Sample.dev_card] (Num 1)))
    as [Hsound _]; [vm_compute; reflexivity|].
  destruct (Hsound Sample.dev_card) as (j & Hj & Hcard & Hs & Ht & Hl);
    [left|].
  exists j. split; [exact Hj|]. split; [exact Hcard|]. split; [exact Hs|].
  split; [apply Ht; discriminate | apply Hl; discriminate].
Defined.

(** C5.  For a page [p ≥ 1] and a page size [s ≥ 0] the listing query is
    answered (no error): it skips the first [(p-1)*s] of the selected rows
    in newest-first order and returns the next [s] at most, so the cards
    are in descending order of creation time, and a page that starts at or
    after the end of the selected rows is empty. *)
Theorem getData_page page pageSize T L d :
  1 ≤ page → 0 ≤ pageSize →
  ∃ r, getData page pageSize T L d = inr r
    ∧ ListingPage.jobs r =
        select_card d <$> take (Z.to_nat pageSize)
                            (drop (Z.to_nat ((page - 1) * pageSize))
                               (matching (listing_where T L) d))
    ∧ Z.of_nat (length (ListingPage.jobs r)) ≤ pageSize
    ∧ StronglySorted (λ a b, JobCard.createdAt b ≤ JobCard.createdAt a)
                     (ListingPage.jobs r)
    ∧ (Z.of_nat (length (matching (listing_where T L) d))
         ≤ (page - 1) * pageSize →
       ListingPage.jobs r = []).
Proof.
  intros Hp Hs. eexists. split; [apply getData_inr; nia|]. simpl.
  rewrite window_slice by done. split_and!.
  - done.
  - rewrite length_fmap, length_take. lia.
  - apply (StronglySorted_fmap _ newer_first); [by intros x y|].
    eapply StronglySorted_sublist; [|apply matching_sorted].
    etrans; [apply sublist_take | apply sublist_drop].
  - intros Hlast. rewrite drop_ge by lia. by rewrite take_nil.
Qed.

Lemma getData_page_witness :
  ∃ r, getData 2 1 [] "worldwide" Sample.store = inr r
    ∧ ListingPage.jobs r = [Sample.dev_card]
    ∧ Z.of_nat (length (ListingPage.jobs r)) ≤ 1.
Proof.
  destruct (getData_page 2 1 [] "worldwide" Sample.store ltac:(lia) ltac:(lia))
    as (r & Hr & Hjobs & Hlen & _).
  exists r. split; [exact Hr|]. split; [|exact Hlen].
  rewrite Hjobs. vm_compute. reflexivity.
Defined.

(** In the store with one full-time job a filter on another type selects
    nothing, while the job counts as active. *)
Lemma one_job_no_match L :
  matching (listing_where ["no-such-type"] L) Sample.one_job = [].
Proof.
  apply Permutation_nil_r. unfold matching.
  rewrite merge_sort_Permutation.
  replace (rows (jobPosts Sample.one_job)) with [Sample.dev]
    by (vm_compute; reflexivity).
  rewrite filter_cons, decide_False; [reflexivity|].
  rewrite listing_where_spec. intros (_ & [Hnil|Hin] & _); [discriminate Hnil|].
  apply list_elem_of_singleton in Hin. discriminate Hin.
Qed.

Lemma one_job_active_count : active_count Sample.one_job = 1.
Proof. vm_compute. reflexivity. Qed.

(** C1.  For a page [p ≥ 1] and a page size [s > 0], whatever the type and
    location filters, the listing query reports as [totalPages] the least
    integer [t] with [N ≤ s * t], where [N] counts all rows with status
    ACTIVE: the filters play no part in it, so it is at least the number
    of pages the filtered rows fill.  And for some store and filter it is
    strictly larger: one page is reported while no row passes the filter
    and every page is empty. *)
Theorem getData_totalPages page pageSize T L d :
  1 ≤ page → 0 < pageSize →
  (∃ r t, getData page pageSize T L d = inr r
     ∧ ListingPage.totalPages r = Num t
     ∧ t = ceil_quot (active_count d) pageSize
     ∧ pageSize * (t - 1) < active_count d ≤ pageSize * t
     ∧ (∀ T' L', ∃ r', getData page pageSize T' L' d = inr r'
                       ∧ ListingPage.totalPages r' = Num t)
     ∧ ceil_quot (Z.of_nat (length (matching (listing_where T L) d))) pageSize
         ≤ t)
  ∧ (∃ d' T' r', T' ≠ []
     ∧ getData page pageSize T' L d' = inr r'
     ∧ ListingPage.jobs r' = []
     ∧ matching (listing_where T' L) d' = []
     ∧ ListingPage.totalPages r' = Num 1
     ∧ ceil_quot (Z.of_nat (length (matching (listing_where T' L) d')))
                 pageSize = 0).
Proof.
  intros Hp Hs.
  assert (Htotal : ∀ T0 L0 d0,
    getData page pageSize T0 L0 d0 =
      inr (ListingPage.mk
             (select_card d0 <$> window pageSize ((page - 1) * pageSize)
                                   (matching (listing_where T0 L0) d0))
             (Num (ceil_quot (active_count d0) pageSize)))).
  { intros T0 L0 d0. rewrite getData_inr by nia. rewrite count_active.
    unfold Math_ceil_div. by rewrite bool_decide_eq_false_2 by lia. }
  split.
  - eexists _, _. split; [apply Htotal|].
    cbn [ListingPage.jobs ListingPage.totalPages]. split_and!.
    + done.
    + done.
    + by apply ceil_quot_spec.
    + by apply ceil_quot_spec.
    + intros T' L'. eexists. split; [apply Htotal|done].
    + apply ceil_quot_mono; [done|]. rewrite length_matching.
      apply count_filtered_le_active.
  - exists Sample.one_job, ["no-such-type"]. eexists.
    split; [done|]. split; [apply Htotal|].
    cbn [ListingPage.jobs ListingPage.totalPages].
    rewrite one_job_no_match, one_job_active_count. clear Htotal.
    split_and!; [| reflexivity | | reflexivity].
    + unfold window. change (reverse (@nil JobPost.t)) with (@nil JobPost.t).
      rewrite drop_nil, take_nil.
      by rewrite bool_decide_eq_true_2 by lia.
    + f_equal. unfold ceil_quot.
      assert ((- (1)) `div` pageSize = -1); [|lia].
      symmetry. apply (Z.div_unique_pos _ _ _ (pageSize - 1)); lia.
Qed.

Lemma getData_totalPages_witness :
  ∃ r t, getData 1 2 ["part-time"] "Paris" Sample.store = inr r
     ∧ ListingPage.totalPages r = Num t
     ∧ t = ceil_quot (active_count Sample.store) 2.
Proof.
  destruct (getData_totalPages 1 2 ["part-time"] "Paris" Sample.store
              ltac:(lia) ltac:(lia)) as [(r & t & Hr & Ht & Heq & _) _].
  exists r, t. split; [exact Hr|]. split; [exact Ht|exact Heq].
Defined.

(** C10.  A [jobTypes] query parameter that is present but empty splits
    into the one-element list holding the empty string, which [getData]
    takes as a type filter: every card of the listing has the empty string
    as employment type, and when no stored row has it the listing is
    empty, whereas without the parameter the rows with status ACTIVE are
    listed. *)
Theorem empty_jobTypes_parameter currentPage location d r :
  Home_listing currentPage (Some "") location d = inr r →
  jobTypesSplit (Some "") = [""]
  ∧ jobTypesSplit None = []
  ∧ (∀ card, card ∈ ListingPage.jobs r → JobCard.employmentType card = "")
  ∧ ((∀ j, j ∈ rows (jobPosts d) → JobPost.employmentType j ≠ "") →
     ListingPage.jobs r = [])
  ∧ (∃ r0 r1,
       Home_listing 1 None None Sample.store = inr r0
       ∧ ListingPage.jobs r0 = [Sample.ops_card; Sample.dev_card]
       ∧ Home_listing 1 (Some "") None Sample.store = inr r1
       ∧ ListingPage.jobs r1 = []).
Proof.
  intros Hr. unfold Home_listing in Hr. simpl in Hr.
  assert (Hcards : ∀ card, card ∈ ListingPage.jobs r →
                           JobCard.employmentType card = "").
  { intros card Hcard.
    destruct (getData_cards _ _ _ _ _ _ _ Hr Hcard) as (j & _ & -> & Hm).
    apply listing_where_spec in Hm as (_ & [Hnil|Ht] & _); [discriminate Hnil|].
    by apply list_elem_of_singleton in Ht. }
  split_and!; [done | done | exact Hcards | |].
  - intros Hnonempty.
    apply elem_of_nil_inv. intros card Hcard.
    destruct (getData_cards _ _ _ _ _ _ _ Hr Hcard) as (j & Hj & Heq & _).
    apply (Hnonempty j Hj). specialize (Hcards card Hcard).
    rewrite Heq in Hcards. exact Hcards.
  - eexists _, _. split_and!; vm_compute; reflexivity.
Qed.

Lemma empty_jobTypes_parameter_witness :
  ∃ r, Home_listing 1 (Some "") (Some "Paris") Sample.store = inr r
       ∧ ListingPage.jobs r = []
       ∧ jobTypesSplit (Some "") = [""].
Proof.
  exists (ListingPage.mk [] (Num 1)).
  destruct (empty_jobTypes_parameter 1 (Some "Paris") Sample.store
              (ListingPage.mk [] (Num 1)))
    as (Hsplit & _ & _ & Hempty & _); [vm_compute; reflexivity|].
  split; [vm_compute; reflexivity|]. split; [|exact Hsplit].
  apply Hempty.
  assert (Hall : Forall (λ j, JobPost.employmentType j ≠ "")
                        (rows (jobPosts Sample.store))) by by_evaluation.
  exact (proj1 (Forall_forall _ _) Hall).
Defined.

(** * Properties of the store statements *)

Section store_facts.

Implicit Types (d : Db) (j : JobPost.t).

Lemma elem_of_rows {V} (m : gmap string V) (v : V) :
  v ∈ rows m ↔ ∃ k, m !! k = Some v.
Proof.
  unfold rows. rewrite list_elem_of_fmap. split.
  - intros ([k v'] & -> & Hkv). exists k. by apply elem_of_map_to_list.
  - intros [k Hk]. exists (k, v). split; [done|]. by apply elem_of_map_to_list.
Qed.

Lemma list_find_rows_None {V} (P : V → Prop) `{∀ v, Decision (P v)}
    (m : gmap string V) :
  list_find P (rows m) = None ↔ ∀ k v, m !! k = Some v → ¬ P v.
Proof.
  rewrite list_find_None, Forall_forall. split.
  - intros Hall k v Hk. apply Hall, elem_of_rows. by exists k.
  - intros Hall v [k Hk]%elem_of_rows. by eapply Hall.
Qed.

Lemma list_find_rows_Some {V} (P : V → Prop) `{∀ v, Decision (P v)}
    (m : gmap string V) (i : nat) (v : V) :
  list_find P (rows m) = Some (i, v) → P v ∧ ∃ k, m !! k = Some v.
Proof.
  intros (Hi & HP & _)%list_find_Some. split; [done|].
  apply elem_of_rows. by eapply list_elem_of_lookup_2.
Qed.

Lemma owns_check d userId jobId :
  owns d userId jobId ↔
    ∃ j, jobPosts d !! jobId = Some j ∧ Company_userId_is userId d j = true.
Proof.
  unfold owns, Company_userId_is. split.
  - intros (j & c & Hj & Hc & Hu). exists j. split; [done|].
    rewrite Hc. by apply bool_decide_eq_true.
  - intros (j & Hj & Hc). exists j.
    destruct (companies d !! JobPost.companyId j) as [c|]; [|done].
    exists c. split_and!; [done..|]. by apply bool_decide_eq_true in Hc.
Qed.

Lemma jobPost_update_not_owned d userId jobId data now_ :
  ¬ owns d userId jobId →
  jobPost_update jobId (Company_userId_is userId) data now_ d = inl RecordNotFound.
Proof.
  intros Hno. unfold jobPost_update.
  destruct (jobPosts d !! jobId) as [j|] eqn:Hj; [|done].
  destruct (Company_userId_is userId d j) eqn:Hc; [|done].
  destruct Hno. apply owns_check. eauto.
Qed.

Lemma jobPost_delete_not_owned d userId jobId :
  ¬ owns d userId jobId →
  jobPost_delete jobId (Company_userId_is userId) d = inl RecordNotFound.
Proof.
  intros Hno. unfold jobPost_delete.
  destruct (jobPosts d !! jobId) as [j|] eqn:Hj; [|done].
  destruct (Company_userId_is userId d j) eqn:Hc; [|done].
  destruct Hno. apply owns_check. eauto.
Qed.

End store_facts.

(** * Properties of the server actions *)

(** C3.  When the signed-in caller owns no company holding the job post
    [jobId] (the post is another owner's or does not exist), neither
    [editJobPost] nor [deleteJobPost] changes anything: the world after
    the call is the world before, so the row is neither modified nor
    deleted and no cancellation is sent.  When the call reaches its store
    statement (the request is not denied and, for the edit, the input is
    valid) the statement matches no row and the action ends with the one
    exception [RecordNotFound], whichever of the two reasons applies. *)
Theorem foreign_job_not_found is_url env user data jobId w :
  session env = Some user →
  ¬ owns (db w) (SessionUser.id user) jobId →
  (editJobPost is_url env data jobId w).2 = w
  ∧ (deleteJobPost env jobId w).2 = w
  ∧ (denied env = false → jobSchema_valid is_url data = true →
     jobPost_update jobId (Company_userId_is (SessionUser.id user))
       (edit_data data) (now env) (db w) = inl RecordNotFound
     ∧ editJobPost is_url env data jobId w = (Throw RecordNotFound, w))
  ∧ (denied env = false →
     jobPost_delete jobId (Company_userId_is (SessionUser.id user)) (db w)
       = inl RecordNotFound
     ∧ deleteJobPost env jobId w = (Throw RecordNotFound, w)).
Proof.
  intros Hs Hno.
  pose proof (jobPost_update_not_owned _ _ _ (edit_data data) (now env) Hno)
    as Hupd.
  pose proof (jobPost_delete_not_owned _ _ _ Hno) as Hdel.
  unfold editJobPost, deleteJobPost, deleteJobPost_sending, inngest_send_or,
    reqUser, protect, jobSchema_parse, bind, ret, throw, statement.
  rewrite Hs.
  destruct (denied env), (jobSchema_valid is_url data); simpl;
    rewrite ?Hupd, ?Hdel; split_and!; done.
Qed.

Lemma foreign_job_not_found_witness :
  editJobPost Sample.is_url Sample.bob_env Sample.input "j-dev" Sample.world
    = (Throw RecordNotFound, Sample.world)
  ∧ deleteJobPost Sample.bob_env "j-dev" Sample.world
    = (Throw RecordNotFound, Sample.world)
  ∧ deleteJobPost Sample.bob_env "j-none" Sample.world
    = (Throw RecordNotFound, Sample.world).
Proof.
  assert (Hdev : ¬ owns (db Sample.world) "u-bob" "j-dev").
  { rewrite owns_check. intros (j & Hj & Hc).
    vm_compute in Hj. injection Hj as <-. vm_compute in Hc. discriminate Hc. }
  assert (Hnone : ¬ owns (db Sample.world) "u-bob" "j-none").
  { rewrite owns_check. intros (j & Hj & _).
    vm_compute in Hj. discriminate Hj. }
  destruct (foreign_job_not_found Sample.is_url Sample.bob_env
              Sample.bob_session Sample.input "j-dev" Sample.world
              eq_refl Hdev) as (_ & _ & Hedit & Hdelete).
  destruct (foreign_job_not_found Sample.is_url Sample.bob_env
              Sample.bob_session Sample.input "j-none" Sample.world
              eq_refl Hnone) as (_ & _ & _ & Hdelete').
  split; [apply Hedit; vm_compute; reflexivity|].
  split; [apply Hdelete; reflexivity | apply Hdelete'; reflexivity].
Defined.

(** C8 (as amended).  A successful [editJobPost] replaces the fields
    jobTitle, employmentType, location, salaryFrom, salaryTo,
    jobDescription, listingDuration and benefits of the targeted row by
    the validated input and sets its updatedAt to the time of the edit;
    the row's id, status, createdAt and owning company, every other row
    and table, and the message logs are unchanged. *)
Theorem editJobPost_frame is_url env data jobId w w' :
  editJobPost is_url env data jobId w = (Redirect "/my-jobs", w') →
  ∃ j, jobPosts (db w) !! jobId = Some j
    ∧ jobPosts (db w') =
        <[jobId := JobPost.mk (JobPost.id j)
                     (JobInput.jobTitle data) (JobInput.employmentType data)
                     (JobInput.location data) (JobInput.salaryFrom data)
                     (JobInput.salaryTo data) (JobInput.jobDescription data)
                     (JobInput.listingDuration data) (JobInput.benefits data)
                     (JobPost.status j) (JobPost.createdAt j) (now env)
                     (JobPost.companyId j)]> (jobPosts (db w))
    ∧ users (db w') = users (db w)
    ∧ companies (db w') = companies (db w)
    ∧ savedJobPosts (db w') = savedJobPosts (db w)
    ∧ inngest_sent w' = inngest_sent w
    ∧ stripe_customers w' = stripe_customers w
    ∧ stripe_sessions w' = stripe_sessions w
    ∧ revalidated w' = revalidated w.
Proof.
  unfold editJobPost, reqUser, protect, jobSchema_parse, bind, ret, throw,
    redirect, statement, jobPost_update.
  destruct (session env) as [user|]; [|intros [=]].
  destruct (denied env); [intros [=]|].
  destruct (jobSchema_valid is_url data); [|intros [=]].
  destruct (jobPosts (db w) !! jobId) as [j|]; [|intros [=]].
  destruct (Company_userId_is (SessionUser.id user) (db w) j); [|intros [=]].
  destruct (forallb Int_fits _); [|intros [=]].
  intros [= <-]. exists j. by split_and!.
Qed.

Lemma editJobPost_frame_witness :
  ∃ j, jobPosts Sample.store !! "j-dev" = Some j
    ∧ JobPost.status <$>
        jobPosts (db (editJobPost Sample.is_url Sample.ann_env Sample.input
                        "j-dev" Sample.world).2) !! "j-dev"
      = Some (JobPost.status j).
Proof.
  destruct (editJobPost_frame Sample.is_url Sample.ann_env Sample.input
              "j-dev" Sample.world
              (editJobPost Sample.is_url Sample.ann_env Sample.input
                 "j-dev" Sample.world).2)
    as (j & Hj & Hposts & _).
  { vm_compute. reflexivity. }
  exists j. split; [exact Hj|].
  rewrite Hposts, lookup_insert_eq. reflexivity.
Defined.

(** C8 as stated fails: were the eight fields all that a successful edit
    replaces, the stored row would be the old row with those fields set;
    the edit of the sample job at time 500 stores updatedAt 500 where the
    old row has 10. *)
Lemma editJobPost_exactly_eight_fields_counterexample :
  ¬ (∀ is_url env data jobId w w',
       editJobPost is_url env data jobId w = (Redirect "/my-jobs", w') →
       ∃ j, jobPosts (db w) !! jobId = Some j
            ∧ jobPosts (db w') !! jobId = Some (edit_data data j)).
Proof.
  intros Hclaim.
  destruct (Hclaim Sample.is_url Sample.ann_env Sample.input "j-dev"
              Sample.world
              (editJobPost Sample.is_url Sample.ann_env Sample.input
                 "j-dev" Sample.world).2)
    as (j & Hj & Hrow).
  { vm_compute. reflexivity. }
  vm_compute in Hj. injection Hj as <-.
  vm_compute in Hrow. discriminate Hrow.
Qed.

(** The insert of a saved record: accepted when the pair is new, the id
    is free and both referenced rows exist. *)
Lemma savedJobPost_create_ok d id now_ jobPostId userId :
  savedJobPosts d !! id = None →
  ¬ saved d userId jobPostId →
  is_Some (jobPosts d !! jobPostId) →
  is_Some (users d !! userId) →
  savedJobPost_create id now_ jobPostId userId d =
    inr (SavedJobPost.mk id jobPostId userId now_ now_,
         set_savedJobPosts
           (<[id := SavedJobPost.mk id jobPostId userId now_ now_]>
              (savedJobPosts d)) d).
Proof.
  intros Hfresh Hnew [j Hj] [u Hu]. unfold savedJobPost_create.
  rewrite Hfresh, Hj, Hu.
  destruct (list_find _ _) as [[i s]|] eqn:Hfind; [|done].
  apply list_find_rows_Some in Hfind as [[H1 H2] [k Hk]].
  destruct Hnew. by exists k, s.
Qed.

(** The insert of a pair that is already saved is refused on a unique
    constraint: the pair's, when the id drawn is free. *)
Lemma savedJobPost_create_dup d id now_ jobPostId userId :
  saved d userId jobPostId →
  ∃ fields,
    savedJobPost_create id now_ jobPostId userId d
      = inl (UniqueConstraint fields)
    ∧ (savedJobPosts d !! id = None → fields = ["userId"; "jobPostId"]).
Proof.
  intros (k & s & Hk & Hu & Hj). unfold savedJobPost_create.
  destruct (savedJobPosts d !! id) as [s'|]; [by eexists|].
  destruct (list_find _ _) as [[i s'']|] eqn:Hfind; [by eexists|].
  exfalso. eapply (proj1 (list_find_rows_None _ _)) in Hfind; [|exact Hk].
  by apply Hfind.
Qed.

(** C7.  For a signed-in user and an existing job the user has not saved,
    [saveJobPost] inserts one record for the pair; [unSaveJobPost] of that
    record then succeeds and leaves the store, hence the user's saved
    set, as it was before the save.  A second [saveJobPost] of the pair
    while the record exists is refused with a unique-constraint
    violation, on the pair (userId, jobPostId) when the id drawn is free,
    and changes nothing. *)
Theorem save_unsave_roundtrip env1 env2 user jobId w :
  session env1 = Some user → denied env1 = false →
  session env2 = Some user → denied env2 = false →
  ¬ saved (db w) (SessionUser.id user) jobId →
  savedJobPosts (db w) !! uuid env1 = None →
  is_Some (jobPosts (db w) !! jobId) →
  is_Some (users (db w) !! SessionUser.id user) →
  ∃ w1 w2,
    saveJobPost env1 jobId w = (Ok tt, w1)
    ∧ savedJobPosts (db w1) =
        <[uuid env1 := SavedJobPost.mk (uuid env1) jobId (SessionUser.id user)
                         (now env1) (now env1)]> (savedJobPosts (db w))
    ∧ saved (db w1) (SessionUser.id user) jobId
    ∧ unSaveJobPost env2 (uuid env1) w1 = (Ok tt, w2)
    ∧ db w2 = db w
    ∧ saved_set (db w2) (SessionUser.id user)
      = saved_set (db w) (SessionUser.id user)
    ∧ (∀ env3, session env3 = Some user → denied env3 = false →
         ∃ fields,
           saveJobPost env3 jobId w1 = (Throw (UniqueConstraint fields), w1)
           ∧ (savedJobPosts (db w1) !! uuid env3 = None →
              fields = ["userId"; "jobPostId"])).
Proof.
  intros Hs1 Hd1 Hs2 Hd2 Hnew Hfresh Hjob Huser.
  pose proof (savedJobPost_create_ok (db w) (uuid env1) (now env1) jobId
                (SessionUser.id user) Hfresh Hnew Hjob Huser) as Hcreate.
  set (s := SavedJobPost.mk (uuid env1) jobId (SessionUser.id user)
              (now env1) (now env1)) in *.
  assert (Hsaved : saved (set_savedJobPosts
                            (<[uuid env1 := s]> (savedJobPosts (db w))) (db w))
                         (SessionUser.id user) jobId).
  { exists (uuid env1), s. simpl. by rewrite lookup_insert_eq. }
  eexists _, _. split_and!.
  - unfold saveJobPost, reqUser, protect, bind, ret, statement, revalidatePath.
    rewrite Hs1, Hd1, Hcreate. reflexivity.
  - reflexivity.
  - exact Hsaved.
  - unfold unSaveJobPost, reqUser, protect, bind, ret, statement,
      revalidatePath, savedJobPost_delete.
    rewrite Hs2, Hd2. cbn [db set_db savedJobPosts set_savedJobPosts].
    rewrite lookup_insert_eq. cbn [SavedJobPost.userId s].
    rewrite bool_decide_eq_true_2 by done. reflexivity.
  - cbn [db set_db set_savedJobPosts users companies jobPosts savedJobPosts].
    rewrite delete_insert_id by done. by destruct (db w).
  - cbn [db set_db set_savedJobPosts users companies jobPosts savedJobPosts].
    rewrite delete_insert_id by done. by destruct (db w).
  - intros env3 Hs3 Hd3.
    destruct (savedJobPost_create_dup _ (uuid env3) (now env3) _ _ Hsaved)
      as (fields & Hdup & Hpair).
    exists fields. split; [|exact Hpair].
    unfold saveJobPost, reqUser, protect, bind, ret, statement.
    rewrite Hs3, Hd3. cbn [db set_db]. rewrite Hdup. reflexivity.
Qed.

Lemma save_unsave_roundtrip_witness :
  ∃ w1 w2,
    saveJobPost Sample.eve_env "j-dev" Sample.world = (Ok tt, w1)
    ∧ unSaveJobPost Sample.eve_env' "s-new" w1 = (Ok tt, w2)
    ∧ db w2 = db Sample.world
    ∧ saveJobPost Sample.eve_env' "j-dev" w1
      = (Throw (UniqueConstraint ["userId"; "jobPostId"]), w1).
Proof.
  destruct (save_unsave_roundtrip Sample.eve_env Sample.eve_env'
              Sample.eve_session "j-dev" Sample.world)
    as (w1 & w2 & Hsave & Htable & _ & Hunsave & Hdb & _ & Hagain);
    try reflexivity.
  { intros (k & s & Hk & _). vm_compute in Hk. discriminate Hk. }
  { eexists. vm_compute. reflexivity. }
  { eexists. vm_compute. reflexivity. }
  exists w1, w2. split; [exact Hsave|]. split; [exact Hunsave|].
  split; [exact Hdb|].
  destruct (Hagain Sample.eve_env' eq_refl eq_refl) as (fields & Hthrow & Hpair).
  rewrite Hthrow, Hpair; [reflexivity|].
  rewrite Htable. vm_compute. reflexivity.
Defined.

Lemma company_findUnique_userId_Some d userId c :
  company_findUnique_userId userId d = Some c →
  Company.userId c = userId ∧ ∃ k, companies d !! k = Some c.
Proof.
  unfold company_findUnique_userId.
  destruct (list_find _ _) as [[i c']|] eqn:Hfind; [|done].
  intros [= <-]. by apply list_find_rows_Some in Hfind.
Qed.

Lemma user_findUnique_stripeCustomerId_unique d customer k u :
  users d !! k = Some u →
  User.stripeCustomerId u = Some customer →
  (∀ k' u', users d !! k' = Some u' →
            User.stripeCustomerId u' = Some customer → k' = k) →
  user_findUnique_stripeCustomerId customer d = Some u.
Proof.
  intros Hk Hc Huniq. unfold user_findUnique_stripeCustomerId.
  destruct (list_find _ _) as [[i u']|] eqn:Hfind.
  - apply list_find_rows_Some in Hfind as [Hc' [k' Hk']].
    simpl. f_equal. rewrite (Huniq k' u' Hk' Hc') in Hk'. congruence.
  - exfalso. eapply (proj1 (list_find_rows_None _ _)) in Hfind; [|exact Hk].
    by apply Hfind.
Qed.

(** [createJob] for a signed-in company owner with valid input, a free
    job id and, should a customer be created, an unused customer id: the
    customer step leaves a world [w1] in which the caller, and nobody
    else, carries the customer id; the row is inserted and the message
    submitted; then the tier decides between the checkout and the
    exception. *)
Lemma create_data_fits companyId v id s a b :
  fits_Int_columns v →
  forallb Int_fits (JobPost_ints (create_data companyId v id s a b)) = true.
Proof. intros Hfits. exact Hfits. Qed.

Lemma createJob_run pricing is_url env user data c w :
  db_wf (db w) →
  session env = Some user →
  jobSchema_valid is_url data = true →
  fits_Int_columns data →
  company_findUnique_userId (SessionUser.id user) (db w) = Some c →
  Company.id c ≠ "" →
  jobPosts (db w) !! uuid env = None →
  customer_unused (db w) (customer_id env) →
  ∃ w1 customer u1,
    jobPosts (db w1) = jobPosts (db w)
    ∧ companies (db w1) = companies (db w)
    ∧ savedJobPosts (db w1) = savedJobPosts (db w)
    ∧ inngest_sent w1 = inngest_sent w
    ∧ stripe_sessions w1 = stripe_sessions w
    ∧ revalidated w1 = revalidated w
    ∧ users (db w1) !! SessionUser.id user = Some u1
    ∧ User.id u1 = SessionUser.id user
    ∧ User.stripeCustomerId u1 = Some customer
    ∧ (∀ k u', users (db w1) !! k = Some u' →
               User.stripeCustomerId u' = Some customer →
               k = SessionUser.id user)
    ∧ createJob pricing is_url env data w =
        match pricing_tier pricing data with
        | None => (Throw (Error "Invalid listing duration selected"),
                   job_created env (Company.id c) data w1)
        | Some tier =>
            (Redirect (checkout_url env),
             checkout_requested (checkout_request customer tier (uuid env))
               (job_created env (Company.id c) data w1))
        end.
Proof.
  intros Hwf Hs Hvalid Hfits Hcompany Hid Hfresh Hunused.
  destruct (company_findUnique_userId_Some _ _ _ Hcompany) as [Hcu [k Hk]].
  pose proof (wf_company_key _ Hwf _ _ Hk) as Hkey. cbv beta in Hkey. subst k.
  destruct (wf_company_user _ Hwf _ _ Hk) as [u Hu]. rewrite Hcu in Hu.
  pose proof (wf_user_key _ Hwf _ _ Hu) as Huid. cbv beta in Huid.
  unfold createJob, reqUser, jobSchema_parse, bind, ret, query.
  rewrite Hs, Hvalid, Hcompany, bool_decide_eq_false_2 by done.
  rewrite Hcu, Hu.
  destruct (falsy (User.stripeCustomerId u)) eqn:Hfalsy.
  - (* a customer is created and stored on the user row *)
    set (u1 := with_stripeCustomerId (customer_id env) u).
    exists (mkWorld (set_users (<[SessionUser.id user := u1]> (users (db w)))
                               (db w))
                    (inngest_sent w)
                    (stripe_customers w
                       ++ [(SessionUser.email user,
                            or_undefined (SessionUser.name user))])
                    (stripe_sessions w) (revalidated w)),
           (customer_id env), u1.
    cbn [db jobPosts companies savedJobPosts users set_users inngest_sent
         stripe_sessions revalidated].
    split_and!; try reflexivity.
    + by rewrite lookup_insert_eq.
    + exact Huid.
    + intros k' u' Hk' Hc'.
      destruct (decide (k' = SessionUser.id user)) as [|Hne]; [done|].
      rewrite lookup_insert_ne in Hk' by done.
      by destruct (Hunused _ _ Hk').
    + unfold stripe_customers_create, statement, user_update_stripeCustomerId,
        inngest_send, throw, redirect, stripe_checkout_sessions_create,
        jobPost_create.
      rewrite (create_data_fits _ _ _ _ _ _ Hfits).
      cbn [db set_db users set_users jobPosts companies fst snd].
      rewrite Hu.
      destruct (list_find _ (rows (users (db w)))) as [[i u']|] eqn:Hfind.
      { apply list_find_rows_Some in Hfind as [[Hc' _] [k' Hk']].
        by destruct (Hunused _ _ Hk'). }
      cbn [db set_db users set_users jobPosts companies create_data
           JobPost.companyId JobPost.id].
      rewrite Hfresh, Hk.
      unfold pricing_tier, job_created, checkout_requested, checkout_request,
        created_row, created_event, create_data.
      cbn [db set_db users set_users jobPosts set_jobPosts companies
           savedJobPosts inngest_sent stripe_customers stripe_sessions
           revalidated JobPost.id].
      by destruct (find _ pricing).
  - (* the user row already carries a customer id *)
    destruct (User.stripeCustomerId u) as [customer|] eqn:Hcust; [|done].
    exists w, customer, u. split_and!; try reflexivity; try done.
    + intros k' u' Hk' Hc'.
      apply (wf_stripe_unique _ Hwf _ _ Hk' _ _ Hu); [by rewrite Hc'|].
      by rewrite Hc', Hcust.
    + unfold statement, inngest_send, throw, redirect,
        stripe_checkout_sessions_create, jobPost_create, ret.
      rewrite (create_data_fits _ _ _ _ _ _ Hfits).
      cbn [create_data JobPost.companyId JobPost.id default].
      rewrite Hfresh, Hk.
      unfold pricing_tier, job_created, checkout_requested, checkout_request,
        created_row, created_event, create_data.
      cbn [db set_db users set_users jobPosts set_jobPosts companies
           savedJobPosts inngest_sent stripe_customers stripe_sessions
           revalidated JobPost.id].
      by destruct (find _ pricing).
Qed.

Lemma pricing_tier_None pricing v :
  (∀ tier, tier ∈ pricing →
           PricingTier.days tier ≠ JobInput.listingDuration v) →
  pricing_tier pricing v = None.
Proof.
  unfold pricing_tier. induction pricing as [|tier l IH]; intros Hno; [done|].
  simpl. rewrite bool_decide_eq_false_2.
  - apply IH. intros t Ht. apply Hno. by right.
  - apply Hno. by left.
Qed.

(** C9 (as amended).  For a signed-in company owner and an input that
    passes validation, whose salaries and listingDuration fit the 32-bit
    [Int] columns of the store, and whose listingDuration is the day
    count of no pricing tier, [createJob] ends with the exception
    "Invalid listing duration selected" only after the store has taken
    the new row, with status DRAFT, and the task queue the "job/created"
    message: the world after the failed call differs from the world
    before, and no checkout session was asked for. *)
Theorem createJob_invalid_duration pricing is_url env user data c w :
  db_wf (db w) →
  session env = Some user →
  jobSchema_valid is_url data = true →
  fits_Int_columns data →
  company_findUnique_userId (SessionUser.id user) (db w) = Some c →
  Company.id c ≠ "" →
  jobPosts (db w) !! uuid env = None →
  customer_unused (db w) (customer_id env) →
  (∀ tier, tier ∈ pricing →
           PricingTier.days tier ≠ JobInput.listingDuration data) →
  ∃ w',
    createJob pricing is_url env data w
      = (Throw (Error "Invalid listing duration selected"), w')
    ∧ jobPosts (db w') =
        <[uuid env := created_row env (Company.id c) data]> (jobPosts (db w))
    ∧ JobPost.status (created_row env (Company.id c) data) = DRAFT
    ∧ inngest_sent w' = (inngest_sent w ++ [created_event env data])%list
    ∧ stripe_sessions w' = stripe_sessions w
    ∧ db w' ≠ db w.
Proof.
  intros Hwf Hs Hvalid Hfits Hcompany Hid Hfresh Hunused Hnotier.
  destruct (createJob_run pricing is_url env user data c w)
    as (w1 & customer & u1 & Hjobs & _ & _ & Hsent & Hsess & _ & _ & _ & _
        & _ & Hrun); try done.
  rewrite (pricing_tier_None _ _ Hnotier) in Hrun.
  eexists. split; [exact Hrun|].
  unfold job_created.
  cbn [db jobPosts set_jobPosts inngest_sent stripe_sessions].
  rewrite Hjobs, Hsent, Hsess. split_and!; try reflexivity.
  intros Heq. apply (f_equal (λ d, jobPosts d !! uuid env)) in Heq.
  cbn [jobPosts set_jobPosts] in Heq.
  rewrite lookup_insert_eq, Hfresh in Heq. discriminate Heq.
Qed.

Lemma sample_store_wf : db_wf Sample.store.
Proof. split; by_evaluation. Qed.

Lemma createJob_invalid_duration_witness :
  ∃ w',
    createJob Sample.pricing Sample.is_url Sample.ann_env Sample.odd_input
              Sample.world
      = (Throw (Error "Invalid listing duration selected"), w')
    ∧ JobPost.status <$> jobPosts (db w') !! "j-new" = Some DRAFT
    ∧ inngest_sent w' = [InngestEvent.mk "job/created" "j-new" (Some 45)]
    ∧ db w' ≠ db Sample.world.
Proof.
  destruct (createJob_invalid_duration Sample.pricing Sample.is_url
              Sample.ann_env Sample.ann_session Sample.odd_input Sample.acme
              Sample.world)
    as (w' & Hrun & Hjobs & _ & Hsent & _ & Hdiff).
  - exact sample_store_wf.
  - reflexivity.
  - vm_compute. reflexivity.
  - vm_compute. reflexivity.
  - vm_compute. reflexivity.
  - discriminate.
  - vm_compute. reflexivity.
  - assert (Hall : map_Forall (λ _ u, User.stripeCustomerId u ≠ Some "cus_new")
                               (users Sample.store)) by by_evaluation.
    exact Hall.
  - assert (Hall : Forall (λ t, PricingTier.days t ≠ 45) Sample.pricing)
      by by_evaluation.
    exact (proj1 (Forall_forall _ _) Hall).
  - exists w'. split; [exact Hrun|]. split; [|split; [exact Hsent|exact Hdiff]].
    rewrite Hjobs, lookup_insert_eq. reflexivity.
Defined.

(** C9 as stated fails: it speaks of every listingDuration that passes
    validation, any number from 1 on.  The duration 3000000000 passes
    validation and is the day count of no tier of the sample table, yet
    the store refuses the insert, the number being outside its [Int]
    column: the call ends with that refusal, not with "Invalid listing
    duration selected", no row is created and no message sent. *)
Lemma createJob_invalid_duration_counterexample :
  ¬ (∀ pricing is_url env user data c w,
       db_wf (db w) →
       session env = Some user →
       jobSchema_valid is_url data = true →
       company_findUnique_userId (SessionUser.id user) (db w) = Some c →
       Company.id c ≠ "" →
       jobPosts (db w) !! uuid env = None →
       customer_unused (db w) (customer_id env) →
       (∀ tier, tier ∈ pricing →
                PricingTier.days tier ≠ JobInput.listingDuration data) →
       ∃ w',
         createJob pricing is_url env data w
           = (Throw (Error "Invalid listing duration selected"), w')
         ∧ jobPosts (db w') =
             <[uuid env := created_row env (Company.id c) data]>
               (jobPosts (db w))
         ∧ inngest_sent w' = (inngest_sent w ++ [created_event env data])%list).
Proof.
  intros Hclaim.
  destruct (Hclaim Sample.pricing Sample.is_url Sample.ann_env
              Sample.ann_session Sample.huge_input Sample.acme Sample.world)
    as (w' & Hrun & _).
  - exact sample_store_wf.
  - reflexivity.
  - vm_compute. reflexivity.
  - vm_compute. reflexivity.
  - discriminate.
  - vm_compute. reflexivity.
  - assert (Hall : map_Forall (λ _ u, User.stripeCustomerId u ≠ Some "cus_new")
                               (users Sample.store)) by by_evaluation.
    exact Hall.
  - assert (Hall : Forall (λ t, PricingTier.days t ≠ 3000000000)
                     Sample.pricing) by by_evaluation.
    exact (proj1 (Forall_forall _ _) Hall).
  - assert (Hreal : createJob Sample.pricing Sample.is_url Sample.ann_env
                      Sample.huge_input Sample.world
                    = (Throw ValueOutOfRange, Sample.world))
      by (vm_compute; reflexivity).
    rewrite Hreal in Hrun. discriminate Hrun.
Qed.

(** * Properties of the payment webhook *)

(** The handler on a verified "checkout.session.completed" event that
    carries a job id. *)
Lemma POST_checkout constructEvent now_ body sig event jobId w :
  constructEvent now_ body sig = Some event →
  StripeEvent.type event = "checkout.session.completed" →
  StripeEvent.metadata_jobId event = Some jobId →
  jobId ≠ "" →
  POST constructEvent now_ body sig w =
    match user_company_id (StripeEvent.customer event) (db w) with
    | None => (Ok (Response.mk (Some "no company found for the user") 400), w)
    | Some companyId =>
        match jobPost_update jobId (companyId_is companyId)
                (JobPostUpdateInput.mk (with_status ACTIVE) []) now_ (db w) with
        | inl e => (Throw e, w)
        | inr (_, d') => (Ok (Response.mk None 200), set_db d' w)
        end
    end.
Proof.
  intros Hev Htype Hjob Hne. unfold POST, bind, ret, query, statement.
  rewrite Hev, Htype, Hjob. rewrite bool_decide_eq_true_2 by done.
  destruct jobId as [|a jobId]; [done|].
  destruct (user_company_id _ _) as [cid|]; [|done].
  by destruct (jobPost_update _ _ _ _ _) as [e|[j' d']].
Qed.

(** A payload without the job id is answered 400 and changes nothing. *)
Lemma POST_missing_jobId constructEvent now_ body sig event w :
  constructEvent now_ body sig = Some event →
  StripeEvent.type event = "checkout.session.completed" →
  falsy (StripeEvent.metadata_jobId event) = true →
  POST constructEvent now_ body sig w
    = (Ok (Response.mk (Some "no job id found") 400), w).
Proof.
  intros Hev Htype Hfalsy. unfold POST, ret.
  rewrite Hev, Htype. rewrite bool_decide_eq_true_2 by done.
  by destruct (StripeEvent.metadata_jobId event) as [[|a s]|].
Qed.

(** A customer id no user carries is answered 400 and changes nothing. *)
Lemma POST_unknown_customer constructEvent now_ body sig event jobId w :
  constructEvent now_ body sig = Some event →
  StripeEvent.type event = "checkout.session.completed" →
  StripeEvent.metadata_jobId event = Some jobId →
  jobId ≠ "" →
  customer_unused (db w) (StripeEvent.customer event) →
  POST constructEvent now_ body sig w
    = (Ok (Response.mk (Some "no company found for the user") 400), w).
Proof.
  intros Hev Htype Hjob Hne Hunused.
  rewrite (POST_checkout _ _ _ _ _ _ _ Hev Htype Hjob Hne).
  unfold user_company_id, user_findUnique_stripeCustomerId.
  destruct (list_find _ _) as [[i u]|] eqn:Hfind; [|done].
  apply list_find_rows_Some in Hfind as [Hc [k Hk]].
  by destruct (Hunused _ _ Hk).
Qed.

Lemma company_findUnique_userId_ext d d' userId :
  companies d = companies d' →
  company_findUnique_userId userId d = company_findUnique_userId userId d'.
Proof. unfold company_findUnique_userId. by intros ->. Qed.

(** For the customer of a user who owns company [c], a job of [c] with
    the event's job id is set ACTIVE and the answer is 200 with an empty
    body. *)
Lemma POST_activates constructEvent now_ body sig event jobId w k u c j :
  constructEvent now_ body sig = Some event →
  StripeEvent.type event = "checkout.session.completed" →
  StripeEvent.metadata_jobId event = Some jobId →
  jobId ≠ "" →
  users (db w) !! k = Some u →
  User.stripeCustomerId u = Some (StripeEvent.customer event) →
  (∀ k' u', users (db w) !! k' = Some u' →
            User.stripeCustomerId u' = Some (StripeEvent.customer event) →
            k' = k) →
  company_findUnique_userId (User.id u) (db w) = Some c →
  jobPosts (db w) !! jobId = Some j →
  JobPost.companyId j = Company.id c →
  POST constructEvent now_ body sig w =
    (Ok (Response.mk None 200),
     set_db (set_jobPosts
               (<[jobId := touch now_ (with_status ACTIVE j)]>
                  (jobPosts (db w))) (db w)) w).
Proof.
  intros Hev Htype Hjob Hne Hk Hcust Huniq Hcompany Hj Hjc.
  rewrite (POST_checkout _ _ _ _ _ _ _ Hev Htype Hjob Hne).
  unfold user_company_id.
  rewrite (user_findUnique_stripeCustomerId_unique _ _ _ _ Hk Hcust Huniq).
  cbn [fmap option_fmap option_map]. rewrite Hcompany.
  cbn [fmap option_fmap option_map].
  unfold jobPost_update, companyId_is. rewrite Hj.
  by rewrite bool_decide_eq_true_2 by done.
Qed.

(** * The lifecycle of a job post *)

(** C6.  For a signed-in company owner with valid input whose numbers
    fit the [Int] columns of the store and whose duration has a pricing
    tier: [createJob] succeeds (it redirects to the checkout), having
    inserted the row with status DRAFT and submitted
    the "job/created" message with the new job id and the validated
    listingDuration as expirationDays; a verified checkout-completed
    event for that job id and the checkout's customer is then answered
    200 and leaves the row ACTIVE; a [deleteJobPost] by the owner then
    removes the row and submits the "job/cancel.expiration" message with
    that job id. *)
Theorem job_lifecycle pricing is_url constructEvent env user data c tier w :
  db_wf (db w) →
  session env = Some user →
  jobSchema_valid is_url data = true →
  fits_Int_columns data →
  company_findUnique_userId (SessionUser.id user) (db w) = Some c →
  Company.id c ≠ "" →
  jobPosts (db w) !! uuid env = None →
  uuid env ≠ "" →
  customer_unused (db w) (customer_id env) →
  pricing_tier pricing data = Some tier →
  ∃ w1 customer,
    createJob pricing is_url env data w = (Redirect (checkout_url env), w1)
    ∧ jobPosts (db w1) =
        <[uuid env := created_row env (Company.id c) data]> (jobPosts (db w))
    ∧ JobPost.status (created_row env (Company.id c) data) = DRAFT
    ∧ inngest_sent w1 =
        (inngest_sent w
           ++ [InngestEvent.mk "job/created" (uuid env)
                 (Some (JobInput.listingDuration data))])%list
    ∧ stripe_sessions w1 =
        (stripe_sessions w ++ [checkout_request customer tier (uuid env)])%list
    ∧ ∀ now2 body sig event,
        constructEvent now2 body sig = Some event →
        StripeEvent.type event = "checkout.session.completed" →
        StripeEvent.customer event = customer →
        StripeEvent.metadata_jobId event = Some (uuid env) →
        ∃ w2,
          POST constructEvent now2 body sig w1
            = (Ok (Response.mk None 200), w2)
          ∧ JobPost.status <$> jobPosts (db w2) !! uuid env = Some ACTIVE
          ∧ jobPosts (db w2) =
              <[uuid env := touch now2 (with_status ACTIVE
                                (created_row env (Company.id c) data))]>
                (jobPosts (db w1))
          ∧ inngest_sent w2 = inngest_sent w1
          ∧ ∀ env3, session env3 = Some user → denied env3 = false →
              ∃ w3,
                deleteJobPost env3 (uuid env) w2 = (Redirect "/my-jobs", w3)
                ∧ jobPosts (db w3) !! uuid env = None
                ∧ jobPosts (db w3) = jobPosts (db w)
                ∧ inngest_sent w3 =
                    (inngest_sent w2
                       ++ [InngestEvent.mk "job/cancel.expiration" (uuid env)
                             None])%list.
Proof.
  intros Hwf Hs Hvalid Hfits Hcompany Hid Hfresh Hne Hunused Htier.
  destruct (createJob_run pricing is_url env user data c w)
    as (w0 & customer & u1 & Hjobs & Hcomp & Hsaved & Hsent & Hsess & _ & Hu1
        & Hu1id & Hu1c & Huniq & Hrun); try done.
  rewrite Htier in Hrun.
  destruct (company_findUnique_userId_Some _ _ _ Hcompany) as [Hcu [k Hk]].
  pose proof (wf_company_key _ Hwf _ _ Hk) as Hkey. cbv beta in Hkey. subst k.
  set (row := created_row env (Company.id c) data) in *.
  eexists _, customer. split; [exact Hrun|].
  unfold checkout_requested, job_created.
  cbn [db jobPosts set_jobPosts inngest_sent stripe_sessions].
  rewrite Hjobs, Hsent, Hsess. split_and!; try reflexivity.
  intros now2 body sig event Hev Htype Hcust Hjob.
  eexists. split.
  { eapply (POST_activates _ _ _ _ _ _ _ (SessionUser.id user) u1 c row);
      try done; cbn [db users set_jobPosts jobPosts].
    - by rewrite Hcust.
    - by rewrite Hcust.
    - rewrite Hu1id, <- Hcompany. by apply company_findUnique_userId_ext.
    - by rewrite lookup_insert_eq. }
  cbn [db set_db jobPosts set_jobPosts inngest_sent].
  rewrite ?Hjobs. fold row.
  set (row2 := touch now2 (with_status ACTIVE row)).
  split_and!; try reflexivity.
  { by rewrite lookup_insert_eq. }
  intros env3 Hs3 Hd3.
  unfold deleteJobPost, deleteJobPost_sending, inngest_send_or, reqUser,
    protect, bind, ret, statement, inngest_send, redirect, jobPost_delete.
  rewrite Hs3, Hd3.
  cbn [db set_db jobPosts set_jobPosts companies savedJobPosts].
  rewrite lookup_insert_eq.
  unfold Company_userId_is.
  cbn [db set_db jobPosts set_jobPosts companies savedJobPosts
       JobPost.companyId row2 row touch with_status created_row create_data].
  rewrite Hcomp, Hk, bool_decide_eq_true_2 by done.
  rewrite Hsaved.
  destruct (list_find _ _) as [[i s]|] eqn:Hfind.
  { apply list_find_rows_Some in Hfind as [Href [k' Hk']].
    destruct (wf_saved_job _ Hwf _ _ Hk') as [j Hj].
    rewrite Href, Hfresh in Hj. discriminate Hj. }
  eexists. split; [reflexivity|].
  cbn [db set_db jobPosts set_jobPosts inngest_sent].
  rewrite !delete_insert_eq, delete_id by done.
  by rewrite Hfresh.
Qed.

Lemma job_lifecycle_witness :
  ∃ w1 w2 w3,
    createJob Sample.pricing Sample.is_url Sample.ann_env Sample.input
              Sample.world = (Redirect "https://pay.test/1", w1)
    ∧ POST (Sample.constructEvent (Some "j-new")) 900 "cus_ann"
           (Some "sig-ok") w1 = (Ok (Response.mk None 200), w2)
    ∧ JobPost.status <$> jobPosts (db w2) !! "j-new" = Some ACTIVE
    ∧ deleteJobPost Sample.ann_env "j-new" w2 = (Redirect "/my-jobs", w3)
    ∧ jobPosts (db w3) !! "j-new" = None.
Proof.
  destruct (job_lifecycle Sample.pricing Sample.is_url
              (Sample.constructEvent (Some "j-new")) Sample.ann_env
              Sample.ann_session Sample.input Sample.acme
              (PricingTier.mk 30 99 "Standard listing") Sample.world)
    as (w1 & customer & Hcreate & _ & _ & _ & Hsess & Hnext).
  - exact sample_store_wf.
  - reflexivity.
  - vm_compute. reflexivity.
  - vm_compute. reflexivity.
  - vm_compute. reflexivity.
  - discriminate.
  - vm_compute. reflexivity.
  - discriminate.
  - assert (Hall : map_Forall (λ _ u, User.stripeCustomerId u ≠ Some "cus_new")
                               (users Sample.store)) by by_evaluation.
    exact Hall.
  - vm_compute. reflexivity.
  - assert (Hcustomer : customer = "cus_ann").
    { pose proof Hcreate as Hw1. vm_compute in Hw1. injection Hw1 as Hw1.
      rewrite <- Hw1 in Hsess. vm_compute in Hsess. by injection Hsess. }
    destruct (Hnext 900 "cus_ann" (Some "sig-ok")
                (StripeEvent.mk "checkout.session.completed" "cus_ann"
                   (Some "j-new")))
      as (w2 & Hpost & Hactive & _ & _ & Hdelete);
      [reflexivity | reflexivity | by rewrite Hcustomer | reflexivity |].
    destruct (Hdelete Sample.ann_env eq_refl eq_refl)
      as (w3 & Hdel & Hgone & _).
    exists w1, w2, w3.
    split; [exact Hcreate|]. split; [exact Hpost|]. split; [exact Hactive|].
    split; [exact Hdel|exact Hgone].
Defined.

(** C2, at the input where the code departs from it.  Eve has the
    customer id "cus_eve" and no company; the draft "j-qa" belongs to
    Acme, Ann's company.  A verified checkout-completed event for job
    "j-qa" and customer "cus_eve" is answered 200 with an empty body and
    sets the draft ACTIVE: the user lookup succeeds, so the guard passes,
    and the update is left with the job id as its only condition. *)
Theorem POST_customer_without_company :
  company_findUnique_userId "u-eve" Sample.store = None
  ∧ user_company_id "cus_eve" Sample.store = Some None
  ∧ jobPosts Sample.store !! "j-qa" = Some Sample.qa
  ∧ JobPost.status Sample.qa = DRAFT
  ∧ ¬ owns Sample.store "u-eve" "j-qa"
  ∧ ∃ w',
      POST (Sample.constructEvent (Some "j-qa")) 900 "cus_eve" (Some "sig-ok")
           Sample.world = (Ok (Response.mk None 200), w')
      ∧ JobPost.status <$> jobPosts (db w') !! "j-qa" = Some ACTIVE.
Proof.
  split_and!; try (vm_compute; reflexivity).
  - rewrite owns_check. intros (j & Hj & Hc).
    vm_compute in Hj. injection Hj as <-. vm_compute in Hc. discriminate Hc.
  - eexists. split; vm_compute; reflexivity.
Qed.

(** * Properties of the pagination control *)

Lemma seqZ_3 (m : Z) : seqZ m 3 = [m; m + 1; m + 2].
Proof.
  rewrite seqZ_cons by lia. rewrite seqZ_cons by lia.
  rewrite seqZ_cons by lia. rewrite seqZ_nil by lia.
  repeat f_equal; lia.
Qed.

(** Membership in an explicit list of items. *)
Ltac in_items := rewrite ?seqZ_3; cbn; rewrite !elem_of_cons; auto 10.

Lemma seqZ_sorted (m n : Z) : StronglySorted Z.lt (seqZ m n).
Proof.
  destruct (decide (n ≤ 0)) as [Hn|Hn]; [rewrite seqZ_nil by done; constructor|].
  rewrite <- (Z2Nat.id n) by lia. generalize (Z.to_nat n) as k. clear n Hn.
  intros k. revert m. induction k as [|k IH]; intros m.
  - rewrite seqZ_nil by lia. constructor.
  - rewrite seqZ_cons by lia.
    replace (Z.pred (Z.of_nat (S k))) with (Z.of_nat k) by lia.
    constructor; [apply IH|].
    apply Forall_forall. intros x Hx. apply elem_of_seqZ in Hx. lia.
Qed.

Lemma shown_pages_fmap_Some (l : list Z) : shown_pages (Some <$> l) = l.
Proof.
  unfold shown_pages. induction l as [|x l IH]; [done|].
  csimpl. f_equal. exact IH.
Qed.

(** The current page is among the items. *)
Lemma pagination_current currentPage totalPages :
  1 ≤ currentPage ≤ totalPages →
  Some currentPage ∈ generatePaginationItems currentPage totalPages.
Proof.
  intros Hrange.
  unfold generatePaginationItems. repeat case_bool_decide.
  - apply list_elem_of_fmap. exists currentPage. split; [done|].
    apply elem_of_seqZ. lia.
  - rewrite seqZ_3. simpl.
    assert (currentPage = 1 ∨ currentPage = 2 ∨ currentPage = 3)
      as [-> | [-> | ->]] by lia; in_items.
  - rewrite seqZ_3. simpl.
    assert (currentPage = totalPages - 2 ∨ currentPage = totalPages - 2 + 1
            ∨ currentPage = totalPages - 2 + 2) as [-> | [-> | ->]] by lia;
      in_items.
  - in_items.
Qed.

(** Every page number among the items is a page. *)
Lemma pagination_range cp tp p :
  Some p ∈ generatePaginationItems cp tp → 1 ≤ p ≤ tp.
Proof.
  unfold generatePaginationItems. repeat case_bool_decide.
  - intros (q & [= ->] & Hq%elem_of_seqZ)%list_elem_of_fmap. lia.
  - rewrite seqZ_3. simpl. rewrite !elem_of_cons, elem_of_nil.
    intros [?|[?|[?|[?|[?|[]]]]]]; simplify_eq; lia.
  - rewrite seqZ_3. simpl. rewrite !elem_of_cons, elem_of_nil.
    intros [?|[?|[?|[?|[?|[]]]]]]; simplify_eq; lia.
  - rewrite !elem_of_cons, elem_of_nil.
    intros [?|[?|[?|[?|[?|[?|[?|[]]]]]]]]; simplify_eq; lia.
Qed.

(** The last page is among the items. *)
Lemma pagination_last currentPage totalPages :
  1 ≤ currentPage ≤ totalPages →
  Some totalPages ∈ generatePaginationItems currentPage totalPages.
Proof.
  intros Hrange.
  unfold generatePaginationItems. repeat case_bool_decide.
  - apply list_elem_of_fmap. exists totalPages. split; [done|].
    apply elem_of_seqZ. lia.
  - in_items.
  - rewrite seqZ_3. simpl.
    replace (totalPages - 2 + 2) with totalPages by lia. in_items.
  - in_items.
Qed.



(** X2.  For a current page and a page count that are safe integers
    (below 2^53 in magnitude, where the sums and differences the code
    takes on JavaScript numbers are exact) the page numbers among the
    pagination items are strictly increasing, and an ellipsis always
    stands between two page numbers that are not adjacent: it never
    opens or closes the list, never follows another ellipsis, and hides
    at least one page. *)
Theorem generatePaginationItems_ordered currentPage totalPages :
  safe_integer currentPage → safe_integer totalPages →
  StronglySorted Z.lt
    (shown_pages (generatePaginationItems currentPage totalPages))
  ∧ ∀ i, generatePaginationItems currentPage totalPages !! i = Some None →
      ∃ i' a b, i = S i'
        ∧ generatePaginationItems currentPage totalPages !! i' = Some (Some a)
        ∧ generatePaginationItems currentPage totalPages !! S i
          = Some (Some b)
        ∧ a + 1 < b.
Proof.
  intros _ _.
  unfold generatePaginationItems. repeat case_bool_decide.
  - split.
    + rewrite shown_pages_fmap_Some. apply seqZ_sorted.
    + intros i Hi. rewrite list_lookup_fmap in Hi.
      by destruct (seqZ 1 totalPages !! i).
  - rewrite seqZ_3. split.
    + cbn. repeat constructor; lia.
    + intros i Hi. repeat (destruct i as [|i]; try done).
      eexists 2%nat, _, _. cbn. split_and!; [done..|lia].
  - rewrite seqZ_3. split.
    + cbn. repeat constructor; lia.
    + intros i Hi. repeat (destruct i as [|i]; try done).
      eexists 0%nat, _, _. cbn. split_and!; [done..|lia].
  - split.
    + cbn. repeat constructor; lia.
    + intros i Hi. repeat (destruct i as [|i]; try done).
      * eexists 0%nat, _, _. cbn. split_and!; [done..|lia].
      * eexists 4%nat, _, _. cbn. split_and!; [done..|lia].
Qed.

Lemma generatePaginationItems_ordered_witness :
  StronglySorted Z.lt (shown_pages (generatePaginationItems 7 12))
  ∧ generatePaginationItems 7 12
    = [Some 1; None; Some 6; Some 7; Some 8; None; Some 12].
Proof.
  destruct (generatePaginationItems_ordered 7 12) as [Hsorted _].
  - unfold safe_integer. lia.
  - unfold safe_integer. lia.
  - split; [exact Hsorted|reflexivity].
Defined.

(** * Properties of strings *)

Lemma string_length_app (s1 s2 : string) :
  String.length (s1 +:+ s2) = (String.length s1 + String.length s2)%nat.
Proof. induction s1 as [|c s1 IH]; simpl; [done|]. by rewrite IH. Qed.

Lemma string_length_0 (s : string) : String.length s = 0%nat → s = "".
Proof. by destruct s. Qed.

Lemma string_app_inj_r (s1 s2 t : string) : s1 +:+ t = s2 +:+ t → s1 = s2.
Proof.
  revert s2. induction s1 as [|c s1 IH]; intros [|c' s2] Heq.
  - done.
  - apply (f_equal String.length) in Heq.
    rewrite !string_length_app in Heq. simpl in Heq. lia.
  - apply (f_equal String.length) in Heq.
    rewrite !string_length_app in Heq. simpl in Heq. lia.
  - simpl in Heq. injection Heq as -> Heq. f_equal. by apply IH.
Qed.

(** * Properties of the relative posting date *)

Lemma day_bracket (now_ date n : Z) :
  (now_ - date) `div` day_ms = n ↔
  date + n * day_ms ≤ now_ < date + (n + 1) * day_ms.
Proof.
  assert (Hday : 0 < day_ms) by (unfold day_ms; lia).
  pose proof (Z.div_mod (now_ - date) day_ms ltac:(lia)) as Hdm.
  pose proof (Z.mod_pos_bound (now_ - date) day_ms Hday) as Hb.
  split.
  - intros <-. nia.
  - intros Hn. symmetry. apply (Z.div_unique_pos _ _ _ (now_ - date - n * day_ms)); lia.
Qed.

(** X3.  [formatTime] reads "Posted Today" exactly when the date is at
    most a day old and not in the future, "Posted 1 Day ago" exactly on
    the second day, and "Posted n days ago" exactly when the date is
    between n and n+1 whole days before now, for every other n, the
    negative ones of a date in the future included. *)
Theorem formatTime_days now_ date :
  (formatTime now_ date = "Posted Today" ↔ date ≤ now_ < date + day_ms)
  ∧ (formatTime now_ date = "Posted 1 Day ago" ↔
       date + day_ms ≤ now_ < date + 2 * day_ms)
  ∧ (∀ n, n ≠ 0 → n ≠ 1 →
       (formatTime now_ date = "Posted " +:+ pretty n +:+ " days ago" ↔
          date + n * day_ms ≤ now_ < date + (n + 1) * day_ms)).
Proof.
  assert (Hlong : ∀ (d : Z) s, (String.length s < 9)%nat →
                         "Posted " +:+ pretty d +:+ " days ago"
                         ≠ "Posted " +:+ s).
  { intros d s Hs Heq. apply (inj (String.app "Posted ")) in Heq.
    apply (f_equal String.length) in Heq.
    rewrite string_length_app in Heq. simpl in Heq. lia. }
  assert (Hone : ∀ d : Z, "Posted " +:+ pretty d +:+ " days ago"
                      ≠ "Posted 1 Day ago").
  { intros d Heq.
    apply (inj (String.app "Posted ") _ "1 Day ago") in Heq.
    pose proof (f_equal String.length Heq) as Hlen.
    rewrite string_length_app in Hlen. simpl in Hlen.
    rewrite (string_length_0 (pretty d)) in Heq by lia. discriminate Heq. }
  pose proof (day_bracket now_ date) as Hbr.
  assert (Hb0 : (now_ - date) `div` day_ms = 0 ↔ date ≤ now_ < date + day_ms)
    by (rewrite (Hbr 0); lia).
  assert (Hb1 : (now_ - date) `div` day_ms = 1 ↔
                date + day_ms ≤ now_ < date + 2 * day_ms)
    by (rewrite (Hbr 1); lia).
  unfold formatTime. split_and!.
  - rewrite <- Hb0. case_bool_decide as H0; [done|].
    case_bool_decide as H1.
    + split; [discriminate|done].
    + split; [|done]. intros Heq.
      by apply (Hlong _ "Today") in Heq; [|simpl; lia].
  - rewrite <- Hb1. case_bool_decide as H0.
    + split; [discriminate|lia].
    + case_bool_decide as H1; [done|].
      split; [|done]. intros Heq. by apply Hone in Heq.
  - intros n Hn0 Hn1. rewrite <- Hbr.
    case_bool_decide as H0.
    + split; [intros Heq|lia]. symmetry in Heq.
      by apply (Hlong _ "Today") in Heq; [|simpl; lia].
    + case_bool_decide as H1.
      * split; [intros Heq|lia]. symmetry in Heq. by apply Hone in Heq.
      * split; [|by intros ->].
        intros Heq. apply (inj (String.app "Posted ")) in Heq.
        apply string_app_inj_r in Heq. by apply (inj pretty) in Heq.
Qed.

(** * Properties of the benefit selection *)

(** X4.  [toggleBenefit] flips the membership of the toggled id and
    keeps the membership of every other id; it keeps a value free of
    duplicates free of duplicates; and toggling an absent id twice gives
    the value back. *)
Theorem toggleBenefit_flips field_value benefitId :
  (benefitId ∈ toggleBenefit field_value benefitId ↔
     benefitId ∉ default [] field_value)
  ∧ (∀ id, id ≠ benefitId →
       (id ∈ toggleBenefit field_value benefitId ↔
          id ∈ default [] field_value))
  ∧ (NoDup (default [] field_value) →
     NoDup (toggleBenefit field_value benefitId))
  ∧ (benefitId ∉ default [] field_value →
     toggleBenefit (Some (toggleBenefit field_value benefitId)) benefitId
     = default [] field_value).
Proof.
  unfold toggleBenefit. set (l := default [] field_value). split_and!.
  - case_bool_decide as Hin.
    + rewrite list_elem_of_filter. split; [by intros [? _]|done].
    + rewrite elem_of_app, list_elem_of_singleton.
      split; [intros _; exact Hin | by right].
  - intros id Hne. case_bool_decide as Hin.
    + rewrite list_elem_of_filter. split; [by intros [_ ?]|done].
    + rewrite elem_of_app, list_elem_of_singleton.
      split; [by intros [?|?] | by left].
  - intros Hnd. case_bool_decide as Hin.
    + by apply NoDup_filter.
    + apply NoDup_app. split_and!; [done| |apply NoDup_singleton].
      intros x Hx ->%list_elem_of_singleton. done.
  - intros Hnot. rewrite (bool_decide_eq_false_2 (benefitId ∈ l)) by done.
    simpl.
    rewrite bool_decide_eq_true_2
      by (apply elem_of_app; right; by apply list_elem_of_singleton).
    rewrite filter_app, filter_cons_False, filter_nil, app_nil_r by auto.
    clear -Hnot. induction l as [|x l IH]; [done|].
    apply not_elem_of_cons in Hnot as [Hx Hl].
    rewrite filter_cons_True by done. f_equal. by apply IH.
Qed.

Lemma toggleBenefit_flips_witness :
  NoDup (toggleBenefit (Some ["health"; "equity"]) "remote")
  ∧ toggleBenefit (Some (toggleBenefit (Some ["health"; "equity"]) "remote"))
                  "remote" = ["health"; "equity"].
Proof.
  destruct (toggleBenefit_flips (Some ["health"; "equity"]) "remote")
    as (_ & _ & Hnd & Htwice).
  split.
  - apply Hnd. by_evaluation.
  - apply Htwice. by_evaluation.
Defined.

(** * Properties of query strings and of the listing filters *)

Section query_facts.

Implicit Types (p : list (string * string)) (name value k : string).

Lemma URLSearchParams_get_delete name p :
  URLSearchParams_get name (URLSearchParams_delete name p) = None.
Proof.
  unfold URLSearchParams_get, URLSearchParams_delete.
  induction p as [|[k v] p IH]; [done|].
  rewrite filter_cons. case_decide as Hk; simpl in *; [|done].
  by rewrite bool_decide_eq_false_2.
Qed.

Lemma URLSearchParams_get_delete_ne name k p :
  k ≠ name →
  URLSearchParams_get k (URLSearchParams_delete name p)
  = URLSearchParams_get k p.
Proof.
  intros Hne. unfold URLSearchParams_get, URLSearchParams_delete.
  induction p as [|[k' v] p IH]; [done|].
  rewrite filter_cons. case_decide as Hk; simpl in *.
  - case_bool_decide; [done|exact IH].
  - rewrite bool_decide_eq_false_2 by congruence. exact IH.
Qed.

Lemma URLSearchParams_get_set name value p :
  URLSearchParams_get name (URLSearchParams_set name value p) = Some value.
Proof.
  unfold URLSearchParams_get.
  induction p as [|[k v] p IH]; simpl.
  - by rewrite bool_decide_eq_true_2.
  - case_bool_decide as Hk; simpl.
    + by rewrite bool_decide_eq_true_2.
    + rewrite bool_decide_eq_false_2 by done. exact IH.
Qed.

Lemma URLSearchParams_get_set_ne name value k p :
  k ≠ name →
  URLSearchParams_get k (URLSearchParams_set name value p)
  = URLSearchParams_get k p.
Proof.
  intros Hne.
  induction p as [|[k' v] p IH]; simpl.
  - unfold URLSearchParams_get. simpl.
    by rewrite bool_decide_eq_false_2 by congruence.
  - case_bool_decide as Hk.
    + subst k'. unfold URLSearchParams_get. simpl.
      rewrite !bool_decide_eq_false_2 by congruence.
      apply (URLSearchParams_get_delete_ne name k p Hne).
    + unfold URLSearchParams_get in *. simpl.
      case_bool_decide; [done|exact IH].
Qed.

Lemma createQueryString_other p name value k :
  k ≠ name →
  URLSearchParams_get k (createQueryString p name value)
  = URLSearchParams_get k p.
Proof.
  intros Hne. unfold createQueryString. case_bool_decide.
  - by apply URLSearchParams_get_set_ne.
  - by apply URLSearchParams_get_delete_ne.
Qed.

Lemma createQueryString_get p name value :
  URLSearchParams_get name (createQueryString p name value)
  = if bool_decide (value ≠ "") then Some value else None.
Proof.
  unfold createQueryString. case_bool_decide.
  - apply URLSearchParams_get_set.
  - apply URLSearchParams_get_delete.
Qed.

End query_facts.

Section split_join.

Implicit Types (s x t : string) (l : list string).

Lemma split_not_nil s : split "," s ≠ [].
Proof.
  destruct s as [|c s]; simpl; [done|].
  case_bool_decide; [done|]. by destruct (split "," s).
Qed.

Lemma comma_free_cons c s :
  comma_free (String c s) ↔ c ≠ ","%char ∧ comma_free s.
Proof.
  unfold comma_free. simpl. rewrite not_elem_of_cons.
  split; intros [H1 H2]; split; auto.
Qed.

Lemma split_comma_free x : comma_free x → split "," x = [x].
Proof.
  induction x as [|c x IH]; [done|].
  intros [Hc Hx]%comma_free_cons. simpl.
  rewrite bool_decide_eq_false_2 by done. by rewrite IH.
Qed.

Lemma split_app_sep x t :
  comma_free x → split "," (x +:+ "," +:+ t) = x :: split "," t.
Proof.
  induction x as [|c x IH]; [done|].
  intros [Hc Hx]%comma_free_cons. simpl.
  rewrite bool_decide_eq_false_2 by done. by rewrite IH.
Qed.

Lemma split_join l :
  l ≠ [] → Forall comma_free l → split "," (join "," l) = l.
Proof.
  induction l as [|x l IH]; [done|]. intros _ Hall.
  apply Forall_cons in Hall as [Hx Hl].
  destruct l as [|y l]; [by apply split_comma_free|].
  change (join "," (x :: y :: l)) with (x +:+ "," +:+ join "," (y :: l)).
  rewrite split_app_sep by done. f_equal. by apply IH.
Qed.

Lemma join_split s : join "," (split "," s) = s.
Proof.
  induction s as [|c s IH]; [done|]. simpl.
  pose proof (split_not_nil s) as Hne.
  case_bool_decide as Hc.
  - subst c. destruct (split "," s) as [|h t] eqn:E; [done|].
    change (join "," ("" :: h :: t)) with ("" +:+ "," +:+ join "," (h :: t)).
    by rewrite IH.
  - destruct (split "," s) as [|h t] eqn:E; [done|].
    destruct t as [|h' t].
    + simpl in *. by rewrite IH.
    + change (join "," (String c h :: h' :: t))
        with (String c (h +:+ "," +:+ join "," (h' :: t))).
      f_equal. exact IH.
Qed.

Lemma comma_free_empty : comma_free "".
Proof. unfold comma_free. simpl. apply not_elem_of_nil. Qed.

Lemma split_Forall_comma_free s : Forall comma_free (split "," s).
Proof.
  induction s as [|c s IH]; simpl.
  - apply Forall_singleton, comma_free_empty.
  - case_bool_decide as Hc.
    + apply Forall_cons. split; [apply comma_free_empty|exact IH].
    + destruct (split "," s) as [|h t].
      * apply Forall_singleton, comma_free_cons.
        split; [exact Hc|apply comma_free_empty].
      * apply Forall_cons in IH as [Hh Ht]. apply Forall_cons.
        split; [|exact Ht]. apply comma_free_cons. by split.
Qed.

(** A joined list is the empty string only for no element or for the
    one empty element. *)
Lemma join_empty l : join "," l = "" → l = [] ∨ l = [""].
Proof.
  destruct l as [|x [|y l]]; simpl; [by left|intros ->; by right|].
  intros Heq. apply (f_equal String.length) in Heq.
  rewrite !string_length_app in Heq. simpl in Heq. lia.
Qed.

End split_join.

(** X5.  The [jobTypes] parameter round-trips between the filter panel,
    which joins the selected types with commas, and the home page, which
    splits the parameter at commas: joining what was split always gives
    the parameter back, and splitting what was joined gives the list
    back when it is not empty and no element contains a comma. *)
Theorem jobTypes_split_join :
  (∀ s, join "," (split "," s) = s)
  ∧ (∀ l, l ≠ [] → Forall comma_free l → split "," (join "," l) = l)
  ∧ (∀ s, split "," s ≠ [] ∧ Forall comma_free (split "," s)).
Proof.
  split_and!.
  - apply join_split.
  - apply split_join.
  - intros s. split; [apply split_not_nil | apply split_Forall_comma_free].
Qed.

Lemma jobTypes_split_join_witness :
  split "," (join "," ["full-time"; "contract"]) = ["full-time"; "contract"].
Proof.
  apply (proj1 (proj2 jobTypes_split_join)); [discriminate|].
  by_evaluation.
Defined.

Section filter_facts.

Implicit Types (s l : list string) (x y : string).

Lemma elem_of_Set_from l x : x ∈ Set_from l ↔ x ∈ l.
Proof.
  induction l as [|y l IH]; [done|]. simpl.
  rewrite !elem_of_cons, list_elem_of_filter, IH.
  destruct (decide (x = y)) as [Heq|Hne]; [by split; left|].
  split; [intros [?|[_ ?]]; auto | intros [?|?]; auto].
Qed.

Lemma Forall_Set_from (P : string → Prop) l :
  Forall P l → Forall P (Set_from l).
Proof.
  rewrite !Forall_forall. intros Hall x Hx. by apply Hall, elem_of_Set_from.
Qed.

Lemma elem_of_Set_add x y s : y ∈ Set_add x s ↔ y = x ∨ y ∈ s.
Proof.
  unfold Set_add. case_bool_decide as Hin.
  - split; [by right|]. by intros [->|?].
  - rewrite elem_of_app, list_elem_of_singleton. tauto.
Qed.

Lemma elem_of_Set_delete x y s : y ∈ Set_delete x s ↔ y ≠ x ∧ y ∈ s.
Proof. unfold Set_delete. by rewrite list_elem_of_filter. Qed.

(** What the home page reads from the query [createQueryString] builds
    for a list of types. *)
Lemma jobTypes_read_back searchParams s :
  Forall comma_free s → "" ∉ s →
  jobTypesSplit (URLSearchParams_get "jobTypes"
                   (createQueryString searchParams "jobTypes" (join "," s)))
  = s.
Proof.
  intros Hfree Hne. rewrite createQueryString_get.
  case_bool_decide as Hjoin; simpl.
  - apply split_join; [|done]. by intros ->.
  - apply join_empty in Hjoin as [-> | ->]; [done|].
    destruct Hne. by left.
Qed.

End filter_facts.

(** X6.  Ticking a job type (a non-empty name without comma) in the
    filter panel navigates to a query from which the home page reads the
    previous selection plus that type; unticking it, when the selection
    holds no empty name, gives the selection without it.  Either way the
    type is then selected, respectively not selected, the [jobTypes]
    parameter is never left present but empty, and every other
    parameter of the query is kept. *)
Theorem handleJobTypeChange_reads_back searchParams jobType :
  comma_free jobType → jobType ≠ "" →
  jobTypesSplit (URLSearchParams_get "jobTypes"
                   (handleJobTypeChange searchParams jobType true))
    = Set_add jobType (Set_from (currentJobTypes searchParams))
  ∧ ("" ∉ currentJobTypes searchParams →
     jobTypesSplit (URLSearchParams_get "jobTypes"
                      (handleJobTypeChange searchParams jobType false))
       = Set_delete jobType (Set_from (currentJobTypes searchParams)))
  ∧ (jobType ∈ currentJobTypes (handleJobTypeChange searchParams jobType true))
  ∧ (jobType ∉
       currentJobTypes (handleJobTypeChange searchParams jobType false))
  ∧ (∀ checked,
       URLSearchParams_get "jobTypes"
         (handleJobTypeChange searchParams jobType checked) ≠ Some "")
  ∧ (∀ checked k, k ≠ "jobTypes" →
       URLSearchParams_get k (handleJobTypeChange searchParams jobType checked)
       = URLSearchParams_get k searchParams).
Proof.
  intros Hfree Hne.
  assert (Hcur : Forall comma_free (Set_from (currentJobTypes searchParams))).
  { apply Forall_Set_from. unfold currentJobTypes.
    destruct (URLSearchParams_get _ _); [apply split_Forall_comma_free|done]. }
  assert (Hon : jobTypesSplit (URLSearchParams_get "jobTypes"
                   (handleJobTypeChange searchParams jobType true))
                = Set_add jobType (Set_from (currentJobTypes searchParams))).
  { unfold handleJobTypeChange. rewrite createQueryString_get.
    rewrite bool_decide_eq_true_2; simpl.
    - apply split_join.
      + intros Hnil. assert (Hin : jobType ∈ Set_add jobType
                               (Set_from (currentJobTypes searchParams)))
          by (apply elem_of_Set_add; by left).
        rewrite Hnil in Hin. by apply elem_of_nil in Hin.
      + apply Forall_forall. intros y [->|Hy]%elem_of_Set_add; [done|].
        by eapply Forall_forall in Hcur.
    - intros [Hnil|Hone]%join_empty.
      + assert (Hin : jobType ∈ Set_add jobType
                        (Set_from (currentJobTypes searchParams)))
          by (apply elem_of_Set_add; by left).
        rewrite Hnil in Hin. by apply elem_of_nil in Hin.
      + assert (Hin : jobType ∈ Set_add jobType
                        (Set_from (currentJobTypes searchParams)))
          by (apply elem_of_Set_add; by left).
        rewrite Hone in Hin. by apply list_elem_of_singleton in Hin. }
  split_and!.
  - exact Hon.
  - intros Hnoempty. unfold handleJobTypeChange. apply jobTypes_read_back.
    + apply Forall_forall. intros y [_ Hy]%elem_of_Set_delete.
      by eapply Forall_forall in Hcur.
    + intros [_ Hin]%elem_of_Set_delete.
      apply (proj1 (elem_of_Set_from _ _)) in Hin. exact (Hnoempty Hin).
  - change (jobType ∈ jobTypesSplit (URLSearchParams_get "jobTypes"
              (handleJobTypeChange searchParams jobType true))).
    rewrite Hon. apply elem_of_Set_add. by left.
  - change (jobType ∉ jobTypesSplit (URLSearchParams_get "jobTypes"
              (handleJobTypeChange searchParams jobType false))).
    unfold handleJobTypeChange. rewrite createQueryString_get.
    case_bool_decide as Hjoin; simpl; [|apply not_elem_of_nil].
    rewrite split_join.
    + intros [Hx _]%elem_of_Set_delete. done.
    + intros Hnil. rewrite Hnil in Hjoin. done.
    + apply Forall_forall. intros y [_ Hy]%elem_of_Set_delete.
      by eapply Forall_forall in Hcur.
  - intros checked. unfold handleJobTypeChange.
    rewrite createQueryString_get. case_bool_decide; congruence.
  - intros checked k Hk. unfold handleJobTypeChange.
    by apply createQueryString_other.
Qed.

Lemma handleJobTypeChange_reads_back_witness :
  jobTypesSplit (URLSearchParams_get "jobTypes"
                   (handleJobTypeChange
                      [("page", "2"); ("jobTypes", "full-time")]
                      "contract" true))
    = ["full-time"; "contract"]
  ∧ jobTypesSplit (URLSearchParams_get "jobTypes"
                     (handleJobTypeChange
                        [("page", "2"); ("jobTypes", "full-time")]
                        "full-time" false))
    = [].
Proof.
  destruct (handleJobTypeChange_reads_back
              [("page", "2"); ("jobTypes", "full-time")] "contract")
    as (Hon & _); [by_evaluation | discriminate |].
  destruct (handleJobTypeChange_reads_back
              [("page", "2"); ("jobTypes", "full-time")] "full-time")
    as (_ & Hoff & _); [by_evaluation | discriminate |].
  split.
  - rewrite Hon. vm_compute. reflexivity.
  - rewrite Hoff; [vm_compute; reflexivity | by_evaluation].
Defined.

(** X7.  Choosing a location in the filter panel navigates to a query
    from which the home page reads exactly that location, the empty
    choice included (the parameter is then removed); every other
    parameter of the query is kept. *)
Theorem handleLocationChange_reads_back searchParams location :
  locationmod (URLSearchParams_get "location"
                 (handleLocationChange searchParams location)) = location
  ∧ currentLocation (handleLocationChange searchParams location) = location
  ∧ URLSearchParams_get "location"
      (handleLocationChange searchParams location) ≠ Some ""
  ∧ (∀ k, k ≠ "location" →
       URLSearchParams_get k (handleLocationChange searchParams location)
       = URLSearchParams_get k searchParams).
Proof.
  unfold handleLocationChange, currentLocation.
  rewrite createQueryString_get. split_and!.
  - case_bool_decide as Hl; simpl; [done|]. by rewrite Hl.
  - case_bool_decide as Hl; simpl; [done|]. by rewrite Hl.
  - case_bool_decide; congruence.
  - intros k Hk. by apply createQueryString_other.
Qed.

(** * Properties of the pages *)

Lemma jobPost_findUnique_Some id extra d j :
  jobPost_findUnique id extra d = Some j ↔
  jobPosts d !! id = Some j ∧ extra d j = true.
Proof.
  unfold jobPost_findUnique.
  destruct (jobPosts d !! id) as [j'|].
  - destruct (extra d j') eqn:He.
    + split; [by intros [= ->] | by intros [[= ->] _]].
    + split; [discriminate | intros [[= ->] He']; congruence].
  - split; [discriminate | intros [Hj _]; discriminate Hj].
Qed.

(** X8.  The detail page finds a job exactly when a row with that id
    exists and is ACTIVE.  In a store that meets the schema's
    constraints every card of the listing opens: [getJob] on the card's
    id shows the job, with the card's title, type, location, creation
    time and company. *)
Theorem getJob_visibility jobId userId d :
  (getJob jobId userId d = NotFound ↔
     ¬ ∃ j, jobPosts d !! jobId = Some j ∧ JobPost.status j = ACTIVE)
  ∧ (db_wf d →
     ∀ page pageSize T L r card,
       getData page pageSize T L d = inr r →
       card ∈ ListingPage.jobs r →
       ∃ detail savedJob,
         getJob (JobCard.id card) userId d = Shown (detail, savedJob)
         ∧ JobDetail.jobTitle detail = JobCard.jobTitle card
         ∧ JobDetail.employmentType detail = JobCard.employmentType card
         ∧ JobDetail.location detail = JobCard.location card
         ∧ JobDetail.createdAt detail = JobCard.createdAt card
         ∧ JobDetail.Company detail = JobCard.Company card).
Proof.
  split.
  - unfold getJob.
    destruct (jobPost_findUnique jobId (status_is ACTIVE) d) as [j|] eqn:Hj.
    + apply jobPost_findUnique_Some in Hj as [Hj Hs].
      apply bool_decide_eq_true in Hs. simpl. split; [done|].
      intros Hno. destruct Hno. eauto.
    + simpl. split; [|done]. intros _ (j & Hj' & Hs).
      assert (jobPost_findUnique jobId (status_is ACTIVE) d = Some j) as Hfound.
      { apply jobPost_findUnique_Some. split; [done|].
        by apply bool_decide_eq_true. }
      congruence.
  - intros Hwf page pageSize T L r card Hr Hcard.
    destruct (getData_cards _ _ _ _ _ _ _ Hr Hcard) as (j & Hrow & -> & Hm).
    apply listing_where_spec in Hm as (Hs & _ & _).
    apply elem_of_rows in Hrow as [k Hk].
    pose proof (wf_job_key _ Hwf _ _ Hk) as Hkey. cbv beta in Hkey. subst k.
    unfold getJob. cbn [select_card JobCard.id].
    assert (jobPost_findUnique (JobPost.id j) (status_is ACTIVE) d = Some j)
      as ->.
    { apply jobPost_findUnique_Some. split; [done|].
      by apply bool_decide_eq_true. }
    eexists _, _. simpl. split_and!; reflexivity.
Qed.

Lemma getJob_visibility_witness :
  ∃ detail savedJob,
    getJob (JobCard.id Sample.dev_card) (Some "u-eve") Sample.store
      = Shown (detail, savedJob)
    ∧ JobDetail.jobTitle detail = "Developer".
Proof.
  destruct (getJob_visibility "j-dev" (Some "u-eve") Sample.store)
    as [_ Hopen].
  destruct (Hopen sample_store_wf 1 2 [] "" (ListingPage.mk
              [Sample.ops_card; Sample.dev_card] (Num 1)) Sample.dev_card)
    as (detail & savedJob & Hget & Htitle & _).
  - vm_compute. reflexivity.
  - right. left.
  - exists detail, savedJob. split; [exact Hget|]. rewrite Htitle. reflexivity.
Defined.

Lemma savedJobPost_findUnique_Some d userId jobPostId s :
  savedJobPost_findUnique_userId_jobPostId userId jobPostId d = Some s →
  SavedJobPost.userId s = userId ∧ SavedJobPost.jobPostId s = jobPostId
  ∧ ∃ k, savedJobPosts d !! k = Some s.
Proof.
  unfold savedJobPost_findUnique_userId_jobPostId.
  destruct (list_find _ _) as [[i s']|] eqn:Hfind; [|done].
  intros [= <-]. apply list_find_rows_Some in Hfind as [[Hu Hj] Hk]. done.
Qed.

Lemma savedJobPost_findUnique_None d userId jobPostId :
  savedJobPost_findUnique_userId_jobPostId userId jobPostId d = None ↔
  ¬ saved d userId jobPostId.
Proof.
  unfold savedJobPost_findUnique_userId_jobPostId, saved. split.
  - destruct (list_find _ _) as [[i s']|] eqn:Hfind; [done|]. intros _.
    intros (k & s & Hk & Hu & Hj).
    eapply (proj1 (list_find_rows_None _ _)) in Hfind; [|exact Hk].
    by apply Hfind.
  - intros Hno. destruct (list_find _ _) as [[i s']|] eqn:Hfind; [|done].
    apply list_find_rows_Some in Hfind as [[Hu Hj] [k Hk]].
    destruct Hno. by exists k, s'.
Qed.

(** The detail page of an ACTIVE job for a signed-in user. *)
Lemma JobIdPage_active JSON_parses env user jobId d j :
  session env = Some user → denied env = false →
  SessionUser.id user ≠ "" →
  jobPosts d !! jobId = Some j → JobPost.status j = ACTIVE →
  JobIdPage JSON_parses env jobId d =
    if JSON_parses (JobPost.jobDescription j)
    then Shown (select_detail d j,
                match savedJobPost_findUnique_userId_jobPostId
                        (SessionUser.id user) jobId d with
                | Some s => UnsaveForm (SavedJobPost.id s)
                | None => SaveForm jobId
                end)
    else Failed SyntaxError.
Proof.
  intros Hs Hd Hid Hj Hst. unfold JobIdPage, getJob. rewrite Hs, Hd.
  assert (jobPost_findUnique jobId (status_is ACTIVE) d = Some j) as ->.
  { apply jobPost_findUnique_Some. split; [done|].
    by apply bool_decide_eq_true. }
  simpl. destruct (JSON_parses (JobPost.jobDescription j)); [|done].
  destruct (SessionUser.id user) as [|a uid] eqn:E; [done|]. simpl.
  by destruct (savedJobPost_findUnique_userId_jobPostId _ _ _).
Qed.

Lemma doc_store_wf : db_wf Sample2.doc_store.
Proof. split; by_evaluation. Qed.

(** X9.  The detail page of an ACTIVE job renders only when the job's
    description is a JSON document: otherwise [JSON.parse] throws and
    the page fails, save button included.  When it renders, the save
    button is a toggle that never fails on the unique constraint: for a
    signed-in user, in a store that meets the schema's constraints,
    submitting the button the page shows succeeds and flips whether the
    job is saved, and submitting the button of the page rendered next
    succeeds and flips it back; job posts, users and companies are
    untouched. *)
Theorem save_button_toggles JSON_parses env env1 env2 user jobId w j :
  db_wf (db w) →
  session env = Some user → denied env = false →
  session env1 = Some user → denied env1 = false →
  session env2 = Some user → denied env2 = false →
  SessionUser.id user ≠ "" →
  jobPosts (db w) !! jobId = Some j → JobPost.status j = ACTIVE →
  is_Some (users (db w) !! SessionUser.id user) →
  savedJobPosts (db w) !! uuid env1 = None →
  savedJobPosts (db w) !! uuid env2 = None →
  (JSON_parses (JobPost.jobDescription j) = false →
   JobIdPage JSON_parses env jobId (db w) = Failed SyntaxError)
  ∧ (JSON_parses (JobPost.jobDescription j) = true →
     ∃ detail c1 c2 w1 w2,
       JobIdPage JSON_parses env jobId (db w) = Shown (detail, c1)
       ∧ submit env1 c1 w = (Ok tt, w1)
       ∧ JobIdPage JSON_parses env jobId (db w1) = Shown (detail, c2)
       ∧ submit env2 c2 w1 = (Ok tt, w2)
       ∧ (saved (db w1) (SessionUser.id user) jobId ↔
            ¬ saved (db w) (SessionUser.id user) jobId)
       ∧ (saved (db w2) (SessionUser.id user) jobId ↔
            saved (db w) (SessionUser.id user) jobId)
       ∧ jobPosts (db w2) = jobPosts (db w)
       ∧ users (db w2) = users (db w)
       ∧ companies (db w2) = companies (db w)).
Proof.
  intros Hwf Hs Hd Hs1 Hd1 Hs2 Hd2 Hid Hj Hst Huser Hf1 Hf2.
  split.
  { intros Hbad.
    rewrite (JobIdPage_active JSON_parses env user jobId (db w) j) by done.
    by rewrite Hbad. }
  intros Hjson.
  set (uid := SessionUser.id user) in *.
  rewrite (JobIdPage_active JSON_parses env user jobId (db w) j) by done.
  rewrite Hjson. fold uid.
  destruct (savedJobPost_findUnique_userId_jobPostId uid jobId (db w))
    as [s|] eqn:Hfind.
  - (* saved: unsave, then save again *)
    destruct (savedJobPost_findUnique_Some _ _ _ _ Hfind)
      as (Hsu & Hsj & k & Hk).
    pose proof (wf_saved_key _ Hwf _ _ Hk) as Hkey. cbv beta in Hkey.
    assert (Hwas : saved (db w) uid jobId) by (by exists k, s).
    set (d1 := set_savedJobPosts (delete k (savedJobPosts (db w))) (db w)).
    assert (Hnow : ¬ saved d1 uid jobId).
    { intros (k' & s' & Hk' & Hu' & Hj'). subst d1. simpl in Hk'.
      apply lookup_delete_Some in Hk' as [Hne Hk'].
      destruct Hne. symmetry.
      apply (wf_saved_unique _ Hwf _ _ Hk' _ _ Hk); congruence. }
    assert (Hcreate := savedJobPost_create_ok d1 (uuid env2) (now env2)
                         jobId uid).
    eexists _, _, _, _, _. split; [reflexivity|]. split.
    { unfold submit, unSaveJobPost, reqUser, protect, bind, ret, statement,
        revalidatePath, savedJobPost_delete.
      rewrite Hs1, Hd1, Hkey, Hk. fold uid.
      rewrite bool_decide_eq_true_2 by done. reflexivity. }
    cbn [db set_db]. fold d1. split.
    { rewrite (JobIdPage_active JSON_parses env user jobId d1 j) by done.
      rewrite Hjson. fold uid.
      apply savedJobPost_findUnique_None in Hnow as ->.
      reflexivity. }
    split.
    { unfold submit, saveJobPost, reqUser, protect, bind, ret, statement,
        revalidatePath.
      rewrite Hs2, Hd2. cbn [db set_db]. fold d1 uid.
      rewrite Hcreate; [reflexivity| |done|by eexists|done].
      subst d1. simpl. rewrite lookup_delete_ne; [done|].
      intros ->. by rewrite Hk in Hf2. }
    cbn [db set_db]. fold d1. split_and!; try reflexivity.
    + tauto.
    + split; [done|]. intros _. eexists (uuid env2), _. simpl.
      rewrite lookup_insert_eq. done.
  - (* not saved: save, then unsave *)
    apply savedJobPost_findUnique_None in Hfind as Hnot.
    assert (Hcreate := savedJobPost_create_ok (db w) (uuid env1) (now env1)
                         jobId uid Hf1 Hnot ltac:(by eexists) Huser).
    set (s := SavedJobPost.mk (uuid env1) jobId uid (now env1) (now env1)) in *.
    set (d1 := set_savedJobPosts (<[uuid env1 := s]> (savedJobPosts (db w)))
                 (db w)) in *.
    assert (Hfind1 : savedJobPost_findUnique_userId_jobPostId uid jobId d1
                     = Some s).
    { destruct (savedJobPost_findUnique_userId_jobPostId uid jobId d1)
        as [s'|] eqn:Hf.
      - destruct (savedJobPost_findUnique_Some _ _ _ _ Hf)
          as (Hu' & Hj' & k' & Hk'). subst d1. simpl in Hk'.
        apply lookup_insert_Some in Hk' as [[_ <-]|[_ Hk']]; [done|].
        destruct Hnot. by exists k', s'.
      - apply savedJobPost_findUnique_None in Hf. destruct Hf.
        exists (uuid env1), s. subst d1. simpl.
        by rewrite lookup_insert_eq. }
    eexists _, _, _, _, _. split; [reflexivity|]. split.
    { unfold submit, saveJobPost, reqUser, protect, bind, ret, statement,
        revalidatePath.
      rewrite Hs1, Hd1. fold uid. rewrite Hcreate. reflexivity. }
    cbn [db set_db]. fold d1. split.
    { rewrite (JobIdPage_active JSON_parses env user jobId d1 j) by done.
      rewrite Hjson. fold uid.
      rewrite Hfind1. reflexivity. }
    split.
    { unfold submit, unSaveJobPost, reqUser, protect, bind, ret, statement,
        revalidatePath, savedJobPost_delete.
      rewrite Hs2, Hd2. cbn [db set_db SavedJobPost.id s].
      subst d1. cbn [savedJobPosts set_savedJobPosts].
      rewrite lookup_insert_eq. cbn [SavedJobPost.userId s]. fold uid.
      rewrite bool_decide_eq_true_2 by done. reflexivity. }
    cbn [db set_db savedJobPosts set_savedJobPosts jobPosts users companies].
    rewrite delete_insert_id by done.
    split_and!; try reflexivity.
    + split; [done|]. intros _. exists (uuid env1), s. subst d1. simpl.
      by rewrite lookup_insert_eq.
Qed.

Lemma save_button_toggles_witness :
  JobIdPage Sample2.JSON_parses Sample.eve_env "j-dev" (db Sample2.doc_world)
    = Failed SyntaxError
  ∧ ∃ detail c1 c2 w1 w2,
      JobIdPage Sample2.JSON_parses Sample.eve_env "j-doc"
                (db Sample2.doc_world) = Shown (detail, c1)
      ∧ submit Sample.eve_env c1 Sample2.doc_world = (Ok tt, w1)
      ∧ JobIdPage Sample2.JSON_parses Sample.eve_env "j-doc" (db w1)
        = Shown (detail, c2)
      ∧ submit Sample.eve_env' c2 w1 = (Ok tt, w2)
      ∧ jobPosts (db w2) = jobPosts (db Sample2.doc_world).
Proof.
  split.
  - destruct (save_button_toggles Sample2.JSON_parses Sample.eve_env
                Sample.eve_env Sample.eve_env' Sample.eve_session "j-dev"
                Sample2.doc_world Sample.dev) as [Hfails _];
      [exact doc_store_wf | reflexivity | reflexivity | reflexivity
       | reflexivity | reflexivity | reflexivity | discriminate
       | vm_compute; reflexivity | reflexivity
       | eexists; vm_compute; reflexivity
       | vm_compute; reflexivity | vm_compute; reflexivity |].
    apply Hfails. vm_compute. reflexivity.
  - destruct (save_button_toggles Sample2.JSON_parses Sample.eve_env
                Sample.eve_env Sample.eve_env' Sample.eve_session "j-doc"
                Sample2.doc_world Sample2.doc) as [_ Htoggle];
      [exact doc_store_wf | reflexivity | reflexivity | reflexivity
       | reflexivity | reflexivity | reflexivity | discriminate
       | vm_compute; reflexivity | reflexivity
       | eexists; vm_compute; reflexivity
       | vm_compute; reflexivity | vm_compute; reflexivity |].
    destruct Htoggle
      as (detail & c1 & c2 & w1 & w2 & H1 & H2 & H3 & H4 & _ & _ & H5 & _);
      [vm_compute; reflexivity|].
    exists detail, c1, c2, w1, w2.
    split; [exact H1|]. split; [exact H2|]. split; [exact H3|].
    split; [exact H4|exact H5].
Defined.

(** The rows the dashboard query selects. *)
Lemma elem_of_getJobs userId d row :
  row ∈ getJobs userId d ↔
  ∃ j, row = select_my_job d j ∧ j ∈ rows (jobPosts d)
       ∧ Company_userId_is userId d j = true.
Proof.
  unfold getJobs. rewrite list_elem_of_fmap.
  setoid_rewrite merge_sort_Permutation.
  setoid_rewrite list_elem_of_filter.
  split; intros (j & Hrow & H1 & H2); exists j; auto.
Qed.

(** An admitted edit with valid input of a job the caller's company
    holds: the row is written when the numbers of the input fit their
    [Int] columns, and the store refuses the write, nothing changed,
    when one does not. *)
Lemma editJobPost_owned is_url env user data jobId w j :
  session env = Some user → denied env = false →
  jobSchema_valid is_url data = true →
  jobPosts (db w) !! jobId = Some j →
  Company_userId_is (SessionUser.id user) (db w) j = true →
  (fits_Int_columns data →
   ∃ w', editJobPost is_url env data jobId w = (Redirect "/my-jobs", w'))
  ∧ (¬ fits_Int_columns data →
     editJobPost is_url env data jobId w = (Throw ValueOutOfRange, w)).
Proof.
  intros Hs Hd Hvalid Hj Hc.
  unfold editJobPost, reqUser, protect, jobSchema_parse, bind, ret,
    statement, redirect, jobPost_update, fits_Int_columns.
  rewrite Hs, Hd, Hvalid, Hj, Hc. cbn [JobPostUpdateInput.ints edit_data].
  destruct (forallb Int_fits _); split; try done.
  intros _. by eexists.
Qed.

(** X10.  In a store that meets the schema's constraints the dashboard
    lists exactly the job posts of the caller's company, of any status,
    newest first, each with its stored status; and for every listed job
    the store statements of [editJobPost] and [deleteJobPost] find their
    row: an admitted edit by the owner with valid input succeeds when
    the salaries and the listing duration fit the store's 32-bit [Int]
    columns, and is refused by the store, nothing changed, when one of
    them does not. *)
Theorem getJobs_lists_owned is_url env user data w :
  db_wf (db w) →
  session env = Some user → denied env = false →
  jobSchema_valid is_url data = true →
  (∀ jobId, (∃ row, row ∈ getJobs (SessionUser.id user) (db w)
                    ∧ MyJob.id row = jobId) ↔
            owns (db w) (SessionUser.id user) jobId)
  ∧ StronglySorted (λ a b, MyJob.createdAt b ≤ MyJob.createdAt a)
                   (getJobs (SessionUser.id user) (db w))
  ∧ (∀ row, row ∈ getJobs (SessionUser.id user) (db w) →
       (∃ j, jobPosts (db w) !! MyJob.id row = Some j
             ∧ MyJob.status row = JobPost.status j)
       ∧ (fits_Int_columns data →
          ∃ w', editJobPost is_url env data (MyJob.id row) w
                = (Redirect "/my-jobs", w'))
       ∧ (¬ fits_Int_columns data →
          editJobPost is_url env data (MyJob.id row) w
          = (Throw ValueOutOfRange, w))
       ∧ jobPost_delete (MyJob.id row)
           (Company_userId_is (SessionUser.id user)) (db w)
         ≠ inl RecordNotFound).
Proof.
  intros Hwf Hs Hd Hvalid. set (uid := SessionUser.id user).
  assert (Hrow : ∀ row, row ∈ getJobs uid (db w) →
            ∃ j, row = select_my_job (db w) j
                 ∧ jobPosts (db w) !! JobPost.id j = Some j
                 ∧ Company_userId_is uid (db w) j = true).
  { intros row (j & -> & [k Hk]%elem_of_rows & Hc)%elem_of_getJobs.
    pose proof (wf_job_key _ Hwf _ _ Hk) as Hkey. cbv beta in Hkey. subst k.
    by exists j. }
  split_and!.
  - intros jobId. rewrite owns_check. split.
    + intros (row & (j & -> & Hj & Hc)%Hrow & <-). by exists j.
    + intros (j & Hj & Hc). exists (select_my_job (db w) j).
      pose proof (wf_job_key _ Hwf _ _ Hj) as Hkey. cbv beta in Hkey.
      split; [|done]. apply elem_of_getJobs. exists j. split; [done|].
      split; [|done]. apply elem_of_rows. by exists jobId.
  - unfold getJobs.
    apply (StronglySorted_fmap _ newer_first); [by intros x y|].
    apply StronglySorted_merge_sort; apply _.
  - intros row (j & -> & Hj & Hc)%Hrow. cbn [select_my_job MyJob.id MyJob.status].
    split_and!.
    + by exists j.
    + by apply (editJobPost_owned is_url env user data _ w j).
    + by apply (editJobPost_owned is_url env user data _ w j).
    + unfold jobPost_delete. rewrite Hj, Hc. by destruct (list_find _ _).
Qed.

Lemma getJobs_lists_owned_witness :
  (∃ row, row ∈ getJobs "u-ann" Sample.store ∧ MyJob.id row = "j-qa")
  ∧ (∃ w', editJobPost Sample.is_url Sample.ann_env Sample.input "j-qa"
                       Sample.world = (Redirect "/my-jobs", w'))
  ∧ editJobPost Sample.is_url Sample.ann_env Sample.huge_input "j-qa"
                Sample.world = (Throw ValueOutOfRange, Sample.world).
Proof.
  assert (Hhuge : editJobPost Sample.is_url Sample.ann_env Sample.huge_input
                    "j-qa" Sample.world
                  = (Throw ValueOutOfRange, Sample.world)).
  { destruct (getJobs_lists_owned Sample.is_url Sample.ann_env
                Sample.ann_session Sample.huge_input Sample.world
                sample_store_wf eq_refl eq_refl)
      as (Hiff & _ & Hrows); [vm_compute; reflexivity|].
    destruct (proj2 (Hiff "j-qa")) as (row & Hrow & Hid).
    { apply owns_check. exists Sample.qa. split; vm_compute; reflexivity. }
    destruct (Hrows row Hrow) as (_ & _ & Hrefused & _). rewrite Hid in Hrefused.
    apply Hrefused. vm_compute. discriminate. }
  cut ((∃ row, row ∈ getJobs "u-ann" Sample.store ∧ MyJob.id row = "j-qa")
       ∧ ∃ w', editJobPost Sample.is_url Sample.ann_env Sample.input "j-qa"
                           Sample.world = (Redirect "/my-jobs", w')).
  { intros [H1 H2]. split; [exact H1|]. split; [exact H2|exact Hhuge]. }
  destruct (getJobs_lists_owned Sample.is_url Sample.ann_env Sample.ann_session
              Sample.input Sample.world sample_store_wf eq_refl eq_refl)
    as (Hiff & _ & Hrows); [vm_compute; reflexivity|].
  assert (Hin : ∃ row, row ∈ getJobs "u-ann" Sample.store ∧ MyJob.id row = "j-qa").
  { apply Hiff. apply owns_check. exists Sample.qa.
    split; vm_compute; reflexivity. }
  split; [exact Hin|].
  destruct Hin as (row & Hrow & Hid).
  destruct (Hrows row Hrow) as (_ & Hedit & _). rewrite Hid in Hedit.
  apply Hedit. vm_compute. reflexivity.
Defined.

(** X11.  In a store that meets the schema's constraints the favorites
    page lists a job exactly when the user has a saved record for it,
    whatever the job's status, and every record yields a card; a listed
    job that is not ACTIVE cannot be opened: its detail page is not
    found. *)
Theorem getFavorites_lists_saved userId d :
  db_wf d →
  (∀ jobId, (∃ card, Some card ∈ getFavorites userId d
                     ∧ JobCard.id card = jobId) ↔
            saved d userId jobId)
  ∧ (None ∉ getFavorites userId d)
  ∧ (∀ jobId j viewer,
       saved d userId jobId → jobPosts d !! jobId = Some j →
       JobPost.status j ≠ ACTIVE →
       getJob jobId viewer d = NotFound).
Proof.
  intros Hwf.
  assert (Hel : ∀ o, o ∈ getFavorites userId d ↔
            ∃ k s, savedJobPosts d !! k = Some s
                   ∧ SavedJobPost.userId s = userId
                   ∧ o = select_card d <$> jobPosts d !! SavedJobPost.jobPostId s).
  { intros o. unfold getFavorites. rewrite list_elem_of_fmap.
    setoid_rewrite list_elem_of_filter. setoid_rewrite elem_of_rows. split.
    - intros (s & -> & Hu & k & Hk). by exists k, s.
    - intros (k & s & Hk & Hu & ->). exists s. eauto. }
  split_and!.
  - intros jobId. split.
    + intros (card & (k & s & Hk & Hu & Hcard)%Hel & Hid).
      exists k, s. split_and!; [done..|].
      destruct (jobPosts d !! SavedJobPost.jobPostId s) as [j|] eqn:Hj;
        [|done].
      injection Hcard as ->. simpl in Hid.
      pose proof (wf_job_key _ Hwf _ _ Hj) as Hkey. cbv beta in Hkey.
      congruence.
    + intros (k & s & Hk & Hu & Hj).
      destruct (wf_saved_job _ Hwf _ _ Hk) as [j Hjob].
      pose proof (wf_job_key _ Hwf _ _ Hjob) as Hkey. cbv beta in Hkey.
      exists (select_card d j). split; [|simpl; congruence].
      apply Hel. exists k, s. by rewrite Hjob.
  - intros (k & s & Hk & Hu & Hnone)%Hel.
    destruct (wf_saved_job _ Hwf _ _ Hk) as [j Hjob].
    by rewrite Hjob in Hnone.
  - intros jobId j viewer _ Hj Hst. unfold getJob, jobPost_findUnique, status_is.
    rewrite Hj. by rewrite bool_decide_eq_false_2.
Qed.

Lemma sample2_store_wf : db_wf Sample2.store.
Proof. split; by_evaluation. Qed.

Lemma getFavorites_lists_saved_witness :
  (∃ card, Some card ∈ getFavorites "u-eve" Sample2.store
           ∧ JobCard.id card = "j-qa")
  ∧ getJob "j-qa" (Some "u-eve") Sample2.store = NotFound.
Proof.
  destruct (getFavorites_lists_saved "u-eve" Sample2.store sample2_store_wf)
    as (Hiff & _ & Hclosed).
  split.
  - apply Hiff. exists "s-2", Sample2.eve_qa.
    split_and!; vm_compute; reflexivity.
  - apply (Hclosed "j-qa" Sample.qa).
    + exists "s-2", Sample2.eve_qa. split_and!; vm_compute; reflexivity.
    + vm_compute. reflexivity.
    + discriminate.
Defined.

(** X12.  The edit page and [editJobPost] guard alike: for a signed-in
    caller the page is not found exactly when the caller owns no company
    holding the job, in which case the action throws [RecordNotFound];
    and when the page is shown, in a store that meets the schema's
    constraints, the id it hands to the form is the job's and a valid,
    admitted [editJobPost] with it finds the row: it succeeds when the
    salaries and the listing duration fit the store's 32-bit [Int]
    columns and is refused by the store, nothing changed, when one of
    them does not. *)
Theorem EditPage_agrees_with_editJobPost is_url env user data jobId w :
  session env = Some user → denied env = false →
  jobSchema_valid is_url data = true →
  (EditPage env jobId (db w) = NotFound ↔
     ¬ owns (db w) (SessionUser.id user) jobId)
  ∧ (EditPage env jobId (db w) = NotFound →
     editJobPost is_url env data jobId w = (Throw RecordNotFound, w))
  ∧ (db_wf (db w) →
     ∀ e, EditPage env jobId (db w) = Shown e →
       EditData.id e = jobId
       ∧ (fits_Int_columns data →
          ∃ w', editJobPost is_url env data (EditData.id e) w
                = (Redirect "/my-jobs", w'))
       ∧ (¬ fits_Int_columns data →
          editJobPost is_url env data (EditData.id e) w
          = (Throw ValueOutOfRange, w))).
Proof.
  intros Hs Hd Hvalid. set (uid := SessionUser.id user).
  assert (Hpage : EditPage env jobId (db w) =
            match jobPost_findUnique jobId (Company_userId_is uid) (db w) with
            | Some j => Shown (select_edit (db w) j)
            | None => NotFound
            end).
  { unfold EditPage, EditPage_getData. by rewrite Hs. }
  assert (Hnf : EditPage env jobId (db w) = NotFound ↔ ¬ owns (db w) uid jobId).
  { rewrite Hpage, owns_check.
    destruct (jobPost_findUnique jobId (Company_userId_is uid) (db w))
      as [j|] eqn:Hfind.
    - apply jobPost_findUnique_Some in Hfind. split; [done|].
      intros Hno. destruct Hno. by exists j.
    - split; [|done]. intros _ (j & Hj).
      apply jobPost_findUnique_Some in Hj. congruence. }
  split_and!.
  - exact Hnf.
  - intros Hno%Hnf.
    unfold editJobPost, reqUser, protect, jobSchema_parse, bind, ret, statement.
    rewrite Hs, Hd, Hvalid. fold uid.
    by rewrite (jobPost_update_not_owned _ _ _ _ _ Hno).
  - intros Hwf e. rewrite Hpage.
    destruct (jobPost_findUnique jobId (Company_userId_is uid) (db w))
      as [j|] eqn:Hfind; [|done].
    apply jobPost_findUnique_Some in Hfind as [Hj Hc]. intros [= <-].
    pose proof (wf_job_key _ Hwf _ _ Hj) as Hkey. cbv beta in Hkey.
    cbn [select_edit EditData.id]. rewrite Hkey. split; [done|].
    by apply (editJobPost_owned is_url env user data _ w j).
Qed.

Lemma EditPage_agrees_with_editJobPost_witness :
  EditPage Sample.bob_env "j-dev" (db Sample.world) = NotFound
  ∧ editJobPost Sample.is_url Sample.bob_env Sample.input "j-dev" Sample.world
    = (Throw RecordNotFound, Sample.world).
Proof.
  destruct (EditPage_agrees_with_editJobPost Sample.is_url Sample.bob_env
              Sample.bob_session Sample.input "j-dev" Sample.world)
    as (_ & Hthrow & _); [reflexivity | reflexivity | vm_compute; reflexivity |].
  assert (Hpage : EditPage Sample.bob_env "j-dev" (db Sample.world) = NotFound)
    by (vm_compute; reflexivity).
  split; [exact Hpage | exact (Hthrow Hpage)].
Defined.

(** X13.  A signed-in user without a company is sent to "/" both by the
    post-job page and by [createJob], which then changes nothing: no
    customer is created, no row inserted, no message submitted (an
    invalid input is still rejected first). *)
Theorem createJob_without_company pricing is_url env user data w :
  session env = Some user →
  company_findUnique_userId (SessionUser.id user) (db w) = None →
  PostJobPage env (db w) = Redirected "/"
  ∧ createJob pricing is_url env data w =
      (if jobSchema_valid is_url data then Redirect "/" else Throw ZodError, w).
Proof.
  intros Hs Hnone. split.
  - unfold PostJobPage, getCompanyData. by rewrite Hs, Hnone.
  - unfold createJob, reqUser, jobSchema_parse, bind, ret, throw, query,
      redirect.
    rewrite Hs. destruct (jobSchema_valid is_url data); [|done].
    by rewrite Hnone.
Qed.

Lemma createJob_without_company_witness :
  createJob Sample.pricing Sample.is_url Sample.eve_env Sample.input
            Sample.world = (Redirect "/", Sample.world).
Proof.
  destruct (createJob_without_company Sample.pricing Sample.is_url
              Sample.eve_env Sample.eve_session Sample.input Sample.world)
    as [_ Hcreate]; [reflexivity | vm_compute; reflexivity |].
  rewrite Hcreate. vm_compute. reflexivity.
Defined.

(** X14.  [deleteJobPost] by the owner succeeds exactly when nobody has
    saved the job: then the row is removed and the cancellation message
    submitted; while a saved record refers to the job the store refuses
    the delete (the relation declares no cascade), the action throws and
    nothing changes, no message included. *)
Theorem deleteJobPost_of_saved_job env user jobId w :
  session env = Some user → denied env = false →
  owns (db w) (SessionUser.id user) jobId →
  ((∃ userId, saved (db w) userId jobId) →
   deleteJobPost env jobId w = (Throw ForeignKeyConstraint, w))
  ∧ ((¬ ∃ userId, saved (db w) userId jobId) →
     deleteJobPost env jobId w =
       (Redirect "/my-jobs",
        mkWorld (set_jobPosts (delete jobId (jobPosts (db w))) (db w))
                (inngest_sent w
                   ++ [InngestEvent.mk "job/cancel.expiration" jobId None])
                (stripe_customers w) (stripe_sessions w) (revalidated w))).
Proof.
  intros Hs Hd (j & Hj & Hc)%owns_check.
  unfold deleteJobPost, deleteJobPost_sending, inngest_send_or, reqUser,
    protect, bind, ret, statement, inngest_send, redirect, jobPost_delete.
  rewrite Hs, Hd. simpl. rewrite Hj, Hc. split.
  - intros (u & k & s & Hk & Hu & Hjs).
    destruct (list_find _ _) as [[i s']|] eqn:Hfind; [done|].
    eapply (proj1 (list_find_rows_None _ _)) in Hfind; [|exact Hk]. done.
  - intros Hnone.
    destruct (list_find _ _) as [[i s']|] eqn:Hfind; [|done].
    apply list_find_rows_Some in Hfind as [Hjs [k Hk]].
    destruct Hnone. exists (SavedJobPost.userId s'), k, s'. done.
Qed.

Lemma deleteJobPost_of_saved_job_witness :
  deleteJobPost Sample.ann_env "j-dev" Sample2.world
    = (Throw ForeignKeyConstraint, Sample2.world)
  ∧ ∃ w', deleteJobPost Sample.ann_env "j-dev" Sample.world
          = (Redirect "/my-jobs", w').
Proof.
  split.
  - destruct (deleteJobPost_of_saved_job Sample.ann_env Sample.ann_session
                "j-dev" Sample2.world) as [Hrefused _];
      [reflexivity | reflexivity | |].
    + apply owns_check. exists Sample.dev. split; vm_compute; reflexivity.
    + apply Hrefused. exists "u-eve", "s-1", Sample2.eve_dev.
      split_and!; vm_compute; reflexivity.
  - destruct (deleteJobPost_of_saved_job Sample.ann_env Sample.ann_session
                "j-dev" Sample.world) as [_ Hdone];
      [reflexivity | reflexivity | |].
    + apply owns_check. exists Sample.dev. split; vm_compute; reflexivity.
    + eexists. apply Hdone. intros (u & k & s & Hk & _).
      vm_compute in Hk. discriminate Hk.
Defined.

(** * Properties of onboarding *)

Lemma company_findUnique_userId_None d userId :
  company_findUnique_userId userId d = None ↔
  ∀ k c, companies d !! k = Some c → Company.userId c ≠ userId.
Proof.
  unfold company_findUnique_userId.
  destruct (list_find _ _) as [[i c]|] eqn:Hfind.
  - split; [done|]. intros Hno.
    apply list_find_rows_Some in Hfind as [Hu [k Hk]]. by destruct (Hno k c).
  - split; [|done]. intros _ k c Hk.
    eapply (proj1 (list_find_rows_None _ _)) in Hfind; [|exact Hk]. done.
Qed.

(** X15.  [createCompany] for a signed-in user without a company, with
    valid input and a free company id, redirects to "/" having stored
    the company under the user: the company lookup by user then finds
    it, the user row is marked onboarded with type COMPANY and keeps its
    customer id, the onboarding page from then on redirects to "/", the
    post-job page shows the company's data, and job posts and saved
    records are untouched. *)
Theorem createCompany_onboards is_url env user data u w :
  session env = Some user → denied env = false →
  companySchema_valid is_url data = true →
  users (db w) !! SessionUser.id user = Some u →
  company_findUnique_userId (SessionUser.id user) (db w) = None →
  companies (db w) !! uuid env = None →
  ∃ w' c u',
    createCompany is_url env data w = (Redirect "/", w')
    ∧ c = Company.mk (uuid env) (CompanyInput.name data)
            (CompanyInput.location data) (CompanyInput.about data)
            (CompanyInput.logo data) (CompanyInput.website data)
            (CompanyInput.xAccount data) (SessionUser.id user)
            (now env) (now env)
    ∧ company_findUnique_userId (SessionUser.id user) (db w') = Some c
    ∧ companies (db w') = <[uuid env := c]> (companies (db w))
    ∧ users (db w') = <[SessionUser.id user := u']> (users (db w))
    ∧ User.onBoardingCompleted u' = true
    ∧ User.userType u' = Some COMPANY
    ∧ User.stripeCustomerId u' = User.stripeCustomerId u
    ∧ OnBoardingPage env (db w') = Redirected "/"
    ∧ PostJobPage env (db w') = Shown (select_company_form c)
    ∧ jobPosts (db w') = jobPosts (db w)
    ∧ savedJobPosts (db w') = savedJobPosts (db w).
Proof.
  intros Hs Hd Hvalid Hu Hnone Hfresh. set (uid := SessionUser.id user) in *.
  pose proof (proj1 (company_findUnique_userId_None _ _) Hnone) as Hno.
  assert (Hstmt : list_find (λ c, Company.userId c = uid)
                    (rows (companies (db w))) = None).
  { apply list_find_rows_None. intros k c Hk. by apply (Hno k c). }
  eexists _, _, _. split.
  { unfold createCompany, reqUser, protect, companySchema_parse, bind, ret,
      statement, redirect, user_update_create_Company.
    rewrite Hs, Hd, Hvalid. fold uid. rewrite Hu, Hfresh, Hstmt.
    reflexivity. }
  split; [reflexivity|].
  cbn [db set_db users companies jobPosts savedJobPosts].
  set (c := Company.mk (uuid env) _ _ _ _ _ _ uid _ _).
  assert (Hfound : company_findUnique_userId uid
                     (mkDb (<[uid := User.mk (User.id u) (User.name u)
                                       (User.email u) (User.emailVerified u)
                                       (User.image u) (User.stripeCustomerId u)
                                       true (Some COMPANY)]> (users (db w)))
                           (<[uuid env := c]> (companies (db w)))
                           (jobPosts (db w)) (savedJobPosts (db w)))
                   = Some c).
  { match goal with |- company_findUnique_userId uid ?d' = _ =>
      destruct (company_findUnique_userId uid d') as [c'|] eqn:Hf end.
    - apply company_findUnique_userId_Some in Hf as [Hcu [k Hk]].
      cbn [companies] in Hk. apply lookup_insert_Some in Hk as [[_ <-]|[_ Hk]]; [done|].
      by destruct (Hno k c').
    - pose proof (proj1 (company_findUnique_userId_None _ _) Hf) as Hf'.
      destruct (Hf' (uuid env) c); [|done].
      cbn [companies]. by rewrite lookup_insert_eq. }
  split_and!; try reflexivity.
  - exact Hfound.
  - unfold OnBoardingPage, checkOnboardingstatus. rewrite Hs. fold uid.
    cbn [users]. by rewrite lookup_insert_eq.
  - unfold PostJobPage, getCompanyData. rewrite Hs. fold uid.
    by rewrite Hfound.
Qed.

Lemma createCompany_onboards_witness :
  ∃ w', createCompany Sample.is_url Sample2.eve_onboarding Sample2.company_input
                      Sample.world = (Redirect "/", w')
        ∧ OnBoardingPage Sample2.eve_onboarding (db w') = Redirected "/".
Proof.
  destruct (createCompany_onboards Sample.is_url Sample2.eve_onboarding
              Sample.eve_session Sample2.company_input Sample.eve Sample.world)
    as (w' & c & u' & Hrun & _ & _ & _ & _ & _ & _ & _ & Hpage & _);
    try (vm_compute; reflexivity).
  exists w'. split; [exact Hrun|exact Hpage].
Defined.

(** X16.  [createCompany] for a user who already has a company, in a
    store that meets the schema's constraints, is refused whatever id is
    drawn for the new row: the nested create would break the required
    relation between the existing company and its user, the action
    throws that violation and nothing changes, so the user row keeps its
    flags and the existing company stays as it is. *)
Theorem createCompany_twice is_url env user data c w :
  db_wf (db w) →
  session env = Some user → denied env = false →
  companySchema_valid is_url data = true →
  company_findUnique_userId (SessionUser.id user) (db w) = Some c →
  createCompany is_url env data w = (Throw RelationViolation, w).
Proof.
  intros Hwf Hs Hd Hvalid Hc. set (uid := SessionUser.id user) in *.
  destruct (company_findUnique_userId_Some _ _ _ Hc) as [Hcu [k Hk]].
  destruct (wf_company_user _ Hwf _ _ Hk) as [u Hu]. rewrite Hcu in Hu.
  unfold createCompany, reqUser, protect, companySchema_parse, bind, ret,
    statement, redirect, user_update_create_Company.
  rewrite Hs, Hd, Hvalid. fold uid. rewrite Hu.
  destruct (list_find _ _) as [[i c'']|] eqn:Hfind; [done|].
  exfalso. eapply (proj1 (list_find_rows_None _ _)) in Hfind; [|exact Hk].
  done.
Qed.

Lemma createCompany_twice_witness :
  createCompany Sample.is_url Sample.ann_env Sample2.company_input Sample.world
    = (Throw RelationViolation, Sample.world).
Proof.
  apply (createCompany_twice Sample.is_url Sample.ann_env Sample.ann_session
           Sample2.company_input Sample.acme Sample.world);
    [exact sample_store_wf | reflexivity | reflexivity
     | vm_compute; reflexivity | vm_compute; reflexivity].
Defined.

(** X17.  What a failed action leaves behind.  [editJobPost],
    [saveJobPost], [unSaveJobPost] and [createCompany] are
    all-or-nothing: whenever one of them ends otherwise than with its
    success (a redirect to the login page, a denied request, invalid
    input, a refused store statement), the world is exactly what it was
    before the call.  [deleteJobPost] is so with one exception: the
    cancellation message is sent after the row is deleted, so when the
    message service rejects the call the action ends with that rejection,
    the row is gone and no message was sent. *)
Theorem failed_action_effects is_url env w :
  (∀ data jobId r w',
     editJobPost is_url env data jobId w = (r, w') →
     r ≠ Redirect "/my-jobs" → w' = w)
  ∧ (∀ failure jobId r w',
       deleteJobPost_sending failure env jobId w = (r, w') →
       r ≠ Redirect "/my-jobs" →
       w' = w
       ∨ ∃ err j,
           failure = Some err ∧ r = Throw err
           ∧ jobPosts (db w) !! jobId = Some j
           ∧ w' = set_db (set_jobPosts (delete jobId (jobPosts (db w))) (db w))
                    w)
  ∧ (∀ err user jobId j d',
       session env = Some user → denied env = false →
       jobPost_delete jobId (Company_userId_is (SessionUser.id user)) (db w)
       = inr (j, d') →
       deleteJobPost_sending (Some err) env jobId w = (Throw err, set_db d' w)
       ∧ jobPosts d' !! jobId = None)
  ∧ (∀ jobId r w', saveJobPost env jobId w = (r, w') → r ≠ Ok tt → w' = w)
  ∧ (∀ savedJobPostId r w',
       unSaveJobPost env savedJobPostId w = (r, w') → r ≠ Ok tt → w' = w)
  ∧ (∀ data r w',
       createCompany is_url env data w = (r, w') →
       r ≠ Redirect "/" → w' = w).
Proof.
  split_and!.
  - intros data jobId r w'.
    unfold editJobPost, reqUser, protect, jobSchema_parse, bind, ret, throw,
      redirect, statement.
    destruct (session env) as [user|]; [|by intros [= <- <-]].
    destruct (denied env); [by intros [= <- <-]|].
    destruct (jobSchema_valid is_url data); [|by intros [= <- <-]].
    destruct (jobPost_update _ _ _ _ _) as [e|[j d']]; [by intros [= <- <-]|].
    by intros [= <- <-].
  - intros failure jobId r w'.
    unfold deleteJobPost_sending, inngest_send_or, reqUser, protect, bind,
      ret, throw, redirect, statement, inngest_send.
    destruct (session env) as [user|]; [|intros [= <- <-]; by left].
    destruct (denied env); [intros [= <- <-]; by left|].
    destruct (jobPost_delete _ _ _) as [e|[j d']] eqn:Hdel;
      [intros [= <- <-]; by left|].
    destruct failure as [err|]; [|by intros [= <- <-]].
    intros [= <- <-] _. right. exists err, j.
    unfold jobPost_delete in Hdel.
    destruct (jobPosts (db w) !! jobId) as [j0|]; [|done].
    destruct (Company_userId_is _ _ _); [|done].
    destruct (list_find _ _); [done|].
    injection Hdel as <- <-. done.
  - intros err user jobId j d' Hs Hd Hdel. split.
    + unfold deleteJobPost_sending, inngest_send_or, reqUser, protect, bind,
        ret, throw, redirect, statement.
      by rewrite Hs, Hd, Hdel.
    + unfold jobPost_delete in Hdel.
      destruct (jobPosts (db w) !! jobId) as [j0|]; [|done].
      destruct (Company_userId_is _ _ _); [|done].
      destruct (list_find _ _); [done|].
      injection Hdel as _ <-. cbn. apply lookup_delete_eq.
  - intros jobId r w'.
    unfold saveJobPost, reqUser, protect, bind, ret, throw, redirect,
      statement, revalidatePath.
    destruct (session env) as [user|]; [|by intros [= <- <-]].
    destruct (denied env); [by intros [= <- <-]|].
    destruct (savedJobPost_create _ _ _ _ _) as [e|[j d']];
      [by intros [= <- <-]|].
    by intros [= <- <-].
  - intros savedJobPostId r w'.
    unfold unSaveJobPost, reqUser, protect, bind, ret, throw, redirect,
      statement, revalidatePath.
    destruct (session env) as [user|]; [|by intros [= <- <-]].
    destruct (denied env); [by intros [= <- <-]|].
    destruct (savedJobPost_delete _ _ _) as [e|[j d']];
      [by intros [= <- <-]|].
    by intros [= <- <-].
  - intros data r w'.
    unfold createCompany, reqUser, protect, companySchema_parse, bind, ret,
      throw, redirect, statement.
    destruct (session env) as [user|]; [|by intros [= <- <-]].
    destruct (denied env); [by intros [= <- <-]|].
    destruct (companySchema_valid is_url data); [|by intros [= <- <-]].
    destruct (user_update_create_Company _ _ _ _ _) as [e|[j d']];
      [by intros [= <- <-]|].
    by intros [= <- <-].
Qed.

Lemma failed_action_effects_witness :
  ∃ w',
    deleteJobPost_sending (Some (Error "unavailable")) Sample.ann_env "j-dev"
                          Sample.world
      = (Throw (Error "unavailable"), w')
    ∧ jobPosts (db w') !! "j-dev" = None
    ∧ inngest_sent w' = [].
Proof.
  destruct (failed_action_effects Sample.is_url Sample.ann_env Sample.world)
    as (_ & _ & Hrejected & _).
  destruct (Hrejected (Error "unavailable") Sample.ann_session "j-dev"
              Sample.dev
              (set_jobPosts (delete "j-dev" (jobPosts Sample.store))
                            Sample.store))
    as [Hrun Hgone]; [reflexivity | reflexivity | vm_compute; reflexivity |].
  eexists. split; [exact Hrun|]. split; [exact Hgone|reflexivity].
Defined.

(** * More properties of the payment webhook *)

(** What a delivery can do: nothing, or activate the row of the event's
    job id. *)
Lemma POST_cases constructEvent now_ body sig w :
  (∃ resp, POST constructEvent now_ body sig w = (Ok resp, w)
           ∧ (resp = Response.mk None 200 →
              ∃ event, constructEvent now_ body sig = Some event
                       ∧ StripeEvent.type event ≠ "checkout.session.completed"))
  ∨ POST constructEvent now_ body sig w = (Throw RecordNotFound, w)
  ∨ ∃ event jobId j,
      constructEvent now_ body sig = Some event
      ∧ StripeEvent.type event = "checkout.session.completed"
      ∧ StripeEvent.metadata_jobId event = Some jobId
      ∧ jobId ≠ ""
      ∧ jobPosts (db w) !! jobId = Some j
      ∧ (∃ companyId,
           user_company_id (StripeEvent.customer event) (db w) = Some companyId
           ∧ companyId_is companyId (db w) j = true)
      ∧ POST constructEvent now_ body sig w =
          (Ok (Response.mk None 200),
           set_db (set_jobPosts
                     (<[jobId := touch now_ (with_status ACTIVE j)]>
                        (jobPosts (db w))) (db w)) w).
Proof.
  destruct (constructEvent now_ body sig) as [event|] eqn:Hev.
  2:{ left. eexists. unfold POST, ret. rewrite Hev. split; [reflexivity|].
      intros [=]. }
  destruct (decide (StripeEvent.type event = "checkout.session.completed"))
    as [Htype|Htype].
  2:{ left. eexists. unfold POST, ret. rewrite Hev.
      rewrite bool_decide_eq_false_2 by done. split; [reflexivity|].
      intros _. by exists event. }
  destruct (StripeEvent.metadata_jobId event) as [jobId|] eqn:Hjob.
  2:{ left. eexists. unfold POST, ret. rewrite Hev, Hjob.
      rewrite bool_decide_eq_true_2 by done. split; [reflexivity|].
      intros [=]. }
  destruct (decide (jobId = "")) as [->|Hne].
  { left. eexists. unfold POST, ret. rewrite Hev, Hjob.
    rewrite bool_decide_eq_true_2 by done. split; [reflexivity|].
    intros [=]. }
  rewrite (POST_checkout _ _ _ _ _ _ _ Hev Htype Hjob Hne).
  destruct (user_company_id _ _) as [companyId|] eqn:Hcompany.
  2:{ left. eexists. split; [reflexivity|]. intros [=]. }
  unfold jobPost_update.
  destruct (jobPosts (db w) !! jobId) as [j|] eqn:Hj; [|by right; left].
  destruct (companyId_is companyId (db w) j) eqn:Hextra; [|by right; left].
  right; right. exists event, jobId, j. split_and!; try done.
  by exists companyId.
Qed.

(** X18.  Whatever is posted to the webhook, the handler touches at most
    one job post: either the world is left exactly as it was, or the
    answer is 200 with an empty body and the one row named by a verified
    checkout-completed event has become ACTIVE with a fresh [updatedAt],
    every other column and every other row, table and outgoing message
    being as before.  A request whose signature does not verify is
    answered 400 "Webhook Error", a verified event of another type 200,
    both without any change, and any answer other than the empty 200
    means nothing was written. *)
Theorem POST_frame constructEvent now_ body sig w r w' :
  POST constructEvent now_ body sig w = (r, w') →
  (w' = w
   ∨ ∃ event jobId j,
       constructEvent now_ body sig = Some event
       ∧ StripeEvent.type event = "checkout.session.completed"
       ∧ StripeEvent.metadata_jobId event = Some jobId
       ∧ jobPosts (db w) !! jobId = Some j
       ∧ r = Ok (Response.mk None 200)
       ∧ w' = set_db (set_jobPosts
                        (<[jobId := touch now_ (with_status ACTIVE j)]>
                           (jobPosts (db w))) (db w)) w)
  ∧ (r ≠ Ok (Response.mk None 200) → w' = w)
  ∧ (constructEvent now_ body sig = None →
     r = Ok (Response.mk (Some "Webhook Error") 400) ∧ w' = w)
  ∧ (∀ event, constructEvent now_ body sig = Some event →
              StripeEvent.type event ≠ "checkout.session.completed" →
              r = Ok (Response.mk None 200) ∧ w' = w).
Proof.
  intros Hrun. split_and!.
  - destruct (POST_cases constructEvent now_ body sig w)
      as [(resp & H & _)|[H|(event & jobId & j & Hev & Ht & Hj & _ & Hrow & _ & H)]];
      rewrite H in Hrun; injection Hrun as <- <-; [by left|by left|].
    right. by exists event, jobId, j.
  - intros Hr.
    destruct (POST_cases constructEvent now_ body sig w)
      as [(resp & H & _)|[H|(event & jobId & j & _ & _ & _ & _ & _ & _ & H)]];
      rewrite H in Hrun; injection Hrun as <- <-; done.
  - intros Hev. unfold POST, ret in Hrun. rewrite Hev in Hrun.
    by injection Hrun as <- <-.
  - intros event Hev Htype. unfold POST, ret in Hrun. rewrite Hev in Hrun.
    rewrite bool_decide_eq_false_2 in Hrun by done.
    by injection Hrun as <- <-.
Qed.

Lemma POST_frame_witness :
  POST (Sample.constructEvent (Some "j-qa")) 900 "cus_ann" (Some "sig-bad")
       Sample.world
    = (Ok (Response.mk (Some "Webhook Error") 400), Sample.world).
Proof.
  destruct (POST_frame (Sample.constructEvent (Some "j-qa")) 900 "cus_ann"
              (Some "sig-bad") Sample.world
              (POST (Sample.constructEvent (Some "j-qa")) 900 "cus_ann"
                    (Some "sig-bad") Sample.world).1
              (POST (Sample.constructEvent (Some "j-qa")) 900 "cus_ann"
                    (Some "sig-bad") Sample.world).2)
    as (_ & _ & Hbad & _).
  - by destruct (POST _ _ _ _ _).
  - destruct (Hbad eq_refl) as [Hr Hw].
    destruct (POST _ _ _ _ _) as [r w']. cbn [fst snd] in Hr, Hw.
    by rewrite Hr, Hw.
Defined.

Lemma user_company_id_ext customer d d' :
  users d = users d' → companies d = companies d' →
  user_company_id customer d = user_company_id customer d'.
Proof.
  intros Hu Hc. unfold user_company_id, user_findUnique_stripeCustomerId.
  rewrite Hu. destruct (list_find _ _) as [[i u]|]; [|done].
  cbn [fmap option_fmap option_map snd].
  by rewrite (company_findUnique_userId_ext d d').
Qed.

Lemma companyId_is_ext companyId d d' j j' :
  JobPost.companyId j' = JobPost.companyId j →
  companyId_is companyId d' j' = companyId_is companyId d j.
Proof. intros Hc. unfold companyId_is. by rewrite Hc. Qed.

(** X19.  A checkout-completed event that was answered with the empty
    200 names a job post of the store.  When the same body and signature
    are delivered again, at a time [now2] and into a world [w'] whose
    users and companies are those the first delivery left: if the
    signature no longer verifies at [now2] (it has aged beyond the
    tolerance of the verifier) the answer is 400 "Webhook Error" and
    nothing changes; if it still verifies, the job post, when it is
    still stored for the same company, is set ACTIVE again whatever its
    status has become, with [updatedAt] set to [now2], and the answer is
    the empty 200, while a job post deleted in between makes the handler
    throw.  In particular a second delivery right after the first, into
    the world it left, moves nothing but the row's [updatedAt]. *)
Theorem POST_redelivered constructEvent now1 now2 body sig event w w1 w' :
  constructEvent now1 body sig = Some event →
  StripeEvent.type event = "checkout.session.completed" →
  POST constructEvent now1 body sig w = (Ok (Response.mk None 200), w1) →
  users (db w') = users (db w1) → companies (db w') = companies (db w1) →
  ∃ jobId j,
    StripeEvent.metadata_jobId event = Some jobId
    ∧ jobPosts (db w) !! jobId = Some j
    ∧ w1 = set_db (set_jobPosts
                     (<[jobId := touch now1 (with_status ACTIVE j)]>
                        (jobPosts (db w))) (db w)) w
    ∧ (constructEvent now2 body sig = None →
       POST constructEvent now2 body sig w'
       = (Ok (Response.mk (Some "Webhook Error") 400), w'))
    ∧ (constructEvent now2 body sig = Some event →
       (∀ j', jobPosts (db w') !! jobId = Some j' →
              JobPost.companyId j' = JobPost.companyId j →
              POST constructEvent now2 body sig w'
              = (Ok (Response.mk None 200),
                 set_db (set_jobPosts
                           (<[jobId := touch now2 (with_status ACTIVE j')]>
                              (jobPosts (db w'))) (db w')) w'))
       ∧ (jobPosts (db w') !! jobId = None →
          POST constructEvent now2 body sig w' = (Throw RecordNotFound, w'))
       ∧ POST constructEvent now2 body sig w1
         = (Ok (Response.mk None 200),
            set_db (set_jobPosts
                      (<[jobId := touch now2 (with_status ACTIVE j)]>
                         (jobPosts (db w))) (db w)) w)).
Proof.
  intros Hev Htype Hrun Husers Hcompanies.
  destruct (POST_cases constructEvent now1 body sig w)
    as [(resp & H & Hother)|[H|(event' & jobId & j & Hev' & _ & Hjob & Hne
                                & Hj & (companyId & Hcompany & Hextra) & H)]];
    rewrite H in Hrun.
  - injection Hrun as -> <-. destruct (Hother eq_refl) as (e & He & Hnot).
    rewrite Hev in He. injection He as <-. done.
  - discriminate Hrun.
  - injection Hrun as <-. rewrite Hev in Hev'. injection Hev' as <-.
    exists jobId, j. split_and!; try done.
    + intros Hold. unfold POST, ret. by rewrite Hold.
    + (* the general redelivery *)
      intros Hev2. 
      assert (Hcompany' : user_company_id (StripeEvent.customer event) (db w')
                          = Some companyId).
      { rewrite <- Hcompany. apply user_company_id_ext.
        - by rewrite Husers.
        - by rewrite Hcompanies. }
      assert (Hgeneral : ∀ w0 j',
                user_company_id (StripeEvent.customer event) (db w0)
                = Some companyId →
                jobPosts (db w0) !! jobId = Some j' →
                JobPost.companyId j' = JobPost.companyId j →
                POST constructEvent now2 body sig w0
                = (Ok (Response.mk None 200),
                   set_db (set_jobPosts
                             (<[jobId := touch now2 (with_status ACTIVE j')]>
                                (jobPosts (db w0))) (db w0)) w0)).
      { intros w0 j' Hc0 Hj0 Hsame.
        rewrite (POST_checkout _ _ _ _ _ _ _ Hev2 Htype Hjob Hne), Hc0.
        unfold jobPost_update. rewrite Hj0.
        rewrite (companyId_is_ext companyId (db w) (db w0) j j' Hsame), Hextra.
        reflexivity. }
      split_and!.
      * intros j' Hj' Hsame. by apply Hgeneral.
      * intros Hgone.
        rewrite (POST_checkout _ _ _ _ _ _ _ Hev2 Htype Hjob Hne), Hcompany'.
        unfold jobPost_update. by rewrite Hgone.
      * rewrite (Hgeneral _ (touch now1 (with_status ACTIVE j))).
        -- unfold set_db, set_jobPosts.
           cbn [db users companies jobPosts savedJobPosts inngest_sent
                stripe_customers stripe_sessions revalidated].
           by rewrite insert_insert_eq.
        -- rewrite <- Hcompany. by apply user_company_id_ext.
        -- cbn. by rewrite lookup_insert_eq.
        -- reflexivity.
Qed.

Lemma POST_redelivered_witness :
  ∃ w1 w2,
    POST (Sample.constructEvent (Some "j-qa")) 900 "cus_ann" (Some "sig-ok")
         Sample.world = (Ok (Response.mk None 200), w1)
    ∧ POST (Sample.constructEvent (Some "j-qa")) 950 "cus_ann" (Some "sig-ok")
           w1 = (Ok (Response.mk None 200), w2)
    ∧ JobPost.status <$> jobPosts (db w2) !! "j-qa" = Some ACTIVE
    ∧ POST (Sample.constructEvent (Some "j-qa")) 2000 "cus_ann" (Some "sig-ok")
           w1 = (Ok (Response.mk (Some "Webhook Error") 400), w1).
Proof.
  set (w1 := (POST (Sample.constructEvent (Some "j-qa")) 900 "cus_ann"
                   (Some "sig-ok") Sample.world).2).
  assert (Hfirst : POST (Sample.constructEvent (Some "j-qa")) 900 "cus_ann"
                        (Some "sig-ok") Sample.world
                   = (Ok (Response.mk None 200), w1))
    by (vm_compute; reflexivity).
  destruct (POST_redelivered (Sample.constructEvent (Some "j-qa")) 900 950
              "cus_ann" (Some "sig-ok")
              (StripeEvent.mk "checkout.session.completed" "cus_ann"
                 (Some "j-qa"))
              Sample.world w1 w1 eq_refl eq_refl Hfirst eq_refl eq_refl)
    as (jobId & j & Hjob & _ & _ & _ & Hagain).
  destruct (Hagain eq_refl) as (_ & _ & Hsecond).
  destruct (POST_redelivered (Sample.constructEvent (Some "j-qa")) 900 2000
              "cus_ann" (Some "sig-ok")
              (StripeEvent.mk "checkout.session.completed" "cus_ann"
                 (Some "j-qa"))
              Sample.world w1 w1 eq_refl eq_refl Hfirst eq_refl eq_refl)
    as (_ & _ & _ & _ & _ & Hexpired & _).
  eexists w1, _. split; [exact Hfirst|]. split; [exact Hsecond|].
  split; [|exact (Hexpired eq_refl)].
  injection Hjob as <-. cbn [db set_db jobPosts set_jobPosts].
  by rewrite lookup_insert_eq.
Defined.

(** * The payment customer of a company owner *)

(** Once the owner's row carries a customer id, [createJob] creates no
    customer and writes no user row, however it ends; a checkout it asks
    for names the stored customer. *)
Lemma createJob_known_customer pricing is_url env user data c u customer w :
  session env = Some user →
  company_findUnique_userId (SessionUser.id user) (db w) = Some c →
  users (db w) !! Company.userId c = Some u →
  User.stripeCustomerId u = Some customer →
  customer ≠ "" →
  stripe_customers (createJob pricing is_url env data w).2 = stripe_customers w
  ∧ users (db (createJob pricing is_url env data w).2) = users (db w)
  ∧ (stripe_sessions (createJob pricing is_url env data w).2 = stripe_sessions w
     ∨ ∃ req, stripe_sessions (createJob pricing is_url env data w).2
                = (stripe_sessions w ++ [req])%list
              ∧ CheckoutRequest.customer req = customer).
Proof.
  intros Hs Hcompany Hu Hcust Hne.
  unfold createJob, reqUser, jobSchema_parse, bind, ret, query, throw, redirect.
  rewrite Hs. destruct (jobSchema_valid is_url data); [|by auto].
  rewrite Hcompany. case_bool_decide; [by auto|].
  rewrite Hu, Hcust.
  assert (Hfalsy : falsy (Some customer) = false) by by destruct customer.
  rewrite Hfalsy. cbn [default].
  unfold statement, inngest_send, stripe_checkout_sessions_create.
  destruct (jobPost_create _ _ _ _) as [e|[j d']] eqn:Hcreate; [by auto|].
  assert (Hd' : users d' = users (db w)).
  { unfold jobPost_create in Hcreate.
    destruct (forallb Int_fits _); [|done].
    destruct (jobPosts (db w) !! uuid env); [done|].
    destruct (companies (db w) !! _); [|done]. by injection Hcreate as _ <-. }
  cbn [db set_db stripe_customers stripe_sessions fst snd].
  destruct (find _ pricing) as [tier|]; cbn; [|by auto].
  split_and!; [done|done|]. right. by eexists.
Qed.

(** X20.  A payment customer is created at most once per company owner.
    For a signed-in owner with valid input, a free job id and a fresh,
    non-empty customer id in a store that meets the schema's
    constraints, [createJob] registers at most one customer; and in the
    world it leaves, whether it ended at the checkout or with the
    pricing exception, any further [createJob] of the same user, with
    any input and however it ends, registers no customer, writes no user
    row, and asks for a checkout, if at all, for the customer id stored
    on the user's row. *)
Theorem createJob_customer_once pricing is_url env user data c w r1 w1 :
  db_wf (db w) →
  session env = Some user →
  jobSchema_valid is_url data = true →
  company_findUnique_userId (SessionUser.id user) (db w) = Some c →
  Company.id c ≠ "" →
  jobPosts (db w) !! uuid env = None →
  customer_unused (db w) (customer_id env) →
  customer_id env ≠ "" →
  createJob pricing is_url env data w = (r1, w1) →
  (length (stripe_customers w1) ≤ S (length (stripe_customers w)))%nat
  ∧ ∃ u1 customer,
      users (db w1) !! SessionUser.id user = Some u1
      ∧ User.stripeCustomerId u1 = Some customer
      ∧ ∀ env2 data2 r2 w2,
          session env2 = Some user →
          createJob pricing is_url env2 data2 w1 = (r2, w2) →
          stripe_customers w2 = stripe_customers w1
          ∧ users (db w2) = users (db w1)
          ∧ (stripe_sessions w2 = stripe_sessions w1
             ∨ ∃ req, stripe_sessions w2 = (stripe_sessions w1 ++ [req])%list
                      ∧ CheckoutRequest.customer req = customer).
Proof.
  intros Hwf Hs Hvalid Hcompany Hid Hfresh Hunused Hcid Hrun.
  destruct (company_findUnique_userId_Some _ _ _ Hcompany) as [Hcu [k Hk]].
  pose proof (wf_company_key _ Hwf _ _ Hk) as Hkey. cbv beta in Hkey. subst k.
  destruct (wf_company_user _ Hwf _ _ Hk) as [u Hu]. rewrite Hcu in Hu.
  assert (Hstep : ∃ u1 customer,
             users (db w1) !! SessionUser.id user = Some u1
             ∧ User.stripeCustomerId u1 = Some customer
             ∧ customer ≠ ""
             ∧ companies (db w1) = companies (db w)
             ∧ (length (stripe_customers w1)
                ≤ S (length (stripe_customers w)))%nat).
  { revert Hrun.
    unfold createJob, reqUser, jobSchema_parse, bind, ret, query.
    rewrite Hs, Hvalid, Hcompany, bool_decide_eq_false_2 by done.
    rewrite Hcu, Hu.
    destruct (falsy (User.stripeCustomerId u)) eqn:Hfalsy.
    - unfold stripe_customers_create, statement, user_update_stripeCustomerId,
        inngest_send, throw, redirect, stripe_checkout_sessions_create,
        jobPost_create.
      cbn [db set_db users set_users jobPosts companies fst snd].
      rewrite Hu.
      destruct (list_find _ (rows (users (db w)))) as [[i u']|] eqn:Hfind.
      { apply list_find_rows_Some in Hfind as [[Hc' _] [k' Hk']].
        by destruct (Hunused _ _ Hk'). }
      cbn [db set_db users set_users jobPosts companies create_data
           JobPost.companyId JobPost.id].
      destruct (forallb Int_fits _);
        [rewrite Hfresh, Hk; destruct (find _ pricing)|]; intros [= <- <-];
        cbn [db set_db users set_users set_jobPosts jobPosts companies
             stripe_customers];
        (exists (with_stripeCustomerId (customer_id env) u), (customer_id env);
         split_and!; [by rewrite lookup_insert_eq|done|done|done|];
         rewrite length_app; cbn; lia).
    - destruct (User.stripeCustomerId u) as [customer|] eqn:Hcust; [|done].
      unfold statement, inngest_send, throw, redirect,
        stripe_checkout_sessions_create, jobPost_create, ret.
      cbn [create_data JobPost.companyId JobPost.id default].
      destruct (forallb Int_fits _);
        [rewrite Hfresh, Hk; destruct (find _ pricing)|]; intros [= <- <-];
        cbn [db set_db users set_users set_jobPosts jobPosts companies
             stripe_customers];
        (exists u, customer; split_and!; [done|done| |done|lia];
         by intros ->). }
  destruct Hstep as (u1 & customer & Hu1 & Hcust1 & Hne1 & Hcomp1 & Hlen).
  split; [exact Hlen|]. exists u1, customer. split_and!; [done|done|].
  intros env2 data2 r2 w2 Hs2 Hrun2.
  assert (Hcompany1 : company_findUnique_userId (SessionUser.id user) (db w1)
                      = Some c).
  { by rewrite (company_findUnique_userId_ext _ (db w)). }
  rewrite <- Hcu in Hu1.
  pose proof (createJob_known_customer pricing is_url env2 user data2 c u1
                customer w1 Hs2 Hcompany1 Hu1 Hcust1 Hne1) as Hknown.
  rewrite Hrun2 in Hknown. exact Hknown.
Qed.

Lemma createJob_customer_once_witness :
  ∃ w1 w2,
    createJob Sample.pricing Sample.is_url Sample.bob_env Sample.input
              Sample.world = (Redirect "https://pay.test/2", w1)
    ∧ stripe_customers w1 = [(Some "bob@bolt.test", Some "Bob")]
    ∧ createJob Sample.pricing Sample.is_url Sample2.bob_next Sample.input w1
        = (Redirect "https://pay.test/5", w2)
    ∧ stripe_customers w2 = stripe_customers w1.
Proof.
  set (w1 := (createJob Sample.pricing Sample.is_url Sample.bob_env
                Sample.input Sample.world).2).
  set (w2 := (createJob Sample.pricing Sample.is_url Sample2.bob_next
                Sample.input w1).2).
  assert (Hfirst : createJob Sample.pricing Sample.is_url Sample.bob_env
                     Sample.input Sample.world
                   = (Redirect "https://pay.test/2", w1))
    by (vm_compute; reflexivity).
  assert (Hsecond : createJob Sample.pricing Sample.is_url Sample2.bob_next
                      Sample.input w1 = (Redirect "https://pay.test/5", w2))
    by (vm_compute; reflexivity).
  destruct (createJob_customer_once Sample.pricing Sample.is_url Sample.bob_env
              Sample.bob_session Sample.input Sample.bolt Sample.world
              (Redirect "https://pay.test/2") w1)
    as (_ & u1 & customer & _ & _ & Hnext).
  - exact sample_store_wf.
  - reflexivity.
  - vm_compute. reflexivity.
  - vm_compute. reflexivity.
  - discriminate.
  - vm_compute. reflexivity.
  - assert (Hall : map_Forall (λ _ u, User.stripeCustomerId u ≠ Some "cus_bob")
                               (users Sample.store)) by by_evaluation.
    exact Hall.
  - discriminate.
  - exact Hfirst.
  - destruct (Hnext Sample2.bob_next Sample.input _ w2 eq_refl Hsecond)
      as (Hsame & _).
    exists w1, w2. split; [exact Hfirst|]. split; [vm_compute; reflexivity|].
    split; [exact Hsecond|exact Hsame].
Defined.

(** * Properties of the listing with its pagination *)

Lemma elem_of_MainPagination_items currentPage totalPages link :
  Some link ∈ Pagination.items (MainPagination currentPage totalPages) ↔
  Some (PaginationLink.page link)
    ∈ generatePaginationItems currentPage totalPages
  ∧ PaginationLink.isActive link
    = bool_decide (PaginationLink.page link = currentPage).
Proof.
  unfold MainPagination. cbn [Pagination.items].
  rewrite list_elem_of_fmap. split.
  - intros ([p|] & Heq & Hin); [|done]. injection Heq as ->. done.
  - intros [Hin Hact]. exists (Some (PaginationLink.page link)).
    split; [|done]. destruct link as [p a]. cbn in *. by rewrite Hact.
Qed.

(** What the component renders on a page of the listing. *)
Lemma JobListingsContent_run currentPage T L d :
  1 ≤ currentPage →
  JobListingsContent currentPage T L d =
    let jobs := select_card d <$>
                  take 2 (drop (Z.to_nat ((currentPage - 1) * 2))
                            (matching (listing_where T L) d)) in
    if bool_decide (length jobs = 0%nat) then inr EmptyState
    else inr (Listing jobs
                (Some (MainPagination currentPage
                         (ceil_quot (active_count d) 2)))).
Proof.
  intros Hp. unfold JobListingsContent.
  rewrite getData_inr by lia. cbn [ListingPage.jobs ListingPage.totalPages].
  rewrite window_slice by lia. rewrite count_active.
  unfold Math_ceil_div. rewrite (bool_decide_eq_false_2 (2 = 0)) by lia.
  reflexivity.
Qed.

Lemma JobListingsContent_page_ge_1 currentPage T L d view :
  JobListingsContent currentPage T L d = inr view → 1 ≤ currentPage.
Proof.
  unfold JobListingsContent, getData, jobPost_findMany.
  case_bool_decide; [done|]. lia.
Qed.

Lemma JobListingsContent_EmptyState p T L d :
  1 ≤ p →
  JobListingsContent p T L d = inr EmptyState ↔
  Z.of_nat (length (matching (listing_where T L) d)) ≤ 2 * (p - 1).
Proof.
  intros Hp. rewrite JobListingsContent_run by done. cbv zeta.
  rewrite length_fmap, length_take, length_drop.
  case_bool_decide; split; try done; try lia.
Qed.

(** X21.  For an integer current page, as the links and buttons of the
    pagination control produce it: whenever [JobListingsContent] shows
    cards, it shows one or two of them together with the pagination
    control for the current page and [ceil(active / 2)] pages, the
    current page is one of these pages, its link is among the items and
    highlighted, no other link is highlighted, every link leads to a
    page within range, Previous navigates unless the current page is the
    first, and Next unless it is the last.  (A page number that is no
    integer, which only a query written by hand yields, is outside the
    statement.) *)
Theorem JobListingsContent_pagination (currentPage : Z) T L d jobs pagination :
  JobListingsContent currentPage T L d = inr (Listing jobs pagination) →
  ∃ totalPages,
    pagination = Some (MainPagination currentPage totalPages)
    ∧ totalPages = ceil_quot (active_count d) 2
    ∧ 1 ≤ currentPage ≤ totalPages
    ∧ (0 < length jobs ≤ 2)%nat
    ∧ Some (PaginationLink.mk currentPage true)
        ∈ Pagination.items (MainPagination currentPage totalPages)
    ∧ (∀ link,
         Some link ∈ Pagination.items (MainPagination currentPage totalPages) →
         1 ≤ PaginationLink.page link ≤ totalPages
         ∧ (PaginationLink.isActive link = true ↔
              PaginationLink.page link = currentPage))
    ∧ Pagination.previous (MainPagination currentPage totalPages)
      = (if bool_decide (currentPage = 1) then None else Some (currentPage - 1))
    ∧ Pagination.next (MainPagination currentPage totalPages)
      = (if bool_decide (currentPage = totalPages) then None
         else Some (currentPage + 1)).
Proof.
  intros Hview.
  pose proof (JobListingsContent_page_ge_1 _ _ _ _ _ Hview) as Hp.
  rewrite JobListingsContent_run in Hview by done. cbv zeta in Hview.
  case_bool_decide as Hlen; [done|]. injection Hview as <- <-.
  rewrite length_fmap, length_take, length_drop in Hlen.
  pose proof (count_filtered_le_active T L d) as Hle.
  rewrite <- length_matching in Hle.
  pose proof (ceil_quot_spec (active_count d) 2 ltac:(lia)) as Hceil.
  set (t := ceil_quot (active_count d) 2) in *.
  assert (Hrange : 1 ≤ currentPage ≤ t) by lia.
  exists t. split_and!; try done; try lia.
  - rewrite length_fmap, length_take, length_drop. lia.
  - rewrite length_fmap, length_take. lia.
  - apply elem_of_MainPagination_items. cbn. split.
    + by apply pagination_current.
    + by rewrite bool_decide_eq_true_2.
  - intros link [Hin Hact]%elem_of_MainPagination_items. split.
    + by apply pagination_range in Hin.
    + rewrite Hact. apply bool_decide_eq_true.
  - cbn. unfold PaginationPrevious. repeat case_bool_decide; try done; lia.
  - cbn. unfold PaginationNext. repeat case_bool_decide; try done; lia.
Qed.

Lemma JobListingsContent_pagination_witness :
  ∃ jobs pagination,
    JobListingsContent 1 [] "" Sample2.busy_store
      = inr (Listing jobs (Some pagination))
    ∧ Pagination.next pagination = Some 2
    ∧ Pagination.previous pagination = None.
Proof.
  set (view := JobListingsContent 1 [] "" Sample2.busy_store).
  assert (Hview : ∃ jobs, view = inr (Listing jobs
                                    (Some (MainPagination 1 2)))).
  { eexists. vm_compute. reflexivity. }
  destruct Hview as [jobs Hview].
  destruct (JobListingsContent_pagination 1 [] "" Sample2.busy_store jobs
              (Some (MainPagination 1 2)) Hview)
    as (t & Hpg & Ht & _ & _ & _ & _ & Hprev & Hnext).
  assert (Hpg' : MainPagination 1 2 = MainPagination 1 t) by congruence.
  exists jobs, (MainPagination 1 2).
  split; [exact Hview|]. rewrite Hpg'. split.
  - rewrite Hnext, Ht. vm_compute. reflexivity.
  - exact Hprev.
Defined.

(** X22.  The control counts every ACTIVE job while the cards are
    filtered, so a link it offers can lead nowhere: whenever cards are
    shown, the last page is among the links; a page is rendered as the
    empty state exactly when the filtered jobs end before it; hence the
    last page is empty as soon as the filters exclude two ACTIVE jobs,
    and it is never empty when they exclude none. *)
Theorem JobListingsContent_last_page currentPage T L d jobs pagination :
  JobListingsContent currentPage T L d = inr (Listing jobs (Some pagination)) →
  ∃ last,
    last = ceil_quot (active_count d) 2
    ∧ Some (PaginationLink.mk last (bool_decide (last = currentPage)))
        ∈ Pagination.items pagination
    ∧ (∀ p, 1 ≤ p →
         (JobListingsContent p T L d = inr EmptyState ↔
            Z.of_nat (length (matching (listing_where T L) d)) ≤ 2 * (p - 1)))
    ∧ (Z.of_nat (length (matching (listing_where T L) d)) + 2
         ≤ active_count d →
       JobListingsContent last T L d = inr EmptyState)
    ∧ (Z.of_nat (length (matching (listing_where T L) d)) = active_count d →
       ∃ jobs', JobListingsContent last T L d
                = inr (Listing jobs' (Some (MainPagination last last)))).
Proof.
  intros Hview.
  pose proof (JobListingsContent_page_ge_1 _ _ _ _ _ Hview) as Hp.
  rewrite JobListingsContent_run in Hview by done. cbv zeta in Hview.
  case_bool_decide as Hlen; [done|]. injection Hview as <- <-.
  rewrite length_fmap, length_take, length_drop in Hlen.
  pose proof (count_filtered_le_active T L d) as Hle.
  rewrite <- length_matching in Hle.
  pose proof (ceil_quot_spec (active_count d) 2 ltac:(lia)) as Hceil.
  set (t := ceil_quot (active_count d) 2) in *.
  assert (Hrange : 1 ≤ currentPage ≤ t) by lia.
  exists t. split_and!; try done; try lia.
  - apply elem_of_MainPagination_items. cbn. split; [|done].
    by apply pagination_last.
  - intros p Hp'. by apply JobListingsContent_EmptyState.
  - intros Hhidden. apply JobListingsContent_EmptyState; lia.
  - intros Hall. rewrite JobListingsContent_run by lia. cbv zeta.
    rewrite bool_decide_eq_false_2; [by eexists|].
    rewrite length_fmap, length_take, length_drop. lia.
Qed.

Lemma JobListingsContent_last_page_witness :
  (∃ jobs, JobListingsContent 1 ["part-time"] "" Sample2.busy_store
           = inr (Listing jobs (Some (MainPagination 1 2))))
  ∧ Some (PaginationLink.mk 2 false)
      ∈ Pagination.items (MainPagination 1 2)
  ∧ JobListingsContent 2 ["part-time"] "" Sample2.busy_store = inr EmptyState.
Proof.
  assert (Hview : ∃ jobs, JobListingsContent 1 ["part-time"] ""
                            Sample2.busy_store
                          = inr (Listing jobs (Some (MainPagination 1 2)))).
  { eexists. vm_compute. reflexivity. }
  split; [exact Hview|]. destruct Hview as [jobs Hview].
  destruct (JobListingsContent_last_page 1 ["part-time"] ""
              Sample2.busy_store jobs (MainPagination 1 2) Hview)
    as (last & Hlast & Hlink & _ & Hempty & _).
  assert (Hlast2 : last = 2) by (rewrite Hlast; vm_compute; reflexivity).
  rewrite Hlast2 in Hlink, Hempty. split; [exact Hlink|].
  apply Hempty. vm_compute. discriminate.
Defined.

(** * The constraints of the schema are an invariant *)

(** Writing a job post under its id, for a stored company. *)
Lemma jobPosts_insert_wf d k j :
  db_wf d → JobPost.id j = k →
  is_Some (companies d !! JobPost.companyId j) →
  db_wf (set_jobPosts (<[k := j]> (jobPosts d)) d).
Proof.
  intros Hwf Hid Hcompany.
  constructor; cbn [set_jobPosts users companies jobPosts savedJobPosts];
    try (by destruct Hwf).
  - apply map_Forall_insert_2; [done|apply (wf_job_key _ Hwf)].
  - apply map_Forall_insert_2; [done|apply (wf_job_company _ Hwf)].
  - intros k' s Hs. destruct (wf_saved_job _ Hwf _ _ Hs) as [j' Hj'].
    destruct (decide (k = SavedJobPost.jobPostId s)) as [->|Hne].
    + rewrite lookup_insert_eq. by eexists.
    + rewrite lookup_insert_ne by done. by eexists.
Qed.

(** Removing a job post no saved record refers to. *)
Lemma jobPosts_delete_wf d k :
  db_wf d →
  (∀ k' s, savedJobPosts d !! k' = Some s → SavedJobPost.jobPostId s ≠ k) →
  db_wf (set_jobPosts (delete k (jobPosts d)) d).
Proof.
  intros Hwf Hfree.
  constructor; cbn [set_jobPosts users companies jobPosts savedJobPosts];
    try (by destruct Hwf).
  - apply map_Forall_delete, (wf_job_key _ Hwf).
  - apply map_Forall_delete, (wf_job_company _ Hwf).
  - intros k' s Hs. destruct (wf_saved_job _ Hwf _ _ Hs) as [j' Hj'].
    rewrite lookup_delete_ne; [by eexists|].
    intros Heq. by destruct (Hfree _ _ Hs).
Qed.

(** Adding a saved record under its id, for a stored job and user and a
    pair not yet saved. *)
Lemma savedJobPosts_insert_wf d k s :
  db_wf d → SavedJobPost.id s = k →
  (∀ k' s', savedJobPosts d !! k' = Some s' →
            ¬ (SavedJobPost.userId s' = SavedJobPost.userId s
               ∧ SavedJobPost.jobPostId s' = SavedJobPost.jobPostId s)) →
  is_Some (jobPosts d !! SavedJobPost.jobPostId s) →
  is_Some (users d !! SavedJobPost.userId s) →
  db_wf (set_savedJobPosts (<[k := s]> (savedJobPosts d)) d).
Proof.
  intros Hwf Hid Hnew Hjob Huser.
  constructor; cbn [set_savedJobPosts users companies jobPosts savedJobPosts];
    try (by destruct Hwf).
  - apply map_Forall_insert_2; [done|apply (wf_saved_key _ Hwf)].
  - intros k1 s1 H1 k2 s2 H2 Hu Hj.
    apply lookup_insert_Some in H1 as [[<- <-]|[Hne1 H1]];
      apply lookup_insert_Some in H2 as [[<- <-]|[Hne2 H2]].
    + done.
    + destruct (Hnew _ _ H2). by split.
    + destruct (Hnew _ _ H1). by split.
    + by apply (wf_saved_unique _ Hwf _ _ H1 _ _ H2).
  - apply map_Forall_insert_2; [done|apply (wf_saved_job _ Hwf)].
  - apply map_Forall_insert_2; [done|apply (wf_saved_user _ Hwf)].
Qed.

Lemma savedJobPosts_delete_wf d k :
  db_wf d → db_wf (set_savedJobPosts (delete k (savedJobPosts d)) d).
Proof.
  intros Hwf.
  constructor; cbn [set_savedJobPosts users companies jobPosts savedJobPosts];
    try (by destruct Hwf).
  - apply map_Forall_delete, (wf_saved_key _ Hwf).
  - intros k1 s1 H1 k2 s2 H2.
    apply lookup_delete_Some in H1 as [_ H1].
    apply lookup_delete_Some in H2 as [_ H2].
    by apply (wf_saved_unique _ Hwf _ _ H1 _ _ H2).
  - apply map_Forall_delete, (wf_saved_job _ Hwf).
  - apply map_Forall_delete, (wf_saved_user _ Hwf).
Qed.

(** Rewriting a user row under its id, with a customer id nobody else
    carries. *)
Lemma users_insert_wf d k u u' :
  db_wf d → users d !! k = Some u → User.id u' = k →
  (∀ k2 u2, users d !! k2 = Some u2 → k2 ≠ k →
            is_Some (User.stripeCustomerId u') →
            User.stripeCustomerId u' ≠ User.stripeCustomerId u2) →
  db_wf (set_users (<[k := u']> (users d)) d).
Proof.
  intros Hwf Hu Hid Hfree.
  constructor; cbn [set_users users companies jobPosts savedJobPosts];
    try (by destruct Hwf).
  - apply map_Forall_insert_2; [done|apply (wf_user_key _ Hwf)].
  - intros k1 u1 H1 k2 u2 H2 Hsome Heq.
    apply lookup_insert_Some in H1 as [[<- <-]|[Hne1 H1]];
      apply lookup_insert_Some in H2 as [[<- <-]|[Hne2 H2]].
    + done.
    + by destruct (Hfree _ _ H2 ltac:(done) Hsome).
    + rewrite Heq in Hsome. by destruct (Hfree _ _ H1 ltac:(done) Hsome).
    + by apply (wf_stripe_unique _ Hwf _ _ H1 _ _ H2).
  - intros k' c Hc. destruct (wf_company_user _ Hwf _ _ Hc) as [u0 Hu0].
    destruct (decide (k = Company.userId c)) as [->|Hne].
    + rewrite lookup_insert_eq. by eexists.
    + rewrite lookup_insert_ne by done. by eexists.
  - intros k' s Hs. destruct (wf_saved_user _ Hwf _ _ Hs) as [u0 Hu0].
    destruct (decide (k = SavedJobPost.userId s)) as [->|Hne].
    + rewrite lookup_insert_eq. by eexists.
    + rewrite lookup_insert_ne by done. by eexists.
Qed.

(** Adding a company under its id, for a stored user without one. *)
Lemma companies_insert_wf d k c :
  db_wf d → Company.id c = k →
  (∀ k' c', companies d !! k' = Some c' →
            Company.userId c' ≠ Company.userId c) →
  is_Some (users d !! Company.userId c) →
  db_wf (mkDb (users d) (<[k := c]> (companies d)) (jobPosts d)
              (savedJobPosts d)).
Proof.
  intros Hwf Hid Hnew Huser.
  constructor; cbn [users companies jobPosts savedJobPosts];
    try (by destruct Hwf).
  - apply map_Forall_insert_2; [done|apply (wf_company_key _ Hwf)].
  - intros k1 c1 H1 k2 c2 H2 Heq.
    apply lookup_insert_Some in H1 as [[<- <-]|[Hne1 H1]];
      apply lookup_insert_Some in H2 as [[<- <-]|[Hne2 H2]].
    + done.
    + by destruct (Hnew _ _ H2).
    + by destruct (Hnew _ _ H1).
    + by apply (wf_company_user_unique _ Hwf _ _ H1 _ _ H2).
  - apply map_Forall_insert_2; [done|apply (wf_company_user _ Hwf)].
  - intros k' j Hj. destruct (wf_job_company _ Hwf _ _ Hj) as [c0 Hc0].
    destruct (decide (k = JobPost.companyId j)) as [->|Hne].
    + rewrite lookup_insert_eq. by eexists.
    + rewrite lookup_insert_ne by done. by eexists.
Qed.

(** Each statement of the store, when it is accepted, leaves a store
    that meets the constraints. *)
Lemma jobPost_update_wf id extra (data : JobPostUpdateInput.t) now_ d j' d' :
  db_wf d →
  (∀ j, JobPost.id (data j) = JobPost.id j
        ∧ JobPost.companyId (data j) = JobPost.companyId j) →
  jobPost_update id extra data now_ d = inr (j', d') → db_wf d'.
Proof.
  intros Hwf Hdata. unfold jobPost_update.
  destruct (jobPosts d !! id) as [j|] eqn:Hj; [|done].
  destruct (extra d j); [|done].
  destruct (forallb Int_fits _); [|done]. intros [= _ <-].
  destruct (Hdata j) as [Hid Hc].
  apply jobPosts_insert_wf; [done| |].
  - cbn. rewrite Hid. apply (wf_job_key _ Hwf _ _ Hj).
  - cbn. rewrite Hc. apply (wf_job_company _ Hwf _ _ Hj).
Qed.

Lemma jobPost_delete_wf id extra d j' d' :
  db_wf d → jobPost_delete id extra d = inr (j', d') → db_wf d'.
Proof.
  intros Hwf. unfold jobPost_delete.
  destruct (jobPosts d !! id) as [j|]; [|done].
  destruct (extra d j); [|done].
  destruct (list_find _ _) as [[i s]|] eqn:Hfind; [done|].
  intros [= _ <-]. apply jobPosts_delete_wf; [done|].
  intros k' s Hs. by eapply (proj1 (list_find_rows_None _ _)) in Hfind.
Qed.

Lemma jobPost_create_wf id now_ data d j' d' :
  db_wf d →
  (∀ s a b, JobPost.id (data id s a b) = id) →
  jobPost_create id now_ data d = inr (j', d') → db_wf d'.
Proof.
  intros Hwf Hdata. unfold jobPost_create.
  destruct (forallb Int_fits _); [|done].
  destruct (jobPosts d !! id); [done|].
  destruct (companies d !! _) as [c|] eqn:Hc; [|done].
  intros [= _ <-]. apply jobPosts_insert_wf; [done|apply Hdata|by eexists].
Qed.

Lemma savedJobPost_create_wf id now_ jobPostId userId d s' d' :
  db_wf d →
  savedJobPost_create id now_ jobPostId userId d = inr (s', d') → db_wf d'.
Proof.
  intros Hwf. unfold savedJobPost_create.
  destruct (savedJobPosts d !! id); [done|].
  destruct (list_find _ _) as [[i s]|] eqn:Hfind; [done|].
  destruct (jobPosts d !! jobPostId) as [j|] eqn:Hj; [|done].
  destruct (users d !! userId) as [u|] eqn:Hu; [|done].
  intros [= _ <-]. apply savedJobPosts_insert_wf; cbn; try done.
  intros k' s Hs. by eapply (proj1 (list_find_rows_None _ _)) in Hfind.
Qed.

Lemma savedJobPost_delete_wf id userId d s' d' :
  db_wf d → savedJobPost_delete id userId d = inr (s', d') → db_wf d'.
Proof.
  intros Hwf. unfold savedJobPost_delete.
  destruct (savedJobPosts d !! id) as [s|]; [|done].
  case_bool_decide; [|done]. intros [= _ <-].
  by apply savedJobPosts_delete_wf.
Qed.

Lemma user_update_stripeCustomerId_wf id customer d u' d' :
  db_wf d →
  user_update_stripeCustomerId id customer d = inr (u', d') → db_wf d'.
Proof.
  intros Hwf. unfold user_update_stripeCustomerId.
  destruct (users d !! id) as [u|] eqn:Hu; [|done].
  destruct (list_find _ _) as [[i u0]|] eqn:Hfind; [done|].
  intros [= _ <-].
  pose proof (wf_user_key _ Hwf _ _ Hu) as Hid. cbv beta in Hid.
  apply (users_insert_wf _ _ u); [done|done|done|].
  intros k2 u2 H2 Hne _ Heq. cbn in Heq.
  eapply (proj1 (list_find_rows_None _ _)) in Hfind; [|exact H2].
  apply Hfind. split; [done|].
  pose proof (wf_user_key _ Hwf _ _ H2) as Hid2. cbv beta in Hid2. congruence.
Qed.

Lemma user_update_create_Company_wf id companyId now_ data d u' d' :
  db_wf d →
  user_update_create_Company id companyId now_ data d = inr (u', d') →
  db_wf d'.
Proof.
  intros Hwf. unfold user_update_create_Company.
  destruct (users d !! id) as [u|] eqn:Hu; [|done].
  destruct (list_find _ _) as [[i c0]|] eqn:Hfind; [done|].
  destruct (companies d !! companyId) eqn:Hfree; [done|].
  intros [= _ <-].
  pose proof (wf_user_key _ Hwf _ _ Hu) as Hid. cbv beta in Hid.
  set (u1 := User.mk _ _ _ _ _ _ _ _).
  assert (Hwf1 : db_wf (set_users (<[id := u1]> (users d)) d)).
  { apply (users_insert_wf _ _ u); [done|done|done|].
    intros k2 u2 H2 Hne Hsome Heq. cbn in Hsome, Heq.
    destruct Hne. symmetry.
    by apply (wf_stripe_unique _ Hwf _ _ Hu _ _ H2). }
  refine (companies_insert_wf (set_users (<[id := u1]> (users d)) d)
            companyId _ Hwf1 _ _ _).
  - done.
  - cbn. intros k' c' Hc'.
    by eapply (proj1 (list_find_rows_None _ _)) in Hfind.
  - cbn. rewrite lookup_insert_eq. by eexists.
Qed.

(** The invariant passes through the steps of a request. *)
Lemma keeps_ret {A} (a : A) : keeps_constraints (ret a).
Proof. by intros w Hwf. Qed.

Lemma keeps_throw {A} (e : Exn) : keeps_constraints (throw (A:=A) e).
Proof. by intros w Hwf. Qed.

Lemma keeps_redirect {A} (url : string) :
  keeps_constraints (redirect (A:=A) url).
Proof. by intros w Hwf. Qed.

Lemma keeps_query {A} (q : Db → A) : keeps_constraints (query q).
Proof. by intros w Hwf. Qed.

Lemma keeps_bind {A B} (m : M A) (k : A → M B) :
  keeps_constraints m → (∀ a, keeps_constraints (k a)) →
  keeps_constraints (bind m k).
Proof.
  intros Hm Hk w Hwf. unfold bind. specialize (Hm w Hwf).
  destruct (m w) as [[a|url|e] w']; cbn [snd] in *; [|done|done].
  by apply Hk.
Qed.

Lemma keeps_statement {A} (op : Db → Exn + (A * Db)) :
  (∀ d a d', db_wf d → op d = inr (a, d') → db_wf d') →
  keeps_constraints (statement op).
Proof.
  intros Hop w Hwf. unfold statement.
  destruct (op (db w)) as [e|[a d']] eqn:Hrun; [done|].
  cbn. by eapply Hop.
Qed.

Lemma keeps_reqUser env : keeps_constraints (reqUser env).
Proof. unfold reqUser. by destruct (session env); intros w Hwf. Qed.

Lemma keeps_protect env : keeps_constraints (protect env).
Proof. unfold protect. by destruct (denied env); intros w Hwf. Qed.

Create HintDb keeps.
#[local] Hint Resolve keeps_ret keeps_throw keeps_redirect keeps_query
  keeps_reqUser keeps_protect : keeps.

Ltac keeps_step :=
  lazymatch goal with
  | |- keeps_constraints (bind _ _) => apply keeps_bind; [|intros ?]
  | |- keeps_constraints (if ?b then _ else _) => destruct b
  | |- keeps_constraints (match ?x with _ => _ end) => destruct x
  | |- keeps_constraints _ => first [solve [auto with keeps] | by intros w Hwf]
  end.

Lemma keeps_createJob pricing is_url env data :
  keeps_constraints (createJob pricing is_url env data).
Proof.
  unfold createJob, jobSchema_parse. repeat keeps_step.
  - apply keeps_statement. intros d u' d' Hwf Hrun.
    by eapply user_update_stripeCustomerId_wf.
  - apply keeps_statement. intros d j' d' Hwf Hrun.
    eapply jobPost_create_wf; [done| |done]. done.
Qed.

Lemma keeps_editJobPost is_url env data jobId :
  keeps_constraints (editJobPost is_url env data jobId).
Proof.
  unfold editJobPost, jobSchema_parse. repeat keeps_step.
  apply keeps_statement. intros d j' d' Hwf Hrun.
  eapply jobPost_update_wf; [done| |done]. done.
Qed.

Lemma keeps_deleteJobPost failure env jobId :
  keeps_constraints (deleteJobPost_sending failure env jobId).
Proof.
  unfold deleteJobPost_sending, inngest_send_or. repeat keeps_step.
  apply keeps_statement. intros d j' d' Hwf Hrun.
  by eapply jobPost_delete_wf.
Qed.

Lemma keeps_saveJobPost env jobId : keeps_constraints (saveJobPost env jobId).
Proof.
  unfold saveJobPost. repeat keeps_step.
  apply keeps_statement. intros d j' d' Hwf Hrun.
  by eapply savedJobPost_create_wf.
Qed.

Lemma keeps_unSaveJobPost env savedJobPostId :
  keeps_constraints (unSaveJobPost env savedJobPostId).
Proof.
  unfold unSaveJobPost. repeat keeps_step.
  apply keeps_statement. intros d j' d' Hwf Hrun.
  by eapply savedJobPost_delete_wf.
Qed.

Lemma keeps_createCompany is_url env data :
  keeps_constraints (createCompany is_url env data).
Proof.
  unfold createCompany, companySchema_parse. repeat keeps_step.
  apply keeps_statement. intros d j' d' Hwf Hrun.
  by eapply user_update_create_Company_wf.
Qed.

Lemma keeps_POST constructEvent now_ body sig :
  keeps_constraints (POST constructEvent now_ body sig).
Proof.
  unfold POST. repeat keeps_step.
  apply keeps_statement. intros d j' d' Hwf Hrun.
  eapply jobPost_update_wf; [done| |done]. done.
Qed.

(** X23.  The constraints the schema puts on the tables User, Company,
    JobPost and SavedJobPost (rows stored under their ids, unique
    customer ids, one company per user, one saved record per user and
    job, every relation column pointing at a stored row) are an
    invariant of the six server actions [createJob], [editJobPost],
    [deleteJobPost], [saveJobPost], [unSaveJobPost] and [createCompany]
    and of the payment webhook: from a store that meets them, each of
    these, with any arguments and however the request ends (a rejected
    cancellation message after a delete included), leaves a store that
    meets them. *)
Theorem requests_keep_constraints pricing is_url constructEvent env w :
  db_wf (db w) →
  (∀ data, db_wf (db (createJob pricing is_url env data w).2))
  ∧ (∀ data jobId, db_wf (db (editJobPost is_url env data jobId w).2))
  ∧ (∀ jobId, db_wf (db (deleteJobPost env jobId w).2))
  ∧ (∀ failure jobId,
       db_wf (db (deleteJobPost_sending failure env jobId w).2))
  ∧ (∀ jobId, db_wf (db (saveJobPost env jobId w).2))
  ∧ (∀ savedJobPostId, db_wf (db (unSaveJobPost env savedJobPostId w).2))
  ∧ (∀ data, db_wf (db (createCompany is_url env data w).2))
  ∧ (∀ now_ body sig, db_wf (db (POST constructEvent now_ body sig w).2)).
Proof.
  intros Hwf. split_and!; intros.
  - by apply keeps_createJob.
  - by apply keeps_editJobPost.
  - by apply (keeps_deleteJobPost None).
  - by apply keeps_deleteJobPost.
  - by apply keeps_saveJobPost.
  - by apply keeps_unSaveJobPost.
  - by apply keeps_createCompany.
  - by apply keeps_POST.
Qed.

Lemma requests_keep_constraints_witness :
  db_wf (db (createJob Sample.pricing Sample.is_url Sample.bob_env
               Sample.input Sample.world).2)
  ∧ db_wf (db (createCompany Sample.is_url Sample2.eve_onboarding
                 Sample2.company_input Sample.world).2).
Proof.
  destruct (requests_keep_constraints Sample.pricing Sample.is_url
              (Sample.constructEvent None) Sample.bob_env Sample.world
              sample_store_wf) as (Hcreate & _).
  destruct (requests_keep_constraints Sample.pricing Sample.is_url
              (Sample.constructEvent None) Sample2.eve_onboarding Sample.world
              sample_store_wf) as (_ & _ & _ & _ & _ & _ & Hcompany & _).
  split; [apply Hcreate|apply Hcompany].
Defined.

(** * Properties of page navigation *)

Lemma URLSearchParams_delete_idemp name p :
  URLSearchParams_delete name (URLSearchParams_delete name p)
  = URLSearchParams_delete name p.
Proof.
  unfold URLSearchParams_delete.
  induction p as [|[k v] p IH]; [done|].
  rewrite filter_cons. case_decide as Hk; [|done].
  rewrite filter_cons. rewrite decide_True by done. by rewrite IH.
Qed.

Lemma URLSearchParams_delete_none name p :
  filter (λ kv : string * string, kv.1 = name) (URLSearchParams_delete name p)
  = [].
Proof.
  unfold URLSearchParams_delete.
  induction p as [|[k v] p IH]; [done|].
  rewrite filter_cons. case_decide as Hk; [|done].
  rewrite filter_cons. by rewrite decide_False by done.
Qed.

Lemma URLSearchParams_set_once name value p :
  filter (λ kv : string * string, kv.1 = name) (URLSearchParams_set name value p)
  = [(name, value)].
Proof.
  induction p as [|[k v] p IH]; simpl.
  - by rewrite filter_cons, decide_True.
  - case_bool_decide as Hk.
    + rewrite filter_cons, decide_True by done.
      by rewrite URLSearchParams_delete_none.
    + rewrite filter_cons, decide_False by done. exact IH.
Qed.

Lemma URLSearchParams_delete_set name value p :
  URLSearchParams_delete name (URLSearchParams_set name value p)
  = URLSearchParams_delete name p.
Proof.
  induction p as [|[k v] p IH]; simpl.
  - unfold URLSearchParams_delete. rewrite filter_cons.
    by rewrite decide_False by (by intros H; apply H).
  - case_bool_decide as Hk.
    + unfold URLSearchParams_delete at 1 3. rewrite !filter_cons.
      rewrite !decide_False by (by intros H; apply H).
      apply URLSearchParams_delete_idemp.
    + unfold URLSearchParams_delete in *. rewrite !filter_cons.
      rewrite !decide_True by done. by rewrite IH.
Qed.

Lemma URLSearchParams_set_set name value value' p :
  URLSearchParams_set name value' (URLSearchParams_set name value p)
  = URLSearchParams_set name value' p.
Proof.
  induction p as [|[k v] p IH]; simpl.
  - by rewrite bool_decide_eq_true_2.
  - case_bool_decide as Hk; simpl.
    + rewrite bool_decide_eq_true_2 by done.
      by rewrite URLSearchParams_delete_idemp.
    + rewrite bool_decide_eq_false_2 by done. by rewrite IH.
Qed.

(** X24.  Following a page link navigates to a query that carries the
    page number, in decimal, as its one and only [page] parameter and
    keeps every other parameter in place, so the selected job types and
    the location are read as before; following another link afterwards
    leads where it would have led at once, and links to different pages
    lead to different queries. *)
Theorem handlePageChange_navigates searchParams page :
  URLSearchParams_get "page" (handlePageChange searchParams page)
    = Some (pretty page)
  ∧ filter (λ kv : string * string, kv.1 = "page")
           (handlePageChange searchParams page) = [("page", pretty page)]
  ∧ URLSearchParams_delete "page" (handlePageChange searchParams page)
    = URLSearchParams_delete "page" searchParams
  ∧ currentJobTypes (handlePageChange searchParams page)
    = currentJobTypes searchParams
  ∧ currentLocation (handlePageChange searchParams page)
    = currentLocation searchParams
  ∧ (∀ page', handlePageChange (handlePageChange searchParams page) page'
              = handlePageChange searchParams page')
  ∧ (∀ page', handlePageChange searchParams page
              = handlePageChange searchParams page' → page = page').
Proof.
  unfold handlePageChange. split_and!.
  - apply URLSearchParams_get_set.
  - apply URLSearchParams_set_once.
  - apply URLSearchParams_delete_set.
  - unfold currentJobTypes. by rewrite URLSearchParams_get_set_ne.
  - unfold currentLocation. by rewrite URLSearchParams_get_set_ne.
  - intros page'. apply URLSearchParams_set_set.
  - intros page' Heq.
    apply (f_equal (URLSearchParams_get "page")) in Heq.
    rewrite !URLSearchParams_get_set in Heq. injection Heq as Heq.
    by apply (inj pretty) in Heq.
Qed.
